(** * ShopifyLinesheet: column mapping, size parsing and compare-price shaping

    A shallow embedding of the algorithmic core of the repository
    (helpers/utils.py, helpers/column_mapper.py, backend/data_processor.py,
    helpers/description_generator.py, core/workflow_manager.py) together with
    the properties its specification states about it.

    Conventions of the embedding.
    - A Python [str] is a [string]; the model is exact on ASCII text (bytes
      above 127 are never whitespace, digits, letters or word characters).
    - A Python [float] is [pyfloat]: a finite binary64 value carried as the
      rational it denotes, or an infinity, or NaN.  [py_float] rounds decimal
      text to the nearest binary64 value, ties to even, as CPython does.
    - Scores computed by the column mapper are quotients of two small
      integers compared with decimal literals; they are carried as exact
      rationals.
    - Exceptions are explicit: a computation that may raise returns
      [result A], and [try_except] catches exactly the listed classes. *)

From Stdlib Require Import ZArith QArith String Ascii List Lia Bool DecimalString.
From Stdlib Require Import Sorted Permutation.
From stdpp Require Import base option list gmap strings.
From Stdlib Require Import Qround.

Set Warnings "-clear-no-such-hyp".

Local Open Scope string_scope.
Local Open Scope Z_scope.

(* ===================================================================== *)
(** * The Python runtime the sources rely on                              *)
(* ===================================================================== *)

Module Py.

  (** ** Exceptions *)

Inductive exn := ValueError | TypeError | OverflowError.

Inductive result (A : Type) : Type :=
| Ok (a : A)
| Raise (e : exn).
Arguments Ok {A} a.
Arguments Raise {A} e.

Definition bind {A B} (m : result A) (k : A -> result B) : result B :=
  match m with
  | Ok a => k a
  | Raise e => Raise e
  end.

(** [try: body except classes: handler] *)
Definition try_except {A} (body : result A) (catches : exn -> bool)
           (handler : result A) : result A :=
  match body with
  | Ok a => Ok a
  | Raise e => if catches e then handler else Raise e
  end.

Definition is_ValueError (e : exn) : bool :=
  match e with ValueError => true | _ => false end.

Definition is_ValueError_or_TypeError (e : exn) : bool :=
  match e with ValueError | TypeError => true | OverflowError => false end.

(** ** Characters and strings *)

Definition code (c : ascii) : nat := nat_of_ascii c.

(** [str.isspace] on ASCII: TAB..CR, FS..US and the blank. *)
Definition is_space (c : ascii) : bool :=
  let n := code c in
  (((9 <=? n) && (n <=? 13)) || ((28 <=? n) && (n <=? 32)))%nat.

(** [isspace] of the C locale, which [float] uses on ASCII text. *)
Definition is_cspace (c : ascii) : bool :=
  let n := code c in
  (((9 <=? n) && (n <=? 13)) || (n =? 32))%nat.

Definition is_digit (c : ascii) : bool :=
  let n := code c in ((48 <=? n) && (n <=? 57))%nat.

Definition is_upper (c : ascii) : bool :=
  let n := code c in ((65 <=? n) && (n <=? 90))%nat.

Definition is_lower (c : ascii) : bool :=
  let n := code c in ((97 <=? n) && (n <=? 122))%nat.

Definition is_alpha (c : ascii) : bool := is_upper c || is_lower c.

(** [\w] of the [re] module. *)
Definition is_word (c : ascii) : bool :=
  is_alpha c || is_digit c || Ascii.eqb c "_".

Definition to_lower (c : ascii) : ascii :=
  if is_upper c then ascii_of_nat (code c + 32) else c.

Definition to_upper (c : ascii) : ascii :=
  if is_lower c then ascii_of_nat (code c - 32) else c.

Fixpoint smap (f : ascii -> ascii) (s : string) : string :=
  match s with
  | EmptyString => EmptyString
  | String c s' => String (f c) (smap f s')
  end.

Definition lower (s : string) : string := smap to_lower s.
Definition upper (s : string) : string := smap to_upper s.

Fixpoint lstrip_by (sp : ascii -> bool) (s : string) : string :=
  match s with
  | EmptyString => EmptyString
  | String c s' => if sp c then lstrip_by sp s' else s
  end.

Fixpoint rstrip_by (sp : ascii -> bool) (s : string) : string :=
  match s with
  | EmptyString => EmptyString
  | String c s' =>
      match rstrip_by sp s' with
      | EmptyString => if sp c then EmptyString else String c EmptyString
      | r => String c r
      end
  end.

(** [s.strip()] *)
Definition strip (s : string) : string := rstrip_by is_space (lstrip_by is_space s).

(** [s.split(sep)] for a one-character separator. *)
Fixpoint split (sep : ascii) (s : string) : list string :=
  match s with
  | EmptyString => [EmptyString]
  | String c s' =>
      if Ascii.eqb c sep then EmptyString :: split sep s'
      else match split sep s' with
           | h :: t => String c h :: t
           | [] => [String c EmptyString]
           end
  end.

(** [s.count(c)] for a one-character pattern. *)
Fixpoint count (c : ascii) (s : string) : nat :=
  match s with
  | EmptyString => O
  | String d s' => if Ascii.eqb d c then S (count c s') else count c s'
  end.

Fixpoint starts_with (p s : string) : bool :=
  match p, s with
  | EmptyString, _ => true
  | String a p', String b s' => Ascii.eqb a b && starts_with p' s'
  | String _ _, EmptyString => false
  end.

(** [sub in s] *)
Fixpoint contains (sub s : string) : bool :=
  starts_with sub s ||
  match s with
  | EmptyString => false
  | String _ s' => contains sub s'
  end.

(** [sep.join(l)] *)
Fixpoint join (sep : string) (l : list string) : string :=
  match l with
  | [] => EmptyString
  | [x] => x
  | x :: rest => x ++ sep ++ join sep rest
  end.

Fixpoint sfilter (keep : ascii -> bool) (s : string) : string :=
  match s with
  | EmptyString => EmptyString
  | String c s' => if keep c then String c (sfilter keep s') else sfilter keep s'
  end.

Fixpoint sforall (p : ascii -> bool) (s : string) : bool :=
  match s with
  | EmptyString => true
  | String c s' => p c && sforall p s'
  end.

(** ** Floats *)

Inductive pyfloat :=
| Finite (q : Q)
| PosInf
| NegInf
| NaN.

Definition digit_val (c : ascii) : Z := Z.of_nat (code c) - 48.

(** Value of a digit string read in base ten, most significant first. *)
Fixpoint digits_value (acc : Z) (s : string) : Z :=
  match s with
  | EmptyString => acc
  | String c s' => digits_value (10 * acc + digit_val c) s'
  end.

(** Longest prefix of decimal digits, and what follows it. *)
Fixpoint span_digits (s : string) : string * string :=
  match s with
  | String c s' =>
      if is_digit c then let '(d, r) := span_digits s' in (String c d, r)
      else (EmptyString, s)
  | EmptyString => (EmptyString, EmptyString)
  end.

(** PEP 515: an underscore must sit between two digits.  Returns the text
    without its underscores, or [None] when one is misplaced. *)
Fixpoint drop_underscores (prev : ascii) (s : string) : option string :=
  match s with
  | EmptyString => if Ascii.eqb prev "_" then None else Some EmptyString
  | String c s' =>
      if Ascii.eqb c "_" then
        if is_digit prev then drop_underscores c s' else None
      else if Ascii.eqb prev "_" && negb (is_digit c) then None
      else option_map (String c) (drop_underscores c s')
  end.

(** Optional sign: [(negative, rest)]. *)
Definition take_sign (s : string) : bool * string :=
  match s with
  | String "-" r => (true, r)
  | String "+" r => (false, r)
  | _ => (false, s)
  end.

(** [digits [. digits] [e [sign] digits]] with at least one mantissa digit;
    the whole text must be consumed.  Result: mantissa and power of ten. *)
Definition parse_decimal (s : string) : option (Z * Z) :=
  let '(ip, r1) := span_digits s in
  let '(fp, r2) :=
    match r1 with
    | String "." r => span_digits r
    | _ => (EmptyString, r1)
    end in
  if (String.length ip + String.length fp =? 0)%nat then None
  else
    let '(ex, r3) :=
      match r2 with
      | String c r =>
          if Ascii.eqb c "e" || Ascii.eqb c "E" then
            let '(neg, r') := take_sign r in
            let '(ed, r'') := span_digits r' in
            if (String.length ed =? 0)%nat then (0, r2)
            else ((if neg then - digits_value 0 ed else digits_value 0 ed), r'')
          else (0, r2)
      | EmptyString => (0, r2)
      end in
    match r3 with
    | EmptyString =>
        Some (digits_value 0 (ip ++ fp), ex - Z.of_nat (String.length fp))
    | _ => None
    end.

Definition round_half_even (n d : Z) : Z :=
  let q := n / d in
  match (2 * (n mod d)) ?= d with
  | Lt => q
  | Gt => q + 1
  | Eq => if Z.even q then q else q + 1
  end.

(** [n/d] divided by [2^e], as a fraction. *)
Definition scale2 (n d e : Z) : Z * Z :=
  if 0 <=? e then (n, d * 2 ^ e) else (n * 2 ^ (- e), d).

Definition dyadic (m e : Z) : Q :=
  if 0 <=? e then inject_Z (m * 2 ^ e) else Qred (m # Z.to_pos (2 ^ (- e))).

(** Nearest binary64 value of the non-negative rational [n/d] ([d > 0]):
    53 significant bits, exponent at least -1074, overflow to infinity. *)
Definition binary64_round (n d : Z) : option Q :=
  if n =? 0 then Some 0%Q
  else
    let e0 := Z.log2 n - Z.log2 d in
    let '(n0, d0) := scale2 n d e0 in
    let fl := if d0 <=? n0 then e0 else e0 - 1 in
    let e := Z.max (fl - 52) (-1074) in
    let '(n1, d1) := scale2 n d e in
    let m := round_half_even n1 d1 in
    if (971 <? e) || ((e =? 971) && (2 ^ 53 <=? m)) then None
    else Some (dyadic m e).

Definition float_of_decimal (neg : bool) (m ex : Z) : pyfloat :=
  let '(n, d) := if 0 <=? ex then (m * 10 ^ ex, 1) else (m, 10 ^ (- ex)) in
  match binary64_round n d with
  | Some q => Finite (if neg then Qopp q else q)
  | None => if neg then NegInf else PosInf
  end.

(** [float(s)] for a string argument. *)
Definition py_float (s : string) : result pyfloat :=
  match drop_underscores zero (rstrip_by is_cspace (lstrip_by is_cspace s)) with
  | None => Raise ValueError
  | Some t =>
      let '(neg, body) := take_sign t in
      let lb := lower body in
      if String.eqb lb "inf" || String.eqb lb "infinity" then
        Ok (if neg then NegInf else PosInf)
      else if String.eqb lb "nan" then Ok NaN
      else match parse_decimal body with
           | Some (m, ex) => Ok (float_of_decimal neg m ex)
           | None => Raise ValueError
           end
  end.

(** [int(x)] for a float argument: truncation toward zero. *)
Definition py_int (x : pyfloat) : result Z :=
  match x with
  | Finite q => Ok (Z.quot (Qnum q) (Z.pos (Qden q)))
  | PosInf | NegInf => Raise OverflowError
  | NaN => Raise ValueError
  end.

(** ** Dynamically typed values

    What a spreadsheet cell, a pandas [Series] entry or a dictionary value
    can hold in this program: [None], an integer, a float (NaN is the
    missing-value marker of pandas) or a string. *)

Inductive value :=
| VNone
| VInt (z : Z)
| VFloat (f : pyfloat)
| VStr (s : string).

#[global] Instance value_inhabited : Inhabited value := populate VNone.

(** [pd.isna(v)] *)
Definition isna (v : value) : bool :=
  match v with
  | VNone | VFloat NaN => true
  | _ => false
  end.

(** [str(z)] for an integer. *)
Definition int_repr (z : Z) : string := NilZero.string_of_int (Z.to_int z).

(** [int(s)] for a string of decimal digits. *)
Definition int_of_digits (s : string) : Z := digits_value 0 s.

(** The text of a finite float is produced by the interpreter, not by the
    program: the development is parametric in it, and uses only that it
    begins with a digit or with a minus sign. *)
Class Runtime := {
  float_repr : Q -> string;
  float_repr_head :
    forall q, exists c s, float_repr q = String c s
                          /\ (is_digit c = true \/ c = "-"%char)
}.

Section WithRuntime.
Context `{Runtime}.

(** [str(v)] *)
Definition py_str (v : value) : string :=
  match v with
  | VNone => "None"
  | VInt z => int_repr z
  | VFloat (Finite q) => float_repr q
  | VFloat PosInf => "inf"
  | VFloat NegInf => "-inf"
  | VFloat NaN => "nan"
  | VStr s => s
  end.
End WithRuntime.

(** [str(v).strip() == ''].  The text of a number or of [None] is never
    blank. *)
Definition str_is_blank (v : value) : bool :=
  match v with
  | VStr s => String.eqb (strip s) ""
  | _ => false
  end.

(** [float(str(v).strip())].  For a float the text printed by [str] reads
    back as the same float. *)
Definition float_of_text (v : value) : result pyfloat :=
  match v with
  | VNone => Raise ValueError
  | VInt z => py_float (int_repr z)
  | VFloat f => Ok f
  | VStr s => py_float (strip s)
  end.

(** [v == s] for a string literal [s]. *)
Definition eq_str (v : value) (s : string) : bool :=
  match v with
  | VStr t => String.eqb t s
  | _ => false
  end.

(** Truth value of an object in a condition. *)
Definition truthy (v : value) : bool :=
  match v with
  | VNone => false
  | VInt z => negb (z =? 0)
  | VFloat (Finite q) => negb (Qeq_bool q 0)
  | VFloat _ => true
  | VStr s => negb (String.eqb s "")
  end.

(** [float(v)] *)
Definition float_of_value (v : value) : result pyfloat :=
  match v with
  | VNone => Raise TypeError
  | VInt z => py_float (int_repr z)
  | VFloat f => Ok f
  | VStr s => py_float s
  end.

(** [v == 0] *)
Definition eq_zero (v : value) : bool :=
  match v with
  | VInt z => z =? 0
  | VFloat (Finite q) => Qeq_bool q 0
  | _ => false
  end.

(** [a or b] *)
Definition py_or (a b : value) : value := if truthy a then a else b.

(** Comparisons of a float with a float, as Python evaluates them: every
    comparison with NaN is false. *)
Definition float_leb (x y : pyfloat) : bool :=
  match x, y with
  | NaN, _ | _, NaN => false
  | NegInf, _ => true
  | _, PosInf => true
  | PosInf, _ => false
  | _, NegInf => false
  | Finite a, Finite b => Qle_bool a b
  end.

Definition float_eqb (x y : pyfloat) : bool := float_leb x y && float_leb y x.
Definition float_ltb (x y : pyfloat) : bool := float_leb x y && negb (float_leb y x).

(** ** Regular expressions

    The fragment of [re] the sources use: literals, character classes,
    bounded and unbounded repetition of a class, sequence, alternation,
    and the anchors [^], [$] and [\b].  Matching is by backtracking with a
    continuation; [prev] is the character just before the current
    position, which [\b] and [^] look at. *)

Inductive regex :=
| Lit (s : string)
| Cls (p : ascii -> bool)
| Rep (p : ascii -> bool) (lo : nat) (hi : option nat)
| Seq (a b : regex)
| Alt (a b : regex)
| Bol
| Eol
| WordB.

Definition is_word_opt (c : option ascii) : bool :=
  match c with Some c => is_word c | None => false end.

Definition head_char (s : string) : option ascii :=
  match s with String c _ => Some c | EmptyString => None end.

Fixpoint match_lit (l : string) (prev : option ascii) (s : string)
         (k : option ascii -> string -> bool) : bool :=
  match l, s with
  | EmptyString, _ => k prev s
  | String a l', String b s' => Ascii.eqb a b && match_lit l' (Some b) s' k
  | String _ _, EmptyString => false
  end.

Definition hi_allows (hi : option nat) : bool :=
  match hi with Some O => false | _ => true end.

Fixpoint match_rep (p : ascii -> bool) (lo : nat) (hi : option nat)
         (prev : option ascii) (s : string)
         (k : option ascii -> string -> bool) : bool :=
  match s with
  | String c s' =>
      (p c && hi_allows hi &&
       match_rep p (Nat.pred lo) (option_map Nat.pred hi) (Some c) s' k)
      || ((lo =? 0)%nat && k prev s)
  | EmptyString => (lo =? 0)%nat && k prev s
  end.

Fixpoint match_at (r : regex) (prev : option ascii) (s : string)
         (k : option ascii -> string -> bool) : bool :=
  match r with
  | Lit l => match_lit l prev s k
  | Cls p => match s with
             | String c s' => p c && k (Some c) s'
             | EmptyString => false
             end
  | Rep p lo hi => match_rep p lo hi prev s k
  | Seq a b => match_at a prev s (fun prev' s' => match_at b prev' s' k)
  | Alt a b => match_at a prev s k || match_at b prev s k
  | Bol => match prev with None => k prev s | Some _ => false end
  | Eol => (String.eqb s "" || String.eqb s (String (ascii_of_nat 10) "")) && k prev s
  | WordB => xorb (is_word_opt prev) (is_word_opt (head_char s)) && k prev s
  end.

(** [re.match(r, s)] as a truth value *)
Definition re_match (r : regex) (s : string) : bool :=
  match_at r None s (fun _ _ => true).

Fixpoint search_from (r : regex) (prev : option ascii) (s : string) : bool :=
  match_at r prev s (fun _ _ => true) ||
  match s with
  | String c s' => search_from r (Some c) s'
  | EmptyString => false
  end.

(** [re.search(r, s)] as a truth value *)
Definition re_search (r : regex) (s : string) : bool := search_from r None s.

Definition seq (l : list regex) : regex := foldr Seq (Lit "") l.
Definition alt_lits (l : list string) : regex :=
  foldr (fun s r => Alt (Lit s) r) (Cls (fun _ => false)) l.

(** [re.findall(r'\d+', s)[0]] when there is a match *)
Fixpoint first_digit_run (s : string) : option string :=
  match s with
  | EmptyString => None
  | String c s' =>
      if is_digit c then Some (fst (span_digits s)) else first_digit_run s'
  end.

(** ** Stable sorting, as [list.sort(key=...)] *)

Section Sorting.
Context {A K : Type} (key : A -> K) (leb : K -> K -> bool).

Fixpoint insert_sorted (x : A) (l : list A) : list A :=
  match l with
  | [] => [x]
  | y :: l' => if leb (key x) (key y) then x :: y :: l'
               else y :: insert_sorted x l'
  end.

Fixpoint sort_by (l : list A) : list A :=
  match l with
  | [] => []
  | x :: l' => insert_sorted x (sort_by l')
  end.
End Sorting.

End Py.

Import Py.

#[global] Instance result_bind : MBind result := fun A B k m => Py.bind m k.
#[global] Instance result_ret : MRet result := fun A a => Ok a.

(** [[f(x) for x in l]] where [f] may raise: the first exception wins. *)
Fixpoint map_result {A B} (f : A -> result B) (l : list A) : result (list B) :=
  match l with
  | [] => Ok []
  | x :: l' => y ← f x; ys ← map_result f l'; Ok (y :: ys)
  end.

(* ===================================================================== *)
(** * helpers/utils.py                                                    *)
(* ===================================================================== *)

Module Pandas.

(** A pandas [Series] used as a row: column name to cell. *)
Abbreviation Series := (gmap string value).

(** A table: the ordered column names, and the rows. *)
Record DataFrame := {
  columns : list string;
  records : list Series
}.

(** [df[col]]: a cell missing from a row reads as NaN. *)
Definition column_cells (df : DataFrame) (col : string) : list value :=
  List.map (fun r => default (VFloat NaN) (r !! col)) (records df).

End Pandas.

Import Pandas.

Module Utils.

(** [get_column_value(row, column_mapping, standard_name, default)] *)
Definition get_column_value (row : Series) (column_mapping : gmap string string)
           (standard_name : string) (default : value) : value :=
  match column_mapping !! standard_name with
  | Some actual_column =>
      if negb (String.eqb actual_column "") then
        match row !! actual_column with
        | Some v => v
        | None => default
        end
      else default
  | None => default
  end.

Section WithRuntime.
Context `{Runtime}.

(** [clean_value(value, is_numeric, default_numeric)] *)
Definition clean_value (v : value) (is_numeric : bool)
           (default_numeric : value) : result value :=
  if isna v || eq_str v "nan" || eq_str v "NaN" || str_is_blank v then
    Ok (if is_numeric then default_numeric else VStr "")
  else if is_numeric then
    try_except
      (num_value ← float_of_text v;
       i ← py_int num_value;
       if float_eqb num_value (Finite (inject_Z i)) then Ok (VInt i)
       else Ok (VFloat num_value))
      is_ValueError_or_TypeError
      (Ok default_numeric)
  else Ok (VStr (strip (py_str v))).

(** [clean_value(value)]: with [is_numeric] left at [False] the result is
    always a string and nothing can raise. *)
Definition clean_text (v : value) : string :=
  if isna v || eq_str v "nan" || eq_str v "NaN" || str_is_blank v then ""
  else strip (py_str v).
End WithRuntime.

(** [parse_size_and_quantity(size_string)] *)
Definition parse_size_and_quantity (size_string : string) : result (string * Z) :=
  let size_string := strip size_string in
  if String.eqb (lower size_string) "custom" then Ok ("Custom", 0)
  else if contains "-" size_string && (count "-" size_string =? 1)%nat then
    let parts := split "-" size_string in
    let size_part := strip (nth 0 parts "") in
    try_except
      (f ← py_float (strip (nth 1 parts ""));
       qty_part ← py_int f;
       Ok (size_part, qty_part))
      is_ValueError
      (Ok (size_string, 0))
  else Ok (size_string, 0).

Definition standard_order : list string :=
  ["XXS"; "XS"; "S"; "M"; "L"; "XL"; "XXL"; "XXXL"; "2XL"; "3XL"; "4XL"; "5XL"].

(** [for idx, std_size in enumerate(standard_order): if ...: break] *)
Fixpoint standard_index (size : string) (order : list string) (idx : nat) : option nat :=
  match order with
  | [] => None
  | std_size :: rest =>
      if String.eqb (upper size) (upper std_size) then Some idx
      else standard_index size rest (S idx)
  end.

Inductive size_class :=
| Standard (idx : nat)
| Numeric (n : Z)
| Custom.

Definition re_all_digits : regex := seq [Bol; Rep is_digit 1 None; Eol].
Definition re_x_digits : regex := seq [Bol; Lit "X"; Rep is_digit 1 None].

(** The bucket of one size in the loop over [unique_sizes]. *)
Definition classify (size : string) : size_class :=
  match standard_index size standard_order 0 with
  | Some idx => Standard idx
  | None =>
      if re_match re_all_digits size then Numeric (int_of_digits (strip size))
      else if re_match re_x_digits (upper size) then
        match first_digit_run size with
        | Some number => Numeric (int_of_digits number)
        | None => Custom
        end
      else Custom
  end.

Fixpoint partition_sizes (unique_sizes : list string)
  : list (nat * string) * list (Z * string) * list string :=
  match unique_sizes with
  | [] => ([], [], [])
  | size :: rest =>
      let '(standard_sizes, numeric_sizes, custom_sizes) := partition_sizes rest in
      match classify size with
      | Standard idx => ((idx, size) :: standard_sizes, numeric_sizes, custom_sizes)
      | Numeric n => (standard_sizes, (n, size) :: numeric_sizes, custom_sizes)
      | Custom => (standard_sizes, numeric_sizes, size :: custom_sizes)
      end
  end.

(** "Remove duplicates while preserving order" *)
Fixpoint unique_from (seen : gset string) (sizes : list string) : list string :=
  match sizes with
  | [] => []
  | size :: rest =>
      if decide (size ∈ seen) then unique_from seen rest
      else size :: unique_from ({[size]} ∪ seen) rest
  end.

(** [[s.strip() for s in str(sizes_list).split(',') if s.strip()]] *)
Definition size_strings (sizes_list : string) : list string :=
  List.filter (fun s => negb (String.eqb s "")) (List.map strip (split "," sizes_list)).

Definition quantity_map (parsed : list (string * Z)) : gmap string Z :=
  fold_left (fun m p => <[fst p := snd p]> m) parsed ∅.

Definition sorted_sizes_of (parsed_sizes : list string) : list string :=
  let unique_sizes := unique_from ∅ parsed_sizes in
  let '(standard_sizes, numeric_sizes, custom_sizes) := partition_sizes unique_sizes in
  List.map snd (sort_by fst Nat.leb standard_sizes)
  ++ List.map snd (sort_by fst Z.leb numeric_sizes)
  ++ sort_by id String.leb custom_sizes.

(** [sort_sizes_with_quantities(sizes_list)] *)
Definition sort_sizes_with_quantities (sizes_list : string)
  : result (list string * gmap string Z) :=
  parsed ← map_result parse_size_and_quantity (size_strings sizes_list);
  Ok (sorted_sizes_of (List.map fst parsed), quantity_map parsed).

End Utils.

Import Utils.


(* ===================================================================== *)
(** * difflib.SequenceMatcher, as helpers/column_mapper.py calls it       *)
(* ===================================================================== *)

Module Difflib.

(** One row of the [j2len] table of [find_longest_match]: entry [j] is the
    length of the longest common block ending at [a[i]] and [b[j]].  No
    element is junk ([isjunk] is [None]); the "popular element" heuristic
    applies only when [b] has 200 elements or more, and [b] is always one
    of the accepted spellings below, all far shorter. *)
Fixpoint dp_row (ai : ascii) (b : list ascii) (diag : nat) (j2len : list nat) : list nat :=
  match b, j2len with
  | bj :: b', old :: j2len' =>
      (if Ascii.eqb ai bj then S diag else O) :: dp_row ai b' old j2len'
  | _, _ => []
  end.

(** [if k > bestsize: besti, bestj, bestsize = i-k+1, j-k+1, k] *)
Fixpoint scan_row (i j : nat) (row : list nat) (best : nat * nat * nat) : nat * nat * nat :=
  match row with
  | [] => best
  | k :: row' =>
      let '(_, _, bestsize) := best in
      scan_row i (S j) row'
               (if (bestsize <? k)%nat then ((i + 1 - k)%nat, (j + 1 - k)%nat, k) else best)
  end.

Fixpoint longest_loop (a : list ascii) (i : nat) (b : list ascii)
         (j2len : list nat) (best : nat * nat * nat) : nat * nat * nat :=
  match a with
  | [] => best
  | ai :: a' =>
      let newj2len := dp_row ai b O j2len in
      longest_loop a' (S i) b newj2len (scan_row i O newj2len best)
  end.

(** [find_longest_match(0, len(a), 0, len(b))]: the block [(i, j, k)]. *)
Definition find_longest_match (a b : list ascii) : nat * nat * nat :=
  longest_loop a O b (repeat O (length b)) (O, O, O).

(** Sum of the sizes of the blocks [get_matching_blocks] collects: the
    longest block, then the same to its left and to its right. *)
Fixpoint matches_fuel (fuel : nat) (a b : list ascii) : nat :=
  match fuel with
  | O => O
  | S fuel' =>
      let '(i, j, k) := find_longest_match a b in
      if (k =? 0)%nat then O
      else
        (k
         + (if (0 <? i)%nat && (0 <? j)%nat
            then matches_fuel fuel' (firstn i a) (firstn j b) else O)
         + (if (i + k <? length a)%nat && (j + k <? length b)%nat
            then matches_fuel fuel' (skipn (i + k) a) (skipn (j + k) b) else O))%nat
  end.

Definition matches (a b : list ascii) : nat := matches_fuel (length a) a b.

(** [SequenceMatcher(None, a, b).ratio()] *)
Definition ratio (a b : string) : Q :=
  let la := list_ascii_of_string a in
  let lb := list_ascii_of_string b in
  let length := (length la + length lb)%nat in
  if (length =? 0)%nat then 1%Q
  else Qred (Z.of_nat (2 * matches la lb) # Pos.of_nat length).

End Difflib.

(* ===================================================================== *)
(** * helpers/column_mapper.py                                            *)
(* ===================================================================== *)

Module ColumnMapper.

Record MappingResult := {
  base_mapping : gmap string string;
  unmapped_columns : list string;
  confidence_scores : gmap string Q
}.

(** [_get_column_variants()], in the order of the dictionary literal *)
Definition standard_variants : list (string * list string) :=
  [
    ("Handle",
     ["handle"; "product_handle"; "product handle"]);
    ("Title",
     ["title"; "product_title"; "product title"; "name"; "product_name"; "product name"]);
    ("Body (HTML)",
     ["body (html)"; "body html"; "description"; "product_description"; "product description"; "desc"; "body"]);
    ("Vendor",
     ["vendor"; "brand"; "manufacturer"; "supplier"]);
    ("Product Category",
     ["product category"; "product_category"; "category"; "product_type"]);
    ("Type",
     ["type"; "product_type"; "product type"]);
    ("Tags",
     ["tags"; "product_tags"; "keywords"]);
    ("Published",
     ["published"; "status"; "active"; "publish_status"; "publish status"]);
    ("Option1 Name",
     ["option1 name"; "option1_name"; "option 1 name"]);
    ("Option1 Value",
     ["option1 value"; "option1_value"; "option 1 value"; "size"; "sizes"]);
    ("Option2 Name",
     ["option2 name"; "option2_name"; "option 2 name"]);
    ("Option2 Value",
     ["option2 value"; "option2_value"; "option 2 value"; "colour"; "color"; "colors"; "colours"]);
    ("Option3 Name",
     ["option3 name"; "option3_name"; "option 3 name"]);
    ("Option3 Value",
     ["option3 value"; "option3_value"; "option 3 value"]);
    ("Variant SKU",
     ["variant sku"; "variant_sku"; "sku"; "product_sku"; "product sku"; "product code"; "product_code"; "item_code"; "item code"; "Product code"; "Porduct Code"]);
    ("Variant Grams",
     ["variant grams"; "variant_grams"; "weight_grams"; "weight grams"]);
    ("Variant Inventory Tracker",
     ["variant inventory tracker"; "variant_inventory_tracker"; "inventory tracker"; "inventory_tracker"]);
    ("Variant Inventory Qty",
     ["variant inventory qty"; "variant_inventory_qty"; "inventory qty"; "inventory_qty"; "quantity"; "stock"; "stock_quantity"]);
    ("Variant Inventory Policy",
     ["variant inventory policy"; "variant_inventory_policy"; "inventory policy"; "inventory_policy"]);
    ("Variant Fulfillment Service",
     ["variant fulfillment service"; "variant_fulfillment_service"; "fulfillment service"; "fulfillment_service"]);
    ("Variant Price",
     ["variant price"; "variant_price"; "price"; "unit_price"; "unit price"; "cost"; "selling_price"]);
    ("Variant Compare At Price",
     ["variant compare at price"; "variant_compare_at_price"; "compare price"; "compare_price"; "compare at price"; "compare_at_price"; "original_price"; "original price"; "mrp"]);
    ("Variant Requires Shipping",
     ["variant requires shipping"; "variant_requires_shipping"; "requires shipping"; "requires_shipping"; "shipping_required"]);
    ("Variant Taxable",
     ["variant taxable"; "variant_taxable"; "taxable"; "tax_applicable"]);
    ("Variant Barcode",
     ["variant barcode"; "variant_barcode"; "barcode"; "upc"; "ean"]);
    ("Variant Image",
     ["variant image"; "variant_image"; "image"; "product_image"]);
    ("Variant Weight Unit",
     ["variant weight unit"; "variant_weight_unit"; "weight unit"; "weight_unit"]);
    ("Variant Weight",
     ["variant weight"; "variant_weight"; "weight"]);
    ("Image Src",
     ["image src"; "image_src"; "image url"; "image_url"; "image"; "product_image"]);
    ("Image Position",
     ["image position"; "image_position"]);
    ("Image Alt Text",
     ["image alt text"; "image_alt_text"; "alt text"; "alt_text"]);
    ("Gift Card",
     ["gift card"; "gift_card"]);
    ("SEO Title",
     ["seo title"; "seo_title"; "meta title"; "meta_title"]);
    ("SEO Description",
     ["seo description"; "seo_description"; "meta description"; "meta_description"]);
    ("Google Shopping / Google Product Category",
     ["google shopping / google product category"; "google product category"; "google_product_category"]);
    ("Google Shopping / Gender",
     ["google shopping / gender"; "gender"; "target_gender"]);
    ("Google Shopping / Age Group",
     ["google shopping / age group"; "age group"; "age_group"]);
    ("Google Shopping / MPN",
     ["google shopping / mpn"; "mpn"; "manufacturer_part_number"]);
    ("Google Shopping / AdWords Grouping",
     ["google shopping / adwords grouping"; "adwords grouping"; "adwords_grouping"]);
    ("Google Shopping / AdWords Labels",
     ["google shopping / adwords labels"; "adwords labels"; "adwords_labels"]);
    ("Google Shopping / Condition",
     ["google shopping / condition"; "condition"; "product_condition"]);
    ("Google Shopping / Custom Product",
     ["google shopping / custom product"; "custom product"; "custom_product"]);
    ("Google Shopping / Custom Label 0",
     ["google shopping / custom label 0"; "custom label 0"; "custom_label_0"]);
    ("Google Shopping / Custom Label 1",
     ["google shopping / custom label 1"; "custom label 1"; "custom_label_1"]);
    ("Google Shopping / Custom Label 2",
     ["google shopping / custom label 2"; "custom label 2"; "custom_label_2"]);
    ("Google Shopping / Custom Label 3",
     ["google shopping / custom label 3"; "custom label 3"; "custom_label_3"]);
    ("Google Shopping / Custom Label 4",
     ["google shopping / custom label 4"; "custom label 4"; "custom_label_4"]);
    ("Cost per item",
     ["cost per item"; "cost_per_item"; "cost"; "wholesale_price"; "wholesale price"]);
    ("Price / International",
     ["price / international"; "price_international"; "international_price"]);
    ("Compare At Price / International",
     ["compare at price / international"; "compare_at_price_international"; "international_compare_price"]);
    ("Status",
     ["status"; "product_status"; "active"; "draft"; "archived"]);
    ("no of components",
     ["no of components"; "no_of_components"; "components"; "number_of_components"; "component_count"]);
    ("fabric",
     ["fabric"; "material"; "fabric_type"; "fabric type"]);
    ("celebs name",
     ["celebs name"; "celebs_name"; "celebrity_name"; "celebrity name"]);
    ("fit",
     ["fit"; "fitting"; "size_fit"; "size fit"]);
    ("sizes info",
     ["sizes info"; "sizes_info"; "size_info"; "size info"]);
    ("delivery time",
     ["delivery time"; "delivery_time"; "shipping_time"; "shipping time"]);
    ("wash care",
     ["wash care"; "wash_care"; "care_instructions"; "care instructions"]);
    ("technique used",
     ["technique used"; "technique_used"; "manufacturing_technique"]);
    ("embroidery details",
     ["embroidery details"; "embroidery_details"; "embroidery"])
  ].

(** [self.standard_fields] *)
Definition standard_fields : list string := List.map fst standard_variants.

(** [d.update(e)]: the entries of [e] win. *)
Definition update {V} (d e : gmap string V) : gmap string V := e ∪ d.

(** [col in d.values()] *)
Definition in_values (col : string) (d : gmap string string) : bool :=
  bool_decide (col ∈ (map_to_list d).*2).

Definition in_keys {V} (k : string) (d : gmap string V) : bool :=
  bool_decide (is_Some (d !! k)).

(** [{col.lower().strip(): col for col in df.columns}] *)
Definition actual_columns_lower (cols : list string) : gmap string string :=
  fold_left (fun m col => <[strip (lower col) := col]> m) cols ∅.

(** The inner loop of [_exact_match]: the first accepted spelling found. *)
Fixpoint first_spelling (lowered : gmap string string) (variants : list string) : option string :=
  match variants with
  | [] => None
  | variant :: rest =>
      match lowered !! lower variant with
      | Some col => Some col
      | None => first_spelling lowered rest
      end
  end.

(** [_exact_match(df)] *)
Definition _exact_match (df : DataFrame) : gmap string string :=
  let lowered := actual_columns_lower (columns df) in
  fold_left
    (fun mapping entry =>
       match first_spelling lowered (snd entry) with
       | Some col => <[fst entry := col]> mapping
       | None => mapping
       end)
    standard_variants ∅.

(** [for standard_name, actual_column in base_mapping.items():
       confidence_scores[actual_column] = 1.0] *)
Definition exact_confidence (base : gmap string string) : gmap string Q :=
  fold_left (fun scores entry => <[snd entry := 1.0%Q]> scores) (map_to_list base) ∅.

(** [re.sub(r'[_\-\s]+', '', s)] *)
Definition clean_name (s : string) : string :=
  sfilter (fun c => negb (Ascii.eqb c "_" || Ascii.eqb c "-" || is_space c)) s.

(** [max(x, y)] *)
Definition qmax (x y : Q) : Q := if Qlt_le_dec x y then y else x.
(** [min(x, y)] *)
Definition qmin (x y : Q) : Q := if Qlt_le_dec y x then y else x.
Definition qgtb (x y : Q) : bool := if Qlt_le_dec y x then true else false.

(** [_calculate_similarity(str1, str2)] *)
Definition _calculate_similarity (str1 str2 : string) : Q :=
  let str1_clean := clean_name str1 in
  let str2_clean := clean_name str2 in
  let similarity := Difflib.ratio str1_clean str2_clean in
  if contains str2_clean str1_clean || contains str1_clean str2_clean
  then qmax similarity 0.8
  else similarity.

(** The two nested loops of [_find_best_fuzzy_match], threading
    [(best_standard, best_score)]. *)
Definition best_over_variants (column standard_name : string)
           (variants : list string) (best : option string * Q) : option string * Q :=
  fold_left
    (fun best variant =>
       let similarity := _calculate_similarity (lower column) (lower variant) in
       if qgtb similarity (snd best) && qgtb similarity 0.7
       then (Some standard_name, similarity)
       else best)
    variants best.

(** [_find_best_fuzzy_match(column, existing_mapping)] *)
Definition _find_best_fuzzy_match (column : string) (existing_mapping : gmap string string)
  : option (string * Q) :=
  let best :=
    fold_left
      (fun best entry =>
         if in_keys (fst entry) existing_mapping then best
         else best_over_variants column (fst entry) (snd entry) best)
      standard_variants (None, 0%Q) in
  match fst best with
  | Some best_standard => Some (best_standard, snd best)
  | None => None
  end.

(** [_fuzzy_match(unmapped_columns, existing_mapping)] *)
Definition _fuzzy_match (unmapped : list string) (existing_mapping : gmap string string)
  : gmap string string * gmap string Q :=
  fold_left
    (fun acc col =>
       match _find_best_fuzzy_match col existing_mapping with
       | Some (standard_name, confidence) =>
           (<[standard_name := col]> (fst acc), <[col := confidence]> (snd acc))
       | None => acc
       end)
    unmapped (∅, ∅).

(** [hits / len(values) if values else 0] *)
Definition fraction (hits : nat) (values : list string) : Q :=
  match values with
  | [] => 0%Q
  | _ => Z.of_nat hits # Pos.of_nat (length values)
  end.

Definition count_if {A} (p : A -> bool) (l : list A) : nat :=
  length (List.filter p l).

(** [re.sub(r'[CURRENCY,\s]', '', value)]; the three currency signs
    beyond the dollar are multi-byte in UTF-8. *)
Fixpoint strip_price_marks_fuel (fuel : nat) (s : string) : string :=
  match fuel with
  | O => s
  | S fuel' =>
      if starts_with "₹" s then strip_price_marks_fuel fuel' (String.substring 3 (String.length s - 3) s)
      else if starts_with "€" s then strip_price_marks_fuel fuel' (String.substring 3 (String.length s - 3) s)
      else if starts_with "£" s then strip_price_marks_fuel fuel' (String.substring 2 (String.length s - 2) s)
      else match s with
           | EmptyString => EmptyString
           | String c s' =>
               if Ascii.eqb c "$" || Ascii.eqb c "," || is_space c
               then strip_price_marks_fuel fuel' s'
               else String c (strip_price_marks_fuel fuel' s')
           end
  end.

Definition strip_price_marks (s : string) : string :=
  strip_price_marks_fuel (String.length s) s.

(** [_is_price_column(values)] *)
Definition _is_price_column (values : list string) : Q :=
  fraction
    (count_if
       (fun value =>
          match py_float (strip_price_marks value) with
          | Ok num => float_ltb (Finite 0) num && float_ltb num (Finite 100000)
          | Raise _ => false
          end)
       values)
    values.

Definition status_words : list string :=
  ["active"; "inactive"; "draft"; "published"; "unpublished"; "true"; "false"; "yes"; "no"].

(** [_is_status_column(values)] *)
Definition _is_status_column (values : list string) : Q :=
  fraction (count_if (fun v => bool_decide (v ∈ status_words)) values) values.

Definition size_patterns : list regex :=
  [ seq [WordB; alt_lits ["xs"; "s"; "m"; "l"; "xl"; "xxl"; "xxxl"]; WordB];
    seq [WordB; Rep is_digit 1 (Some 2%nat); WordB];
    seq [WordB; alt_lits ["small"; "medium"; "large"]; WordB];
    seq [WordB; Rep is_digit 1 (Some 2%nat); Lit "-"; Rep is_digit 1 None; WordB] ].

(** [_is_size_column(values)] *)
Definition _is_size_column (values : list string) : Q :=
  fraction
    (count_if (fun value => existsb (fun pattern => re_search pattern value) size_patterns) values)
    values.

Definition color_words : list string :=
  ["red"; "blue"; "green"; "yellow"; "black"; "white"; "pink"; "purple";
   "orange"; "brown"; "gray"; "grey"; "navy"; "maroon"; "teal"; "cyan"].

(** [_is_color_column(values)] *)
Definition _is_color_column (values : list string) : Q :=
  fraction (count_if (fun v => existsb (fun color => contains color v) color_words) values) values.

Definition category_words : list string :=
  ["shirt"; "dress"; "pants"; "jeans"; "jacket"; "shoes"; "bag";
   "jewelry"; "clothing"; "apparel"; "accessories"; "footwear"].

(** [_is_category_column(values)] *)
Definition _is_category_column (values : list string) : Q :=
  fraction (count_if (fun v => existsb (fun cat => contains cat v) category_words) values) values.

Definition name_hints : list string := ["sku"; "code"; "id"; "number"; "ref"].

Definition re_code : regex :=
  seq [Bol;
       Rep (fun c => is_alpha c || is_digit c || Ascii.eqb c "_" || Ascii.eqb c "-") 1 None;
       Eol].

(** [_is_code_column(values, column_name)] *)
Definition _is_code_column (values : list string) (column_name : string) : Q :=
  let name_bonus :=
    if existsb (fun hint => contains hint column_name) name_hints then 0.3%Q else 0%Q in
  let code_count :=
    count_if (fun value => re_match re_code (strip value)
                           && (2 <? String.length (strip value))%nat) values in
  let base_score := fraction code_count values in
  qmin 1.0 (base_score + name_bonus).

(** [_detect_column_type(sample_values, column_name)] *)
Definition _detect_column_type (sample_values : list string) (column_name : string)
  : option string * Q :=
  let values_lower :=
    List.map (fun v => strip (lower v))
             (List.filter (fun v => negb (String.eqb (strip v) "")) sample_values) in
  if qgtb (_is_price_column values_lower) 0.7 then (Some "variant price", 0.8%Q)
  else if qgtb (_is_status_column values_lower) 0.6 then (Some "published", 0.7%Q)
  else if qgtb (_is_size_column values_lower) 0.6 then (Some "size", 0.7%Q)
  else if qgtb (_is_color_column values_lower) 0.6 then (Some "colour", 0.7%Q)
  else if qgtb (_is_category_column values_lower) 0.5 then (Some "product category", 0.6%Q)
  else if qgtb (_is_code_column values_lower (lower column_name)) 0.7 then (Some "product code", 0.8%Q)
  else (None, 0%Q).

Section WithRuntime.
Context `{Runtime}.

(** [df[col].dropna().astype(str).head(10).tolist()] *)
Definition sample_of (df : DataFrame) (col : string) : list string :=
  firstn 10 (List.map py_str (List.filter (fun v => negb (isna v)) (column_cells df col))).

(** [_content_analysis(df, unmapped_columns, existing_mapping)] *)
Definition _content_analysis (df : DataFrame) (unmapped : list string)
           (existing_mapping : gmap string string)
  : gmap string string * gmap string Q :=
  fold_left
    (fun acc col =>
       let sample_values := sample_of df col in
       match sample_values with
       | [] => acc
       | _ =>
           match _detect_column_type sample_values col with
           | (Some detected_type, confidence) =>
               if qgtb confidence 0.6 && negb (in_keys detected_type existing_mapping)
               then (<[detected_type := col]> (fst acc), <[col := confidence]> (snd acc))
               else acc
           | (None, _) => acc
           end
       end)
    unmapped (∅, ∅).

(** The intermediate results of [analyze_columns], named as in the code. *)
Record Analysis := {
  exact_mapping : gmap string string;
  fuzzy_mapping : gmap string string;
  fuzzy_confidence : gmap string Q;
  content_mapping : gmap string string;
  content_confidence : gmap string Q;
  final_mapping : gmap string string;
  final_unmapped : list string;
  final_confidence : gmap string Q
}.

(** The columns [analyze_columns] hands to the fuzzy pass and to the
    content pass. *)
Definition unmapped_after_exact (df : DataFrame) : list string :=
  List.filter (fun col => negb (in_values col (_exact_match df))) (columns df).

Definition remaining_unmapped (df : DataFrame) : list string :=
  let unmapped := unmapped_after_exact df in
  List.filter
    (fun col => negb (in_values col (fst (_fuzzy_match unmapped (_exact_match df)))))
    unmapped.

Definition analysis (df : DataFrame) : Analysis :=
  let base := _exact_match df in
  let fuzzy := _fuzzy_match (unmapped_after_exact df) base in
  let content := _content_analysis df (remaining_unmapped df) base in
  let final := update (update base (fst fuzzy)) (fst content) in
  let scores := update (update (exact_confidence base) (snd fuzzy)) (snd content) in
  {| exact_mapping := base;
     fuzzy_mapping := fst fuzzy; fuzzy_confidence := snd fuzzy;
     content_mapping := fst content; content_confidence := snd content;
     final_mapping := final;
     final_unmapped := List.filter (fun col => negb (in_values col final)) (columns df);
     final_confidence := scores |}.

(** [analyze_columns(df)] *)
Definition analyze_columns (df : DataFrame) : MappingResult :=
  let a := analysis df in
  {| base_mapping := final_mapping a;
     unmapped_columns := final_unmapped a;
     confidence_scores := final_confidence a |}.
End WithRuntime.

End ColumnMapper.

(* ===================================================================== *)
(** * helpers/utils.py: the column helpers                                *)
(* ===================================================================== *)

Module UtilsColumns.
Import ColumnMapper.

(** [column_variants] of [normalize_column_names], in the order of the
    dictionary literal. *)
Definition column_variants : list (string * list string) :=
  [
   ("title", ["title"; "product_title"; "product title"; "name"; "product_name"; "product name"]);
   ("description", ["description"; "product_description"; "product description"; "desc"]);
   ("colour", ["colour"; "color"; "colors"; "colours"]);
   ("product code", ["product code"; "product_code"; "sku"; "product_sku"; "item_code"; "item code"]);
   ("product category", ["product category"; "product_category"; "category"; "product_type"]);
   ("type", ["type"; "product_type"; "product type"]);
   ("published", ["published"; "status"; "active"; "publish_status"; "publish status"]);
   ("size", ["size"; "sizes"; "variant_size"; "variant size"]);
   ("no of components", ["no of components"; "no_of_components"; "components"; "number_of_components"; "component_count"]);
   ("fabric", ["fabric"; "material"; "fabric_type"; "fabric type"]);
   ("variant price", ["variant price"; "variant_price"; "price"; "unit_price"; "unit price"; "cost"]);
   ("variant compare at price", ["variant compare at price"; "variant_compare_at_price"; "compare_price"; "compare price"; "compare at price"; "compare_at_price"; "original_price"; "original price"]);
   ("celebs name", ["celebs name"; "celebs_name"; "celebrity_name"; "celebrity name"; "celeb_name"; "celeb name"]);
   ("fit", ["fit"; "fitting"; "size_fit"; "size fit"]);
   ("sizes info", ["sizes info"; "sizes_info"; "size_info"; "size info"]);
   ("delivery time", ["delivery time"; "delivery_time"; "shipping_time"; "shipping time"]);
   ("wash care", ["wash care"; "wash_care"; "care_instructions"; "care instructions"]);
   ("technique used", ["technique used"; "technique_used"; "manufacturing_technique"; "manufacturing technique"]);
   ("embroidery details", ["embroidery details"; "embroidery_details"; "embroidery"; "embroidery_info"])
  ].

(** [normalize_column_names(df)]: the loops are those of
    [ColumnMapper._exact_match], over this table. *)
Definition normalize_column_names (df : DataFrame) : gmap string string :=
  let lowered := actual_columns_lower (columns df) in
  fold_left
    (fun column_mapping entry =>
       match first_spelling lowered (snd entry) with
       | Some col => <[fst entry := col]> column_mapping
       | None => column_mapping
       end)
    column_variants ∅.

(** [safe_get_column_data(df, column_mapping, standard_name, default_value)] *)
Definition safe_get_column_data (df : DataFrame) (column_mapping : gmap string string)
           (standard_name : string) (default_value : value) : list value :=
  let mapped :=
    match column_mapping !! standard_name with
    | Some actual_column =>
        if negb (String.eqb actual_column "") && bool_decide (actual_column ∈ columns df)
        then Some actual_column else None
    | None => None
    end in
  match mapped with
  | Some actual_column => column_cells df actual_column
  | None =>
      if bool_decide (standard_name ∈ columns df) then column_cells df standard_name
      else
        match List.find (fun col => String.eqb (strip (lower col)) (strip (lower standard_name)))
                        (columns df) with
        | Some col => column_cells df col
        | None => List.map (fun _ => default_value) (records df)
        end
  end.

End UtilsColumns.

(* ===================================================================== *)
(** * backend/data_processor.py                                           *)
(* ===================================================================== *)

Module DataProcessor.

(** The configuration dictionary; an absent key is [None] here and every
    reader supplies its default, as [config.get(key, default)] does. *)
Record Config := {
  default_qty : option Z;
  fallback_qty : option Z;
  bulk_qty_mode : option bool;
  bulk_qty : option Z;
  use_expected_qty : option bool;
  default_compare_price : option pyfloat;
  bulk_compare_price_mode : option bool;
  bulk_compare_price : option pyfloat;
  use_expected_compare_price : option bool
}.

(** The part of [st.session_state] the processor reads: a key that is not
    in the session is [None]. *)
Record Session := {
  session_config : option Config;
  variant_quantities : option (gmap string value);
  variant_compare_prices : option (gmap string value)
}.

(** [_extract_quantity(size, size_quantity_map, config)] *)
Definition _extract_quantity (size : string) (size_quantity_map : gmap string Z)
           (config : Config) : Z :=
  if default false (bulk_qty_mode config) then default 10 (bulk_qty config)
  else if default true (use_expected_qty config) then
    let extracted_qty := default 0 (size_quantity_map !! size) in
    if 0 <? extracted_qty then extracted_qty
    else default (default 10 (default_qty config)) (fallback_qty config)
  else default 10 (default_qty config).

(** [_extract_compare_price(row, column_mapping, config)] *)
Definition _extract_compare_price (row : Series) (column_mapping : gmap string string)
           (config : Config) : value :=
  if default false (bulk_compare_price_mode config) then
    VFloat (default (Finite 0) (bulk_compare_price config))
  else if default true (use_expected_compare_price config) then
    let compare_price_value :=
      get_column_value row column_mapping "Variant Compare At Price" (VStr "") in
    if truthy compare_price_value && negb (isna compare_price_value)
       && negb (str_is_blank compare_price_value) then
      match float_of_text compare_price_value with
      | Ok numeric_value =>
          if float_leb (Finite 0) numeric_value then VFloat numeric_value else VNone
      | Raise _ => VNone
      end
    else VNone
  else VFloat (default (Finite 0) (default_compare_price config)).

(** [size.split('-')[0].strip() if size and '-' in size else size] *)
Definition display_size_of (size : string) : string :=
  if negb (String.eqb size "") && contains "-" size
  then strip (nth 0 (split "-" size) "")
  else size.

(** [[c.strip() for c in text.split(",") if c.strip()]] *)
Definition split_colors (text : string) : list string :=
  List.filter (fun c => negb (String.eqb c "")) (List.map strip (split "," text)).

(** The size and colour cells of a source row, "using both old and new
    field names for compatibility". *)
Definition sizes_value_of (row : Series) (column_mapping : gmap string string) : value :=
  py_or (get_column_value row column_mapping "Option1 Value" (VStr ""))
        (get_column_value row column_mapping "size" (VStr "")).

Definition colours_value_of (row : Series) (column_mapping : gmap string string) : value :=
  py_or (get_column_value row column_mapping "Option2 Value" (VStr ""))
        (get_column_value row column_mapping "colour" (VStr "")).

(** The string held by a cell the pipeline itself wrote. *)
Definition text_at (row : Series) (k : string) : string :=
  match row !! k with
  | Some (VStr s) => s
  | _ => ""
  end.

Section WithRuntime.
Context `{Runtime}.

(** One iteration of the innermost loop of [_process_variants]. *)
Definition exploded_row (row : Series) (size color : string)
           (size_quantity_map : gmap string Z) (uploaded_compare_price : value)
           (config : Config) : Series :=
  let new_row := row in
  let display_size := display_size_of size in
  let new_row := <["sizes_list" := VStr size]> new_row in
  let new_row := <["display_size" := VStr display_size]> new_row in
  let new_row := <["colours_list" := VStr color]> new_row in
  let extracted_qty := _extract_quantity size size_quantity_map config in
  let new_row := <["extracted_quantity" := VInt extracted_qty]> new_row in
  <["uploaded_compare_price" := uploaded_compare_price]> new_row.

(** The body of the loop over [df_raw.iterrows()] in [_process_variants]:
    the exploded rows of one source row. *)
Definition explode (row : Series) (column_mapping : gmap string string)
           (config : Config) : result (list Series) :=
  let sizes_value := sizes_value_of row column_mapping in
  let colours_value := colours_value_of row column_mapping in
  sorted ← sort_sizes_with_quantities (clean_text sizes_value);
  let colors := split_colors (clean_text colours_value) in
  let uploaded_compare_price := _extract_compare_price row column_mapping config in
  let '(sorted_sizes, size_quantity_map) :=
    match fst sorted with
    | [] => ([""], ({[ "" := 0 ]} : gmap string Z))
    | _ => sorted
    end in
  let colors := match colors with [] => [""] | _ => colors end in
  Ok (size ← sorted_sizes;
      color ← colors;
      [exploded_row row size color size_quantity_map uploaded_compare_price config]).

(** [_process_variants(df_raw, column_mapping, config)] *)
Definition _process_variants (df_raw : DataFrame) (column_mapping : gmap string string)
           (config : Config) : result (list Series) :=
  groups ← map_result (fun row => explode row column_mapping config) (records df_raw);
  Ok (concat groups).

(** The chain of [str.replace]/[lower]/[strip] calls of [_generate_handles]. *)
Fixpoint squeeze (p : ascii -> bool) (prev_in : bool) (s : string) : string :=
  match s with
  | EmptyString => EmptyString
  | String c s' =>
      if p c then (if prev_in then squeeze p true s' else String "-" (squeeze p true s'))
      else String c (squeeze p false s')
  end.

Definition slug (text : string) : string :=
  let kept := sfilter (fun c => is_word c || is_space c || Ascii.eqb c "-") text in
  let dashed := squeeze is_space false kept in
  let lowered := lower dashed in
  let single := squeeze (fun c => Ascii.eqb c "-") false lowered in
  rstrip_by (fun c => Ascii.eqb c "-") (lstrip_by (fun c => Ascii.eqb c "-") single).

Definition fillna_text (v : value) : string :=
  if isna v then "" else py_str v.

(** [_generate_handles(df, column_mapping)], row by row *)
Definition with_handle (column_mapping : gmap string string) (row : Series) : Series :=
  let title := get_column_value row column_mapping "Title" (VStr "Unknown") in
  let product_code :=
    py_or (get_column_value row column_mapping "Variant SKU" (VStr ""))
          (get_column_value row column_mapping "product code" (VStr "")) in
  <["Handle" := VStr (slug (strip (py_str title) ++ "-" ++ strip (fillna_text product_code)))]> row.

(** [process_data(df_raw, column_mapping, config)] *)
Definition process_data (df_raw : DataFrame) (column_mapping : gmap string string)
           (config : Config) : result (list Series) :=
  df_variants ← _process_variants df_raw column_mapping config;
  Ok (List.map (with_handle column_mapping) df_variants).

(** The [_variant_key] column of [_apply_variant_mappings]. *)
Definition variant_key (column_mapping : gmap string string) (row : Series) : string :=
  let title := get_column_value row column_mapping "Title" (VStr "Unknown") in
  strip (py_str (default (VFloat NaN) (row !! "sizes_list"))) ++ "|"
  ++ strip (py_str (default (VFloat NaN) (row !! "colours_list"))) ++ "|"
  ++ strip (py_str title).

(** [None if pd.isna(x) or x == '' else float(x) if x != 0 else None] *)
Definition keep_price (x : value) : result value :=
  if isna x || eq_str x "" then Ok VNone
  else if negb (eq_zero x) then f ← float_of_value x; Ok (VFloat f)
  else Ok VNone.

(** The compare-price half of [_apply_variant_mappings], for one row. *)
Definition mapped_compare_price (session : Session) (column_mapping : gmap string string)
           (config : Config) (row : Series) : result value :=
  let chosen :=
    if default false (bulk_compare_price_mode config) then
      VFloat (default (Finite 0) (bulk_compare_price config))
    else match variant_compare_prices session with
         | Some stored => default VNone (stored !! variant_key column_mapping row)
         | None => default VNone (row !! "uploaded_compare_price")
         end in
  keep_price chosen.

(** [_apply_variant_mappings(df, column_mapping, config)]: the column
    ["Variant Compare At Price"] it writes. *)
Definition _apply_variant_mappings (session : Session) (df : list Series)
           (column_mapping : gmap string string) (config : Config) : result (list Series) :=
  map_result
    (fun row =>
       price ← mapped_compare_price session column_mapping config row;
       Ok (<["Variant Compare At Price" := price]>
             (<["_variant_key" := VStr (variant_key column_mapping row)]> row)))
    df.

(** The compare-price lines shared by [_create_main_product_row] and
    [_create_variant_row]. *)
Definition shaped_compare_price (row : Series) : result value :=
  let compare_price := default VNone (row !! "Variant Compare At Price") in
  if isna compare_price || eq_str compare_price "" || eq_zero compare_price
  then Ok (VStr "")
  else clean_value compare_price true (VInt 0).

(** [_create_main_product_row(row, column_mapping, config)]: the columns
    that identify the variant, and its compare price.  The remaining
    columns are constants or cleaned copies of other cells. *)
Definition _create_main_product_row (row : Series) : result Series :=
  compare_price ← shaped_compare_price row;
  Ok (<["Variant Compare At Price" := compare_price]>
        (<["Option2 Value" := VStr (clean_text (default (VStr "") (row !! "colours_list")))]>
           (<["Option1 Value" := VStr (clean_text (default (VStr "") (row !! "display_size")))]>
              ({[ "Handle" := VStr (clean_text (default (VStr "") (row !! "Handle"))) ]})))).

(** [_create_variant_row(row, column_mapping, handle, config)] *)
Definition _create_variant_row (row : Series) (handle : string) : result Series :=
  compare_price ← shaped_compare_price row;
  Ok (<["Variant Compare At Price" := compare_price]>
        (<["Option2 Value" := VStr (clean_text (default (VStr "") (row !! "colours_list")))]>
           (<["Option1 Value" := VStr (clean_text (default (VStr "") (row !! "display_size")))]>
              ({[ "Handle" := VStr (clean_text (VStr handle)) ]})))).

(** [group['sizes_list'].unique()] *)
Definition sizes_in (group : list Series) : list string :=
  unique_from ∅ (List.map (fun row => text_at row "sizes_list") group).

Fixpoint index_of (x : string) (l : list string) (i : Z) : option Z :=
  match l with
  | [] => None
  | y :: l' => if String.eqb x y then Some i else index_of x l' (i + 1)
  end.

(** Order on the pairs [(size_idx, color)] that [sort_key] returns. *)
Definition key_leb (a b : Z * string) : bool :=
  (fst a <? fst b) || ((fst a =? fst b) && String.leb (snd a) (snd b)).

(** [_sort_variants_in_group(group)] *)
Definition _sort_variants_in_group (group : list Series) : result (list Series) :=
  let sizes_in_group := sizes_in group in
  sorted ← match sizes_in_group with
           | [] => Ok ([], ∅)
           | _ => sort_sizes_with_quantities (join "," sizes_in_group)
           end;
  let sorted_sizes_for_group := fst sorted in
  let sort_key (row : Series) : Z * string :=
    (default 999 (index_of (text_at row "sizes_list") sorted_sizes_for_group 0),
     text_at row "colours_list") in
  Ok (sort_by sort_key key_leb group).

(** [df.groupby("Handle")]: the groups in ascending order of their key,
    each with its rows in their original order. *)
Definition groupby_handle (df : list Series) : list (string * list Series) :=
  let keys := sort_by id String.leb
                (unique_from ∅ (List.map (fun row => text_at row "Handle") df)) in
  List.map
    (fun handle =>
       (handle, List.filter (fun row => String.eqb (text_at row "Handle") handle) df))
    keys.

(** The rows in the order the nested loops of [generate_shopify_csv] visit
    them, each with the handle of its group and whether it is the first
    row of the group. *)
Definition emission_order (df : list Series) : result (list (Series * string * bool)) :=
  groups ←
    map_result
      (fun g =>
         sorted_group ← _sort_variants_in_group (snd g);
         Ok (imap (fun idx row => (row, fst g, bool_decide (idx = O))) sorted_group))
      (groupby_handle df);
  Ok (concat groups).

Definition shape (entry : Series * string * bool) : result Series :=
  let '(row, handle, is_first) := entry in
  if is_first then _create_main_product_row row
  else _create_variant_row row handle.

Definition is_text (v : value) : bool :=
  match v with VStr _ => true | _ => false end.

Definition is_float (v : value) : bool :=
  match v with VFloat _ => true | _ => false end.

(** The clean-up loop at the end of [generate_shopify_csv], on the column
    ["Variant Compare At Price"].  A column holding a string has dtype
    [object]; a column of numbers only is numeric, and is a float column
    as soon as one of them is a float. *)
Definition clean_compare_column (cells : list value) : list value :=
  if existsb is_text cells then
    List.map
      (fun x =>
         let text := if isna x then "" else py_str x in
         VStr (if bool_decide (text ∈ ["nan"; "NaN"; "None"]) then "" else text))
      cells
  else
    let widened :=
      if existsb is_float cells
      then List.map (fun x => match x with
                              | VInt z => VFloat (Finite (inject_Z z))
                              | _ => x
                              end) cells
      else cells in
    List.map (fun x => if isna x || eq_zero x then VStr "" else x) widened.

(** [shopify_df["Variant Compare At Price"]] before the clean-up *)
Definition compare_cells (rows : list Series) : list value :=
  List.map (fun row : Series => default (VStr "") (row !! "Variant Compare At Price")) rows.

(** [generate_shopify_csv(df, column_mapping, config)] *)
Definition generate_shopify_csv (session : Session) (df : list Series)
           (column_mapping : gmap string string) (config : Config)
  : result (list Series) :=
  let current_config := default config (session_config session) in
  df ← _apply_variant_mappings session df column_mapping current_config;
  order ← emission_order df;
  grouped_data ← map_result shape order;
  let compare_column := clean_compare_column (compare_cells grouped_data) in
  Ok (zip_with (fun row cell => <["Variant Compare At Price" := cell]> row)
               grouped_data compare_column).

(** The text [to_csv] writes for a cell. *)
Definition csv_field (row : Series) (column : string) : string :=
  match row !! column with
  | Some v => if isna v then "" else py_str v
  | None => ""
  end.
End WithRuntime.

End DataProcessor.

(* ===================================================================== *)
(** * helpers/description_generator.py and core/workflow_manager.py       *)
(* ===================================================================== *)

Module Description.

(** One entry of [description_elements]; an absent key is [None]. *)
Record Element := {
  column : option string;
  label : option string;
  html_tag : option string;
  order : option Z
}.

(** [sorted([elem for elem in description_elements if elem.get('column')],
            key=lambda x: x.get('order', 0))] *)
Definition sorted_elements (description_elements : list Element) : list Element :=
  sort_by (fun x => default 0 (order x)) Z.leb
          (List.filter (fun elem => negb (String.eqb (default "" (column elem)) ""))
                       description_elements).

(** The rendering of one element once its value is known and non-blank,
    in [WorkflowManager._generate_description_html]. *)
Definition html_fragment (label html_tag value : string) : string :=
  if negb (String.eqb label "") && negb (String.eqb (strip label) "") then
    if String.eqb html_tag "none" then label ++ ": " ++ value
    else if String.eqb html_tag "br" then label ++ ": " ++ value ++ "<br>"
    else if String.eqb html_tag "li" then "<li>" ++ label ++ ": " ++ value ++ "</li>"
    else if String.eqb html_tag "p" then "<p>" ++ label ++ ": " ++ value ++ "</p>"
    else "<p><" ++ html_tag ++ ">" ++ label ++ " : </" ++ html_tag ++ "> " ++ value ++ "</p>"
  else
    if String.eqb html_tag "none" then value
    else if String.eqb html_tag "br" then value ++ "<br>"
    else if String.eqb html_tag "li" then "<li>" ++ value ++ "</li>"
    else if String.eqb html_tag "p" then "<p>" ++ value ++ "</p>"
    else "<p><" ++ html_tag ++ ">" ++ value ++ "</" ++ html_tag ++ "></p>".

(** The same step in [DescriptionGenerator._generate_dynamic_description]. *)
Definition dynamic_fragment (label html_tag value : string) : string :=
  if negb (String.eqb label "") && negb (String.eqb (strip label) "") then
    if String.eqb html_tag "none" then label ++ ": " ++ value
    else if String.eqb html_tag "br" then label ++ ": " ++ value ++ "<br>"
    else if String.eqb html_tag "li" then "<li>" ++ label ++ ": " ++ value ++ "</li>"
    else "<p><" ++ html_tag ++ ">" ++ label ++ " : </" ++ html_tag ++ "> " ++ value ++ "</p>"
  else
    if String.eqb html_tag "none" then value
    else if String.eqb html_tag "br" then value ++ "<br>"
    else if String.eqb html_tag "li" then "<li>" ++ value ++ "</li>"
    else "<p><" ++ html_tag ++ ">" ++ value ++ "</" ++ html_tag ++ "></p>".

Definition integer_fields : list string :=
  ["no of components"; "components"; "number_of_components";
   "component_count"; "quantity"; "qty"; "count"; "pieces";
   "set"; "items"; "number"; "no"].

Section WithRuntime.
Context `{Runtime}.

(** [WorkflowManager._clean_value(value)] *)
Definition _clean_value (v : value) : string :=
  if isna v || str_is_blank v then "" else strip (py_str v).

(** [DescriptionGenerator._clean_value_no_decimals(value, column_name)] *)
Definition _clean_value_no_decimals (v : value) (column_name : string) : result string :=
  if isna v || str_is_blank v then Ok ""
  else
    let column_lower := lower column_name in
    let should_be_integer :=
      existsb (fun field => contains field column_lower) integer_fields in
    try_except
      (num_value ← float_of_text v;
       if should_be_integer then i ← py_int num_value; Ok (int_repr i)
       else
         i ← py_int num_value;
         if float_eqb num_value (Finite (inject_Z i)) then Ok (int_repr i)
         else Ok (strip (py_str v)))
      is_ValueError_or_TypeError
      (Ok (strip (py_str v))).

(** [WorkflowManager._generate_description_html(elements, row)] *)
Definition _generate_description_html (elements : list Element) (row : Series) : string :=
  join " "
    (omap
       (fun element =>
          let column := default "" (column element) in
          let label := default "" (label element) in
          let html_tag := default "p" (html_tag element) in
          if negb (String.eqb column "") then
            match row !! column with
            | Some cell =>
                let value := _clean_value cell in
                if negb (String.eqb value "")
                then Some (html_fragment label html_tag value)
                else None
            | None => None
            end
          else None)
       elements).

(** One iteration of the loop of [_generate_dynamic_description]: the
    fragment appended to [html_parts], if any. *)
Definition dynamic_part (row : Series) (element : Element) : result (list string) :=
  let column := default "" (column element) in
  let label := default "" (label element) in
  let html_tag := default "p" (html_tag element) in
  if negb (String.eqb column "") then
    match row !! column return result (list string) with
    | Some cell =>
        value ← _clean_value_no_decimals cell column;
        Ok (if negb (String.eqb value "")
            then [dynamic_fragment label html_tag value]
            else [])
    | None => Ok []
    end
  else Ok [].

Definition dynamic_parts (elements : list Element) (row : Series) : result (list string) :=
  parts ← map_result (dynamic_part row) elements;
  Ok (concat parts).

(** [DescriptionGenerator._generate_dynamic_description(description_elements, row)]:
    any exception yields the empty description. *)
Definition _generate_dynamic_description (description_elements : list Element)
           (row : Series) : string :=
  match dynamic_parts (sorted_elements description_elements) row with
  | Ok html_parts => join " " html_parts
  | Raise _ => ""
  end.

(** The ["enhanced_description"] cell a row ends with in
    [execute_csv_generation]: [_generate_description_html] writes it when
    it is missing, then [apply_enhanced_descriptions] overwrites it
    whenever the session holds description elements. *)
Definition final_enhanced_description (description_elements : list Element)
           (row : Series) : option string :=
  match description_elements with
  | [] => None
  | _ => Some (_generate_dynamic_description description_elements row)
  end.
End WithRuntime.

End Description.

(* ===================================================================== *)
(** * Vocabulary of the properties                                        *)
(* ===================================================================== *)

Module Props.
Import DataProcessor.

(** The fields the content pass can assign. *)
Definition content_fields : list string :=
  ["variant price"; "published"; "size"; "colour"; "product code"].

(** The three groups [sort_sizes_with_quantities] sorts apart, each size
    with its sort key. *)
Definition standard_part (l : list string) : list (nat * string) :=
  omap (fun s => match Utils.classify s with Utils.Standard i => Some (i, s) | _ => None end) l.

Definition numeric_part (l : list string) : list (Z * string) :=
  omap (fun s => match Utils.classify s with Utils.Numeric n => Some (n, s) | _ => None end) l.

Definition custom_part (l : list string) : list string :=
  omap (fun s => match Utils.classify s with Utils.Custom => Some s | _ => None end) l.

(** The order [sort_sizes_with_quantities] puts sizes in: standard sizes
    by their place in the standard order, then numeric sizes by number,
    then the others alphabetically. *)
Definition size_leb (a b : string) : bool :=
  match Utils.classify a, Utils.classify b with
  | Utils.Standard i, Utils.Standard j => (i <=? j)%nat
  | Utils.Standard _, _ => true
  | Utils.Numeric _, Utils.Standard _ => false
  | Utils.Numeric n, Utils.Numeric m => n <=? m
  | Utils.Numeric _, Utils.Custom => true
  | Utils.Custom, Utils.Custom => String.leb a b
  | Utils.Custom, _ => false
  end.

(** The text after the hyphen of a size token with one hyphen. *)
Definition quantity_text (token : string) : string :=
  strip (nth 1 (split "-" (strip token)) "").

(** A rational that is a whole number. *)
Definition whole (q : Q) : Prop := exists i : Z, (q == inject_Z i)%Q.

(** A character of a blank size or colour list. *)
Definition blank_or_comma (c : ascii) : bool := is_space c || Ascii.eqb c ",".

(** A character a product handle may hold: a word character that is not
    an upper-case letter, or a hyphen. *)
Definition handle_char (c : ascii) : bool :=
  (is_word c && negb (is_upper c)) || Ascii.eqb c "-".





(** The state of the longest-match table after [i] rows when both
    sequences are [a]: no entry exceeds [i] or lies beyond the diagonal,
    and the diagonal entry of the last row is [i]. *)
Definition diag_row (a : list ascii) (i : nat) (row : list nat) : Prop :=
  length row = length a
  /\ (forall t k, row !! t = Some k -> (k <= i /\ k <= S t)%nat)
  /\ (forall i', i = S i' -> row !! i' = Some i).

(** The running best of the fuzzy search is either untouched, [(None, 0)],
    or holds a field with a score of at least [lo]; the score never
    exceeds 1. *)
Definition best_shape (lo : Q) (best : option string * Q) : Prop :=
  match fst best with
  | None => (snd best == 0)%Q
  | Some _ => (lo <= snd best)%Q
  end /\ (snd best <= 1)%Q.

(** Entry [t] of a row of the longest-match table is at most [ci] and at
    most [j0 + t]. *)
Definition row_bounded (ci j0 : nat) (row : list nat) : Prop :=
  forall t k, row !! t = Some k -> (k <= ci /\ k <= j0 + t)%nat.

(** The block [(i, j, k)] lies inside [a] (first [n] elements) and [b]. *)
Definition block_inside (n m : nat) (best : nat * nat * nat) : Prop :=
  let '(i, j, k) := best in (i + k <= n /\ j + k <= m)%nat.

(** What the search for the best fuzzy match holds at any moment. *)
Definition best_ok (existing : gmap string string) (best : option string * Q) : Prop :=
  match fst best with
  | None => True
  | Some f => f ∈ ColumnMapper.standard_fields /\ existing !! f = None
              /\ (0.7 < snd best)%Q /\ (snd best <= 1)%Q
  end.

(** What a pass over the unmapped columns holds at any moment: the
    fields it assigns are allowed ones, to columns it was given, each with
    a score, and the scores are in range. *)
Definition pass_ok (field_ok : string -> Prop) (score_ok : Q -> Prop)
           (given : list string) (acc : gmap string string * gmap string Q) : Prop :=
  (forall f c, fst acc !! f = Some c -> field_ok f /\ c ∈ given /\ is_Some (snd acc !! c))
  /\ (forall c q, snd acc !! c = Some q -> c ∈ given /\ score_ok q).

(** A cell holding a number other than zero. *)
Definition number_cell (v : value) : Prop :=
  (exists i, v = VInt i /\ i <> 0) \/ (exists q, v = VFloat (Finite q) /\ ~ (q == 0)%Q).


(** [if not sorted_sizes: sorted_sizes = [""]], and the same for colours. *)
Definition or_blank (l : list string) : list string :=
  match l with
  | [] => [""]
  | _ => l
  end.

(** The size and colour an exploded row carries. *)
Definition variant_of (e : Series) : string * string :=
  (text_at e "sizes_list", text_at e "colours_list").

(** [sort_key(row)] of [_sort_variants_in_group], for the size order
    [order]. *)
Definition sort_key (order : list string) (row : Series) : Z * string :=
  (default 999 (index_of (text_at row "sizes_list") order 0),
   text_at row "colours_list").

(** The quantities a configuration can hand out. *)
Definition configured_quantities (config : Config) : list Z :=
  [default 10 (bulk_qty config); default 10 (default_qty config);
   default (default 10 (default_qty config)) (fallback_qty config)].

(** A float that is not negative (and not NaN). *)
Definition nonneg_float (f : pyfloat) : Prop :=
  f = PosInf \/ exists q, f = Finite q /\ (0 <= q)%Q.

(** A blank cell: missing ([None], NaN), empty, or whitespace only. *)
Definition blank_cell (v : value) : Prop :=
  isna v = true \/ exists s, v = VStr s /\ strip s = "".

(** A value [keep_price] turns into [None]. *)
Definition no_price (v : value) : Prop :=
  isna v || eq_str v "" || eq_zero v = true.

(** The session holds no price for the variant key: there is no store, or
    no entry, or an entry without a price. *)
Definition stored_price_blank (session : Session) (key : string) : Prop :=
  match variant_compare_prices session with
  | None => True
  | Some stored =>
      match stored !! key with
      | None => True
      | Some v => no_price v
      end
  end.

Section WithRuntime.
Context `{Runtime}.

(** [out_row] is the catalog row [generate_shopify_csv] emits for the
    row [src] of its input table. *)
Definition emitted_for (session : Session) (df : list Series)
           (column_mapping : gmap string string) (config : Config)
           (src out_row : Series) : Prop :=
  exists mapped order out (i j : nat) m handle first,
    _apply_variant_mappings session df column_mapping
      (default config (session_config session)) = Ok mapped
    /\ emission_order mapped = Ok order
    /\ generate_shopify_csv session df column_mapping config = Ok out
    /\ df !! j = Some src
    /\ mapped !! j = Some m
    /\ order !! i = Some (m, handle, first)
    /\ out !! i = Some out_row.
End WithRuntime.

(** A runtime for closed examples: a finite float is printed as the
    fraction it denotes. *)
Definition fraction_repr (q : Q) : string :=
  int_repr (Qnum q) ++ "/" ++ int_repr (Z.pos (Qden q)).

(** Sample data. *)
Definition no_config : Config :=
  {| default_qty := None; fallback_qty := None; bulk_qty_mode := None;
     bulk_qty := None; use_expected_qty := None;
     default_compare_price := None; bulk_compare_price_mode := None;
     bulk_compare_price := None; use_expected_compare_price := None |}.

Definition sample_mapping : gmap string string :=
  {[ "Title" := "name"; "Option1 Value" := "sizes"; "Option2 Value" := "colors";
     "Variant Compare At Price" := "mrp"; "Variant SKU" := "sku" ]}.

Definition sample_row (sizes : string) (mrp : value) : Series :=
  {[ "name" := VStr "Cool Shirt!"; "sizes" := VStr sizes; "colors" := VStr "Red";
     "mrp" := mrp; "sku" := VStr "AB 12" ]}.

Definition sample_table (sizes : string) (mrp : value) : DataFrame :=
  {| columns := ["name"; "sizes"; "colors"; "mrp"; "sku"];
     records := [sample_row sizes mrp] |}.

Definition fresh_session : Session :=
  {| session_config := None; variant_quantities := None; variant_compare_prices := None |}.

(** A session whose store holds a price for the one variant of the sample. *)
Definition priced_session : Session :=
  {| session_config := None; variant_quantities := None;
     variant_compare_prices := Some {[ "M|Red|Cool Shirt!" := VFloat (Finite 50) ]} |}.

(** An empty table with the single column "Product-Title". *)
Definition product_title_table : DataFrame :=
  {| columns := ["Product-Title"]; records := [] |}.

(** A table with a column "Price", which is an accepted spelling of
    "Variant Price", and a column "amount", which is no accepted spelling
    but holds prices. *)
Definition price_amount_table : DataFrame :=
  {| columns := ["Price"; "amount"];
     records := [ {[ "Price" := VInt 100; "amount" := VInt 250 ]} ] |}.

(** A description element for the column "fabric", and a row for it. *)
Definition fabric_element (tag : string) : Description.Element :=
  {| Description.column := Some "fabric"; Description.label := Some "Fabric";
     Description.html_tag := Some tag; Description.order := None |}.

Definition fabric_row : Series := {[ "fabric" := VStr "Cotton" ]}.

Section Samples.
Context `{Runtime}.

(** The one exploded row of [sample_table "M-5" mrp], the row override
    application makes of it, and a catalog row with a given compare
    price. *)
Definition sample_exploded (mrp price : value) : Series :=
  exploded_row (sample_row "M-5" mrp) "M" "Red" {[ "M" := 5 ]} price no_config.

Definition sample_mapped (mrp price chosen : value) : Series :=
  <["Variant Compare At Price" := chosen]>
    (<["_variant_key" := VStr "M|Red|Cool Shirt!"]>
       (with_handle sample_mapping (sample_exploded mrp price))).

Definition sample_output (compare_price : value) : Series :=
  {[ "Handle" := VStr "cool-shirt-ab-12"; "Option1 Value" := VStr "M";
     "Option2 Value" := VStr "Red"; "Variant Compare At Price" := compare_price ]}.
End Samples.

End Props.

(* ===================================================================== *)
(** * Size tokens: [parse_size_and_quantity] *)
(* ===================================================================== *)

Module SizeTokenProofs.
Import Py Pandas Utils.

(* ===================================================================== *)
(** * Facts about the runtime model                                       *)
(* ===================================================================== *)

Section StringFacts.

Lemma string_app_cons (c : ascii) (s t : string) :
  String c s ++ t = String c (s ++ t).
Proof. reflexivity. Qed.

Lemma string_app_nil_r (s : string) : s ++ "" = s.
Proof.
  induction s as [|c s IH]; [reflexivity|].
  now rewrite string_app_cons, IH.
Qed.

Lemma count_app (c : ascii) (a b : string) :
  count c (a ++ b) = (count c a + count c b)%nat.
Proof.
  induction a as [|d a IH]; [reflexivity|].
  rewrite string_app_cons. simpl.
  destruct (Ascii.eqb d c); simpl; now rewrite IH.
Qed.

Lemma split_no_sep (sep : ascii) (s : string) :
  count sep s = O -> split sep s = [s].
Proof.
  induction s as [|c s IH]; simpl; [reflexivity|].
  destruct (Ascii.eqb c sep); [discriminate|].
  intros E. now rewrite (IH E).
Qed.

Lemma split_app_sep (sep : ascii) (l r : string) :
  count sep l = O -> split sep (l ++ String sep r) = l :: split sep r.
Proof.
  induction l as [|c l IH].
  - intros _. change ("" ++ String sep r) with (String sep r).
    simpl. now rewrite Ascii.eqb_refl.
  - rewrite string_app_cons. simpl. destruct (Ascii.eqb c sep); [discriminate|].
    intros E. now rewrite (IH E).
Qed.

Lemma contains_char (c : ascii) (s : string) :
  contains (String c "") s = negb (count c s =? 0)%nat.
Proof.
  induction s as [|d s IH]; simpl; [reflexivity|].
  rewrite IH, (Ascii.eqb_sym c d).
  destruct (Ascii.eqb d c); simpl; [reflexivity|].
  now destruct s.
Qed.

Lemma count_smap (f : ascii -> ascii) (c : ascii) (s : string) :
  (forall d, Ascii.eqb (f d) c = Ascii.eqb d c) ->
  count c (smap f s) = count c s.
Proof.
  intros Hf. induction s as [|d s IH]; simpl; [reflexivity|].
  now rewrite Hf, IH.
Qed.

Lemma to_lower_hyphen (d : ascii) : Ascii.eqb (to_lower d) "-" = Ascii.eqb d "-".
Proof. destruct d as [[] [] [] [] [] [] [] []]; reflexivity. Qed.

Lemma count_hyphen_lower (s : string) : count "-" (lower s) = count "-" s.
Proof. apply count_smap, to_lower_hyphen. Qed.

Lemma lstrip_by_twice sp (s : string) : lstrip_by sp (lstrip_by sp s) = lstrip_by sp s.
Proof.
  induction s as [|c s IH]; simpl; [reflexivity|].
  destruct (sp c) eqn:E; [exact IH|]. simpl. now rewrite E.
Qed.

(** What [rstrip_by] returns either is empty or ends with a character
    that is kept. *)
Lemma rstrip_by_twice sp (s : string) : rstrip_by sp (rstrip_by sp s) = rstrip_by sp s.
Proof.
  induction s as [|c s IH]; simpl; [reflexivity|].
  destruct (rstrip_by sp s) as [|d r] eqn:E.
  - destruct (sp c) eqn:Ec; simpl; [reflexivity|]. now rewrite Ec.
  - simpl in *. now rewrite IH.
Qed.

Lemma rstrip_by_head sp (s : string) c r :
  rstrip_by sp s = String c r -> exists s', s = String c s'.
Proof.
  destruct s as [|d s]; simpl; [discriminate|].
  destruct (rstrip_by sp s); [destruct (sp d)|]; intros E; inversion E; eauto.
Qed.

Lemma lstrip_by_head sp (s : string) c r :
  lstrip_by sp s = String c r -> sp c = false.
Proof.
  induction s as [|d s IH]; simpl; [discriminate|].
  destruct (sp d) eqn:E; [exact IH|]. intros E'. inversion E'. now subst.
Qed.

Lemma lstrip_by_id sp (s : string) c r :
  s = String c r -> sp c = false -> lstrip_by sp s = s.
Proof. intros -> E. simpl. now rewrite E. Qed.

Lemma strip_by_twice sp (s : string) :
  let strip1 x := rstrip_by sp (lstrip_by sp x) in
  strip1 (strip1 s) = strip1 s.
Proof.
  simpl. destruct (rstrip_by sp (lstrip_by sp s)) as [|c r] eqn:E; [reflexivity|].
  destruct (rstrip_by_head _ _ _ _ E) as [s' Hs'].
  rewrite (lstrip_by_id sp (String c r) c r eq_refl (lstrip_by_head _ _ _ _ Hs')).
  rewrite <- E. apply rstrip_by_twice.
Qed.

Lemma strip_twice (s : string) : strip (strip s) = strip s.
Proof. apply (strip_by_twice is_space). Qed.

Lemma count_lstrip_by sp (c : ascii) (s : string) :
  sp c = false -> count c (lstrip_by sp s) = count c s.
Proof.
  intros Hc. induction s as [|d s IH]; simpl; [reflexivity|].
  destruct (sp d) eqn:E; [|reflexivity].
  rewrite IH. destruct (Ascii.eqb_spec d c); [congruence | reflexivity].
Qed.

Lemma count_rstrip_by sp (c : ascii) (s : string) :
  sp c = false -> count c (rstrip_by sp s) = count c s.
Proof.
  intros Hc. induction s as [|d s IH]; simpl; [reflexivity|].
  destruct (rstrip_by sp s) as [|e r] eqn:E.
  - simpl in IH. rewrite <- IH.
    destruct (sp d) eqn:Ed; simpl.
    + destruct (Ascii.eqb_spec d c); [congruence | reflexivity].
    + now destruct (Ascii.eqb d c).
  - simpl in *. now rewrite IH.
Qed.

Lemma count_strip (c : ascii) (s : string) :
  is_space c = false -> count c (strip s) = count c s.
Proof.
  intros Hc. unfold strip. now rewrite count_rstrip_by, count_lstrip_by.
Qed.

End StringFacts.


Section FloatFacts.

Lemma drop_underscores_count (c : ascii) (prev : ascii) (s t : string) :
  Ascii.eqb c "_" = false ->
  drop_underscores prev s = Some t -> count c t = count c s.
Proof.
  intros Hc. revert prev t.
  induction s as [|d s IH]; intros prev t; simpl.
  - destruct (Ascii.eqb prev "_"); intros E; inversion E; reflexivity.
  - destruct (Ascii.eqb_spec d "_") as [->|Hd].
    + rewrite (Ascii.eqb_sym "_" c), Hc.
      destruct (is_digit prev); [apply IH | discriminate].
    + destruct (Ascii.eqb prev "_" && negb (is_digit d)); [discriminate|].
      destruct (drop_underscores d s) as [t'|] eqn:E; [|discriminate].
      simpl. intros E'. inversion E'; subst. simpl.
      now rewrite (IH _ _ E).
Qed.

Lemma take_sign_positive (t : string) :
  count "-" t = O -> take_sign t = (false, snd (take_sign t)).
Proof.
  destruct t as [|c t]; [reflexivity|].
  destruct c as [[] [] [] [] [] [] [] []]; try reflexivity.
  simpl. discriminate.
Qed.

Lemma span_digits_digits (s : string) : sforall is_digit (fst (span_digits s)) = true.
Proof.
  induction s as [|c s IH]; simpl; [reflexivity|].
  destruct (is_digit c) eqn:E; [|reflexivity].
  destruct (span_digits s). simpl in *. now rewrite E, IH.
Qed.

Lemma sforall_app p (a b : string) :
  sforall p (a ++ b) = sforall p a && sforall p b.
Proof.
  induction a as [|c a IH]; [reflexivity|].
  rewrite string_app_cons. simpl. now rewrite IH, andb_assoc.
Qed.

Lemma digit_val_nonneg (c : ascii) : is_digit c = true -> 0 <= digit_val c.
Proof.
  unfold is_digit, digit_val. intros E.
  apply andb_prop in E as [E _]. apply Nat.leb_le in E. lia.
Qed.

Lemma digits_value_nonneg (s : string) (acc : Z) :
  sforall is_digit s = true -> 0 <= acc -> 0 <= digits_value acc s.
Proof.
  revert acc. induction s as [|c s IH]; intros acc; simpl; [easy|].
  intros E Hacc. apply andb_prop in E as [Ec Es].
  apply IH; [exact Es|]. pose proof (digit_val_nonneg c Ec). lia.
Qed.

Lemma parse_decimal_nonneg (s : string) (m ex : Z) :
  parse_decimal s = Some (m, ex) -> 0 <= m.
Proof.
  unfold parse_decimal.
  pose proof (span_digits_digits s) as Hip.
  destruct (span_digits s) as [ip r1]. simpl in Hip.
  assert (Hfp : forall fp r2,
             match r1 with
             | String "." r => span_digits r
             | _ => (EmptyString, r1)
             end = (fp, r2) -> sforall is_digit fp = true).
  { intros fp r2 E. destruct r1 as [|c r]; [inversion E; reflexivity|].
    destruct (Ascii.eqb_spec c ".") as [->|Hc].
    - pose proof (span_digits_digits r) as Hr. rewrite E in Hr. exact Hr.
    - assert (E' : (EmptyString, String c r) = (fp, r2)).
      { rewrite <- E. destruct c as [[] [] [] [] [] [] [] []]; try reflexivity.
        now contradiction Hc. }
      inversion E'. reflexivity. }
  destruct (match r1 with String "." r => span_digits r | _ => (EmptyString, r1) end)
    as [fp r2] eqn:E.
  specialize (Hfp fp r2 eq_refl).
  destruct (String.length ip + String.length fp =? 0)%nat; [discriminate|].
  match goal with |- (let '(ex, r3) := ?X in _) = _ -> _ => destruct X as [ex' r3] end.
  destruct r3; [|discriminate].
  intros E'. inversion E'; subst.
  apply digits_value_nonneg; [|lia].
  now rewrite sforall_app, Hip, Hfp.
Qed.

Lemma round_half_even_nonneg (n d : Z) :
  0 <= n -> 0 < d -> 0 <= round_half_even n d.
Proof.
  intros Hn Hd. unfold round_half_even.
  pose proof (Z.div_pos n d Hn Hd).
  destruct (2 * (n mod d) ?= d); [destruct (Z.even (n / d))| |]; lia.
Qed.

Lemma scale2_sign (n d e : Z) :
  0 <= n -> 0 < d -> 0 <= fst (scale2 n d e) /\ 0 < snd (scale2 n d e).
Proof.
  intros Hn Hd. unfold scale2.
  destruct (0 <=? e) eqn:E; simpl.
  - apply Z.leb_le in E. split; [lia|]. apply Z.mul_pos_pos; [lia|].
    apply Z.pow_pos_nonneg; lia.
  - apply Z.leb_gt in E. split; [|lia]. apply Z.mul_nonneg_nonneg; [lia|].
    apply Z.pow_nonneg; lia.
Qed.

Lemma dyadic_nonneg (m e : Z) : 0 <= m -> (0 <= dyadic m e)%Q.
Proof.
  intros Hm. unfold dyadic. destruct (0 <=? e) eqn:E.
  - apply Z.leb_le in E. unfold Qle. simpl.
    assert (0 <= m * 2 ^ e) by (apply Z.mul_nonneg_nonneg; [lia | apply Z.pow_nonneg; lia]).
    lia.
  - change 0%Q with (Qred 0). apply Qred_le. unfold Qle. simpl. lia.
Qed.

Lemma binary64_round_nonneg (n d : Z) (q : Q) :
  0 <= n -> 0 < d -> binary64_round n d = Some q -> (0 <= q)%Q.
Proof.
  intros Hn Hd. unfold binary64_round.
  destruct (n =? 0); [intros E; inversion E; apply Qle_refl|].
  destruct (scale2 n d (Z.log2 n - Z.log2 d)) as [n0 d0].
  set (e := Z.max _ _).
  pose proof (scale2_sign n d e Hn Hd) as [H1 H2].
  destruct (scale2 n d e) as [n1 d1]. simpl in H1, H2.
  destruct (_ || _); [discriminate|].
  intros E. inversion E. apply dyadic_nonneg.
  now apply round_half_even_nonneg.
Qed.

Lemma float_of_decimal_nonneg (m ex : Z) (x : Q) :
  0 <= m -> float_of_decimal false m ex = Finite x -> (0 <= x)%Q.
Proof.
  intros Hm. unfold float_of_decimal.
  destruct (0 <=? ex) eqn:E.
  - apply Z.leb_le in E.
    destruct (binary64_round (m * 10 ^ ex) 1) as [q|] eqn:Eq; [|discriminate].
    intros E'. inversion E'; subst.
    apply (binary64_round_nonneg _ _ _) in Eq; [exact Eq | | lia].
    apply Z.mul_nonneg_nonneg; [exact Hm | apply Z.pow_nonneg; lia].
  - apply Z.leb_gt in E.
    destruct (binary64_round m (10 ^ (- ex))) as [q|] eqn:Eq; [|discriminate].
    intros E'. inversion E'; subst.
    apply (binary64_round_nonneg _ _ _) in Eq; [exact Eq | exact Hm |].
    apply Z.pow_pos_nonneg; lia.
Qed.

(** Text without a minus sign never reads as a negative number. *)
Lemma py_float_nonneg (s : string) (x : Q) :
  count "-" s = O -> py_float s = Ok (Finite x) -> (0 <= x)%Q.
Proof.
  intros Hs. unfold py_float.
  destruct (drop_underscores zero _) as [t|] eqn:Et; [|discriminate].
  assert (Ht : count "-" t = O).
  { rewrite (drop_underscores_count "-" _ _ _ eq_refl Et).
    now rewrite count_rstrip_by, count_lstrip_by. }
  rewrite (take_sign_positive t Ht).
  set (body := snd (take_sign t)).
  destruct (_ || _); [discriminate|].
  destruct (String.eqb _ "nan"); [discriminate|].
  destruct (parse_decimal body) as [[m ex]|] eqn:Ep; [|discriminate].
  intros E. inversion E as [E'].
  exact (float_of_decimal_nonneg m ex x (parse_decimal_nonneg _ _ _ Ep) E').
Qed.

(** On a non-negative float [int] is the integer part. *)
Lemma py_int_floor (x : Q) :
  (0 <= x)%Q ->
  exists q, py_int (Finite x) = Ok q /\ 0 <= q
            /\ (inject_Z q <= x)%Q /\ (x < inject_Z q + 1)%Q.
Proof.
  intros Hx. exists (Qfloor x). simpl.
  assert (Hn : 0 <= Qnum x) by (unfold Qle in Hx; simpl in Hx; lia).
  assert (E : Qnum x ÷ Z.pos (Qden x) = Qfloor x).
  { destruct x as [n d]. simpl in *. apply Z.quot_div_nonneg; lia. }
  rewrite E. repeat split.
  - destruct x as [n d]. simpl in *. apply Z.div_pos; lia.
  - apply Qfloor_le.
  - change 1%Q with (inject_Z 1). rewrite <- inject_Z_plus. apply Qlt_floor.
Qed.

End FloatFacts.

Section ParseFacts.

Lemma lower_hyphen_not_custom (s : string) :
  count "-" s <> O -> String.eqb (lower s) "custom" = false.
Proof.
  intros H. apply String.eqb_neq. intros E.
  apply H. rewrite <- count_hyphen_lower, E. reflexivity.
Qed.

Lemma parse_opaque (token : string) :
  lower (strip token) <> "custom" ->
  count "-" (strip token) <> 1%nat ->
  parse_size_and_quantity token = Ok (strip token, 0).
Proof.
  intros Hc Hn. unfold parse_size_and_quantity.
  apply String.eqb_neq in Hc. rewrite Hc.
  apply Nat.eqb_neq in Hn. rewrite Hn, andb_false_r. reflexivity.
Qed.

Lemma parse_custom (token : string) :
  lower (strip token) = "custom" ->
  parse_size_and_quantity token = Ok ("Custom", 0).
Proof.
  intros Hc. unfold parse_size_and_quantity.
  apply String.eqb_eq in Hc. now rewrite Hc.
Qed.

(** The shape of the function on a token with exactly one hyphen. *)
Lemma parse_one_hyphen (token l r : string) :
  strip token = l ++ "-" ++ r -> count "-" l = O -> count "-" r = O ->
  parse_size_and_quantity token =
    try_except
      (f ← py_float (strip r); qty_part ← py_int f; Ok (strip l, qty_part))
      is_ValueError (Ok (strip token, 0)).
Proof.
  intros E Hl Hr. unfold parse_size_and_quantity.
  assert (Hcount : count "-" (strip token) = 1%nat).
  { rewrite E, count_app, Hl. change ("-" ++ r) with (String "-" r). simpl. now rewrite Hr. }
  rewrite lower_hyphen_not_custom by (rewrite Hcount; discriminate).
  rewrite contains_char, Hcount. simpl.
  rewrite E. change ("-" ++ r) with (String "-" r).
  rewrite split_app_sep by exact Hl. rewrite split_no_sep by exact Hr.
  reflexivity.
Qed.

End ParseFacts.

(** C6.  The size/quantity parser: the reserved token, whatever its case,
    gives [("Custom", 0)]; a token [l-r] with exactly one hyphen whose
    right-hand part reads as a number [x] gives the trimmed left part and the
    integer part of [x], which is not negative (truncation, not rounding);
    any other token with no hyphen or with two or more gives the whole token
    and 0. *)
Theorem parse_size_and_quantity_contract (token : string) :
  (lower (strip token) = "custom" ->
   parse_size_and_quantity token = Ok ("Custom", 0))
  /\ (forall l r x,
        strip token = l ++ "-" ++ r -> count "-" l = O -> count "-" r = O ->
        py_float (strip r) = Ok (Finite x) ->
        exists q, parse_size_and_quantity token = Ok (strip l, q)
                  /\ 0 <= q /\ (inject_Z q <= x)%Q /\ (x < inject_Z q + 1)%Q)
  /\ (lower (strip token) <> "custom" -> count "-" (strip token) <> 1%nat ->
      parse_size_and_quantity token = Ok (strip token, 0)).
Proof.
  split; [apply parse_custom | split; [|apply parse_opaque]].
  intros l r x E Hl Hr Hx.
  rewrite (parse_one_hyphen token l r E Hl Hr), Hx.
  assert (Hpos : (0 <= x)%Q).
  { apply (py_float_nonneg (strip r)); [|exact Hx].
    now rewrite count_strip. }
  destruct (py_int_floor x Hpos) as (q & Hq & H0 & Hle & Hlt).
  exists q. cbn in Hq |- *. injection Hq as Hq'. rewrite Hq'. auto.
Qed.

Lemma parse_size_and_quantity_contract_witness :
  parse_size_and_quantity "CUSTOM" = Ok ("Custom", 0)
  /\ (exists q, parse_size_and_quantity " M - 5.9 " = Ok ("M", q)
                /\ 0 <= q /\ (inject_Z q <= 5.9 + 0.1)%Q)
  /\ parse_size_and_quantity "A-B-C" = Ok ("A-B-C", 0).
Proof.
  destruct (parse_size_and_quantity_contract "CUSTOM") as (H1 & _ & _).
  destruct (parse_size_and_quantity_contract "A-B-C") as (_ & _ & H3).
  destruct (parse_size_and_quantity_contract " M - 5.9 ") as (_ & H2 & _).
  split; [apply H1; reflexivity | split; [|apply H3; [vm_compute; discriminate | vm_compute; lia]]].
  edestruct (H2 "M " " 5.9") as (q & Hq & H0 & Hle & _);
    [reflexivity | reflexivity | reflexivity | vm_compute; reflexivity |].
  exists q. split; [exact Hq | split; [exact H0|]].
  eapply Qle_trans; [exact Hle|]. vm_compute. discriminate.
Defined.

(** C9 (evaluation at the failing input).  A right-hand part that reads as an
    infinity makes the parser raise [OverflowError], which its handler for
    [ValueError] does not catch. *)
Theorem parse_size_and_quantity_overflow :
  parse_size_and_quantity "M-inf" = Raise OverflowError
  /\ parse_size_and_quantity "M-1e999" = Raise OverflowError.
Proof. split; vm_compute; reflexivity. Qed.

(** Every failure of the conversions that is a [ValueError] is recovered. *)
Lemma parse_size_and_quantity_recovers (token l r : string) :
  strip token = l ++ "-" ++ r -> count "-" l = O -> count "-" r = O ->
  (py_float (strip r) = Raise ValueError
   \/ exists f, py_float (strip r) = Ok f /\ py_int f = Raise ValueError) ->
  parse_size_and_quantity token = Ok (strip token, 0).
Proof.
  intros E Hl Hr H. rewrite (parse_one_hyphen token l r E Hl Hr).
  destruct H as [H | (f & Hf & Hi)].
  - rewrite H. reflexivity.
  - rewrite Hf. cbn. rewrite Hi. reflexivity.
Qed.

End SizeTokenProofs.

(* ===================================================================== *)
(** * Size lists: [sort_sizes_with_quantities] *)
(* ===================================================================== *)

Module SortSizesProofs.
Import Py Pandas Utils Props.
Import SizeTokenProofs.

Section ResultFacts.
Context {A B : Type} (f : A -> result B).

Lemma map_result_Ok (l : list A) (ys : list B) :
  map_result f l = Ok ys <-> Forall2 (fun x y => f x = Ok y) l ys.
Proof.
  revert ys. induction l as [|x l IH]; intros ys; simpl.
  - split; [intros E; inversion E; constructor | intros E; inversion E; reflexivity].
  - split.
    + destruct (f x) as [y|e] eqn:Ex; cbn; [|discriminate].
      destruct (map_result f l) as [ys'|e] eqn:El; cbn; [|discriminate].
      intros E; inversion E; subst. constructor; [exact Ex | now apply IH].
    + intros E; inversion E as [|x' y l' ys' Hx Hl]; subst.
      rewrite Hx. cbn. apply IH in Hl. rewrite Hl. reflexivity.
Qed.

Lemma map_result_elem (l : list A) (ys : list B) (y : B) :
  map_result f l = Ok ys -> y ∈ ys -> exists x, x ∈ l /\ f x = Ok y.
Proof.
  rewrite map_result_Ok. induction 1 as [|x y' l ys Hx Hl IH]; [intros H; inversion H|].
  rewrite elem_of_cons. intros [->|Hy].
  - exists x. split; [left | exact Hx].
  - destruct (IH Hy) as (x' & ? & ?). exists x'. split; [now right | assumption].
Qed.

Lemma map_result_elem_inv (l : list A) (ys : list B) (x : A) :
  map_result f l = Ok ys -> x ∈ l -> exists y, y ∈ ys /\ f x = Ok y.
Proof.
  rewrite map_result_Ok. induction 1 as [|x' y l ys Hx Hl IH]; [intros H; inversion H|].
  rewrite elem_of_cons. intros [->|Hy].
  - exists y. split; [left | exact Hx].
  - destruct (IH Hy) as (y' & ? & ?). exists y'. split; [now right | assumption].
Qed.
End ResultFacts.

Section SortingFacts.
Context {A K : Type} (key : A -> K) (leb : K -> K -> bool).
Hypothesis leb_total : forall a b, leb a b = true \/ leb b a = true.

Let R (x y : A) : Prop := leb (key x) (key y) = true.

Lemma insert_sorted_perm (x : A) (l : list A) :
  Permutation (insert_sorted key leb x l) (x :: l).
Proof.
  induction l as [|y l IH]; simpl; [reflexivity|].
  destruct (leb (key x) (key y)); [reflexivity|].
  rewrite IH. apply perm_swap.
Qed.

Lemma sort_by_perm (l : list A) : Permutation (sort_by key leb l) l.
Proof.
  induction l as [|x l IH]; simpl; [reflexivity|].
  rewrite insert_sorted_perm. now constructor.
Qed.

Lemma insert_sorted_Sorted (x : A) (l : list A) :
  Sorted R l -> Sorted R (insert_sorted key leb x l).
Proof.
  induction 1 as [|y l Hl IH Hy]; simpl.
  - repeat constructor.
  - destruct (leb (key x) (key y)) eqn:E.
    + constructor; [now constructor | constructor; exact E].
    + constructor; [exact IH|].
      assert (Ryx : R y x) by (destruct (leb_total (key x) (key y)); [congruence | assumption]).
      destruct l as [|z l]; simpl; [constructor; exact Ryx|].
      destruct (leb (key x) (key z)); constructor; [exact Ryx|].
      now inversion Hy.
Qed.

Lemma sort_by_Sorted (l : list A) : Sorted R (sort_by key leb l).
Proof.
  induction l as [|x l IH]; simpl; [constructor | now apply insert_sorted_Sorted].
Qed.

(** A list already in order is left as it is. *)
Lemma sort_by_fixed (l : list A) : Sorted R l -> sort_by key leb l = l.
Proof.
  induction 1 as [|x l Hl IH Hx]; simpl; [reflexivity|].
  rewrite IH. destruct Hx as [|y l Hxy]; simpl; [reflexivity|].
  unfold R in Hxy. now rewrite Hxy.
Qed.

Lemma sort_by_twice (l : list A) :
  sort_by key leb (sort_by key leb l) = sort_by key leb l.
Proof. apply sort_by_fixed, sort_by_Sorted. Qed.
End SortingFacts.

Lemma nat_leb_total (a b : nat) : Nat.leb a b = true \/ Nat.leb b a = true.
Proof. destruct (Nat.leb_spec a b); [left; reflexivity | right; apply Nat.leb_le; lia]. Qed.

Lemma Z_leb_total (a b : Z) : Z.leb a b = true \/ Z.leb b a = true.
Proof. destruct (Z.leb_spec a b); [left; reflexivity | right; apply Z.leb_le; lia]. Qed.

Section UniqueFacts.

Lemma unique_from_elem (seen : gset string) (l : list string) (x : string) :
  x ∈ unique_from seen l <-> x ∈ l /\ x ∉ seen.
Proof.
  revert seen. induction l as [|y l IH]; intros seen; simpl.
  - rewrite elem_of_nil. naive_solver.
  - destruct (decide (y ∈ seen)) as [Hy|Hy].
    + rewrite IH, elem_of_cons. naive_solver.
    + rewrite !elem_of_cons, IH. destruct (decide (x = y)) as [->|Hne]; set_solver.
Qed.

Lemma unique_from_NoDup (seen : gset string) (l : list string) :
  NoDup (unique_from seen l).
Proof.
  revert seen. induction l as [|y l IH]; intros seen; simpl; [constructor|].
  destruct (decide (y ∈ seen)); [apply IH|].
  constructor; [|apply IH]. rewrite unique_from_elem. set_solver.
Qed.

Lemma unique_from_id (seen : gset string) (l : list string) :
  NoDup l -> (forall x, x ∈ l -> x ∉ seen) -> unique_from seen l = l.
Proof.
  intros Hl. revert seen. induction Hl as [|y l Hy Hl IH]; intros seen Hseen; simpl; [reflexivity|].
  destruct (decide (y ∈ seen)) as [Hin|_]; [exfalso; apply (Hseen y); [left | exact Hin]|].
  f_equal. apply IH. intros x Hx.
  assert (x <> y) by (intros ->; contradiction).
  specialize (Hseen x). rewrite elem_of_cons in Hseen. set_solver.
Qed.

End UniqueFacts.

Section PartitionFacts.

Lemma partition_sizes_parts (l : list string) :
  partition_sizes l = (standard_part l, numeric_part l, custom_part l).
Proof.
  induction l as [|s l IH]; [reflexivity|].
  simpl. rewrite IH. unfold standard_part, numeric_part, custom_part. simpl.
  destruct (classify s); reflexivity.
Qed.


Lemma parts_perm (l : list string) :
  Permutation (List.map snd (standard_part l) ++ List.map snd (numeric_part l) ++ custom_part l) l.
Proof.
  induction l as [|s l IH]; [reflexivity|].
  unfold standard_part, numeric_part, custom_part in *. simpl.
  destruct (classify s); simpl.
  - now constructor.
  - rewrite <- Permutation_middle. now constructor.
  - rewrite app_assoc, <- Permutation_middle, <- app_assoc. now constructor.
Qed.

Lemma standard_part_class (l : list string) (i : nat) (s : string) :
  (i, s) ∈ standard_part l -> classify s = Standard i.
Proof.
  unfold standard_part. rewrite list_elem_of_omap. intros (s' & _ & E).
  destruct (classify s') eqn:Ec; inversion E; subst. exact Ec.
Qed.

Lemma numeric_part_class (l : list string) (n : Z) (s : string) :
  (n, s) ∈ numeric_part l -> classify s = Numeric n.
Proof.
  unfold numeric_part. rewrite list_elem_of_omap. intros (s' & _ & E).
  destruct (classify s') eqn:Ec; inversion E; subst. exact Ec.
Qed.

Lemma custom_part_class (l : list string) (s : string) :
  s ∈ custom_part l -> classify s = Custom.
Proof.
  unfold custom_part. rewrite list_elem_of_omap. intros (s' & _ & E).
  destruct (classify s') eqn:Ec; inversion E; subst. exact Ec.
Qed.

Lemma parts_cons (s : string) (l : list string) :
  standard_part (s :: l) =
    match classify s with Standard i => (i, s) :: standard_part l | _ => standard_part l end
  /\ numeric_part (s :: l) =
    match classify s with Numeric n => (n, s) :: numeric_part l | _ => numeric_part l end
  /\ custom_part (s :: l) =
    match classify s with Custom => s :: custom_part l | _ => custom_part l end.
Proof.
  unfold standard_part, numeric_part, custom_part. simpl.
  destruct (classify s); auto.
Qed.

(** Splitting the sizes of one bucket again gives that bucket back. *)
Lemma standard_part_of_standard (p : list (nat * string)) :
  (forall i s, (i, s) ∈ p -> classify s = Standard i) ->
  standard_part (List.map snd p) = p /\ numeric_part (List.map snd p) = []
  /\ custom_part (List.map snd p) = [].
Proof.
  induction p as [|[i s] p IH]; intros Hp; [easy|].
  change (List.map snd ((i, s) :: p)) with (s :: List.map snd p).
  destruct (parts_cons s (List.map snd p)) as (-> & -> & ->).
  rewrite (Hp i s) by left.
  destruct IH as (-> & -> & ->); [|easy].
  intros i' s' H. apply Hp. now right.
Qed.

Lemma numeric_part_of_numeric (p : list (Z * string)) :
  (forall n s, (n, s) ∈ p -> classify s = Numeric n) ->
  standard_part (List.map snd p) = [] /\ numeric_part (List.map snd p) = p
  /\ custom_part (List.map snd p) = [].
Proof.
  induction p as [|[n s] p IH]; intros Hp; [easy|].
  change (List.map snd ((n, s) :: p)) with (s :: List.map snd p).
  destruct (parts_cons s (List.map snd p)) as (-> & -> & ->).
  rewrite (Hp n s) by left.
  destruct IH as (-> & -> & ->); [|easy].
  intros n' s' H. apply Hp. now right.
Qed.

Lemma custom_part_of_custom (p : list string) :
  (forall s, s ∈ p -> classify s = Custom) ->
  standard_part p = [] /\ numeric_part p = [] /\ custom_part p = p.
Proof.
  induction p as [|s p IH]; intros Hp; [easy|].
  destruct (parts_cons s p) as (-> & -> & ->).
  rewrite (Hp s) by left.
  destruct IH as (-> & -> & ->); [|easy].
  intros s' H. apply Hp. now right.
Qed.

Lemma sorted_sizes_of_perm (l : list string) :
  Permutation (sorted_sizes_of l) (unique_from ∅ l).
Proof.
  unfold sorted_sizes_of. rewrite partition_sizes_parts. cbv beta iota zeta.
  rewrite <- (parts_perm (unique_from ∅ l)) at 4.
  repeat apply Permutation_app.
  - apply Permutation_map, sort_by_perm.
  - apply Permutation_map, sort_by_perm.
  - apply sort_by_perm.
Qed.

Lemma sorted_sizes_of_NoDup (l : list string) : NoDup (sorted_sizes_of l).
Proof. rewrite sorted_sizes_of_perm. apply unique_from_NoDup. Qed.

Lemma sorted_sizes_of_elem (l : list string) (z : string) :
  z ∈ sorted_sizes_of l <-> z ∈ l.
Proof. rewrite sorted_sizes_of_perm, unique_from_elem. set_solver. Qed.

(** Sorting a list of sizes that is already the result of sorting changes
    nothing. *)
Lemma sorted_sizes_of_twice (l : list string) :
  sorted_sizes_of (sorted_sizes_of l) = sorted_sizes_of l.
Proof.
  assert (Hnd := sorted_sizes_of_NoDup l).
  unfold sorted_sizes_of at 1.
  rewrite unique_from_id by (auto; set_solver).
  unfold sorted_sizes_of in *. rewrite !partition_sizes_parts in *.
  cbv beta iota zeta in *.
  set (u := unique_from ∅ l) in *.
  set (A := sort_by fst Nat.leb (standard_part u)) in *.
  set (B := sort_by fst Z.leb (numeric_part u)) in *.
  set (C := sort_by id String.leb (custom_part u)) in *.
  assert (HA : forall i s, (i, s) ∈ A -> classify s = Standard i).
  { intros i s H. apply (standard_part_class u). revert H.
    unfold A. now rewrite sort_by_perm. }
  assert (HB : forall n s, (n, s) ∈ B -> classify s = Numeric n).
  { intros n s H. apply (numeric_part_class u). revert H.
    unfold B. now rewrite sort_by_perm. }
  assert (HC : forall s, s ∈ C -> classify s = Custom).
  { intros s H. apply (custom_part_class u). revert H.
    unfold C. now rewrite sort_by_perm. }
  destruct (standard_part_of_standard A HA) as (A1 & A2 & A3).
  destruct (numeric_part_of_numeric B HB) as (B1 & B2 & B3).
  destruct (custom_part_of_custom C HC) as (C1 & C2 & C3).
  unfold standard_part, numeric_part, custom_part in *.
  rewrite !omap_app.
  rewrite A1, A2, A3, B1, B2, B3, C1, C2, C3. simpl. rewrite !app_nil_r.
  unfold A, B, C.
  rewrite (sort_by_twice fst Nat.leb nat_leb_total).
  rewrite (sort_by_twice fst Z.leb Z_leb_total).
  rewrite (sort_by_twice id String.leb String.leb_total).
  reflexivity.
Qed.

End PartitionFacts.

Section SplitJoinFacts.

Lemma split_head (sep : ascii) (t : string) :
  exists h rest, split sep t = h :: rest /\ count sep h = O
                 /\ forall c, (count c h <= count c t)%nat.
Proof.
  induction t as [|d t (h & rest & E & Hh & Hc)]; simpl.
  - exists "", []. repeat split. simpl. lia.
  - destruct (Ascii.eqb d sep) eqn:Ed.
    + exists "", (split sep t). repeat split. intros c. simpl. lia.
    + rewrite E. exists (String d h), rest. repeat split.
      * simpl. now rewrite Ed.
      * intros c. simpl. specialize (Hc c). destruct (Ascii.eqb d c); lia.
Qed.

Lemma split_pieces (sep : ascii) (t : string) (p : string) :
  p ∈ split sep t -> count sep p = O.
Proof.
  revert p. induction t as [|d t IH]; intros p; simpl.
  - rewrite list_elem_of_singleton. now intros ->.
  - destruct (Ascii.eqb d sep) eqn:Ed.
    + rewrite elem_of_cons. intros [->|H]; [reflexivity | now apply IH].
    + destruct (split sep t) as [|h rest] eqn:E.
      * rewrite list_elem_of_singleton. intros ->. simpl. now rewrite Ed.
      * rewrite elem_of_cons. intros [->|H].
        -- simpl. rewrite Ed. apply IH. left.
        -- apply IH. now right.
Qed.

Lemma split_join (sep : ascii) (l : list string) :
  l <> [] -> (forall z, z ∈ l -> count sep z = O) ->
  split sep (join (String sep "") l) = l.
Proof.
  induction l as [|x l IH]; [easy|]. intros _ Hl.
  destruct l as [|y l].
  - simpl. apply split_no_sep, Hl. left.
  - change (join (String sep "") (x :: y :: l))
      with (x ++ String sep "" ++ join (String sep "") (y :: l)).
    change (String sep "" ++ join (String sep "") (y :: l))
      with (String sep (join (String sep "") (y :: l))).
    rewrite split_app_sep by (apply Hl; left).
    rewrite IH; [reflexivity | easy |].
    intros z Hz. apply Hl. now right.
Qed.

Lemma size_strings_elem (s token : string) :
  token ∈ size_strings s ->
  token <> "" /\ strip token = token /\ count "," token = O.
Proof.
  unfold size_strings. rewrite list_elem_of_In, filter_In, in_map_iff.
  intros ((p & <- & Hp) & Hne).
  apply negb_true_iff, String.eqb_neq in Hne.
  repeat split; [exact Hne | apply strip_twice |].
  rewrite count_strip by reflexivity.
  apply (split_pieces ","%char s). now apply list_elem_of_In.
Qed.

(** Joining clean tokens with commas and splitting again is the identity. *)
Lemma size_strings_join (l : list string) :
  (forall z, z ∈ l -> z <> "" /\ strip z = z /\ count "," z = O) ->
  size_strings (join "," l) = l.
Proof.
  intros Hl. unfold size_strings.
  destruct l as [|x l]; [reflexivity|].
  rewrite split_join; [|easy|intros z Hz; now apply Hl].
  assert (Hmap : List.map strip (x :: l) = x :: l).
  { rewrite <- (map_id (x :: l)) at 2. apply map_ext_in.
    intros z Hz. apply list_elem_of_In in Hz. now apply Hl. }
  rewrite Hmap.
  apply forallb_filter_id, forallb_forall. intros z Hz.
  apply list_elem_of_In in Hz. apply negb_true_iff, String.eqb_neq. now apply Hl.
Qed.

End SplitJoinFacts.

Section ReparseFacts.

Lemma parse_strip (token : string) :
  parse_size_and_quantity (strip token) = parse_size_and_quantity token.
Proof. unfold parse_size_and_quantity. now rewrite strip_twice. Qed.

(** The size a token parses to is the reserved label, the trimmed token
    itself, or the trimmed text before the only hyphen. *)
Lemma parse_size_cases (token z : string) (q : Z) :
  parse_size_and_quantity token = Ok (z, q) ->
  z = "Custom" \/ z = strip token
  \/ (z = strip (nth 0 (split "-" (strip token)) "")
      /\ count "-" (strip token) = 1%nat).
Proof.
  unfold parse_size_and_quantity.
  destruct (String.eqb _ "custom"); [intros E; inversion E; auto|].
  destruct (contains "-" (strip token) && _) eqn:Eb; [|intros E; inversion E; auto].
  apply andb_prop in Eb as [_ Eb]. apply Nat.eqb_eq in Eb.
  destruct (py_float _) as [f|e]; cbn.
  - destruct (py_int f) as [i|e]; cbn.
    + intros E; inversion E; auto.
    + destruct (is_ValueError e); intros E; inversion E; auto.
  - destruct (is_ValueError e); intros E; inversion E; auto.
Qed.

Lemma strip_Custom_fixed : strip "Custom" = "Custom".
Proof. reflexivity. Qed.

Lemma parse_size_clean (token z : string) (q : Z) :
  parse_size_and_quantity token = Ok (z, q) ->
  strip z = z /\ (count "," token = O -> count "," z = O).
Proof.
  intros H. destruct (parse_size_cases _ _ _ H) as [->|[->|[-> _]]].
  - split; [reflexivity | reflexivity].
  - split; [apply strip_twice|]. intros E. now rewrite count_strip.
  - split; [apply strip_twice|]. intros E. rewrite count_strip by reflexivity.
    destruct (split_head "-"%char (strip token)) as (h & rest & -> & _ & Hc).
    simpl. specialize (Hc ","%char). rewrite count_strip in Hc by reflexivity. lia.
Qed.

(** A size that is not a stray spelling of the reserved label parses to
    itself. *)
Lemma parse_size_again (token z : string) (q : Z) :
  parse_size_and_quantity token = Ok (z, q) ->
  (lower z = "custom" -> z = "Custom") ->
  exists q', parse_size_and_quantity z = Ok (z, q').
Proof.
  intros H Hcanon. destruct (parse_size_cases _ _ _ H) as [->|[->|[-> Hone]]].
  - exists 0. reflexivity.
  - exists q. now rewrite parse_strip.
  - set (z := strip _) in *.
    assert (Hz : strip z = z) by apply strip_twice.
    assert (Hh : count "-" z = O).
    { unfold z. rewrite count_strip by reflexivity.
      destruct (split_head "-"%char (strip token)) as (h & rest & -> & Hh & _). exact Hh. }
    exists 0. destruct (String.eqb_spec (lower z) "custom") as [Hc|Hc].
    + rewrite (Hcanon Hc). reflexivity.
    + rewrite parse_opaque; rewrite Hz; [reflexivity | exact Hc | rewrite Hh; discriminate].
Qed.

Lemma parse_sizes_again (l : list string) :
  (forall z, z ∈ l -> exists token q, parse_size_and_quantity token = Ok (z, q)) ->
  (forall z, z ∈ l -> lower z = "custom" -> z = "Custom") ->
  exists parsed, map_result parse_size_and_quantity l = Ok parsed
                 /\ List.map fst parsed = l.
Proof.
  induction l as [|z l IH]; intros Hfrom Hcanon; [exists []; easy|].
  destruct IH as (parsed & Hp & Hf).
  { intros z' Hz'. apply Hfrom. now right. }
  { intros z' Hz'. apply Hcanon. now right. }
  destruct (Hfrom z) as (token & q & Hq); [left|].
  destruct (parse_size_again _ _ _ Hq) as [q' Hq']; [apply Hcanon; left|].
  exists ((z, q') :: parsed). simpl. rewrite Hq'. cbn. rewrite Hp. cbn.
  split; [reflexivity | now rewrite Hf].
Qed.

End ReparseFacts.

Section SortSizesFacts.

Lemma sort_sizes_elem (sizes_list : string) (sorted : list string) (quantities : gmap string Z) :
  sort_sizes_with_quantities sizes_list = Ok (sorted, quantities) ->
  forall z, z ∈ sorted <->
            exists token q, token ∈ size_strings sizes_list
                            /\ parse_size_and_quantity token = Ok (z, q).
Proof.
  unfold sort_sizes_with_quantities.
  destruct (map_result _ (size_strings sizes_list)) as [parsed|e] eqn:Ep; cbn; [|discriminate].
  intros E. injection E as <- <-.
  intros z. rewrite sorted_sizes_of_elem, list_elem_of_In, in_map_iff. split.
  - intros ([z' q] & <- & Hin). apply list_elem_of_In in Hin.
    destruct (map_result_elem _ _ _ _ Ep Hin) as (token & ? & ?). eauto.
  - intros (token & q & Hin & Hq).
    destruct (map_result_elem_inv _ _ _ _ Ep Hin) as (y & Hy & Hy').
    exists y. rewrite Hq in Hy'. injection Hy' as <-. split; [reflexivity|].
    now apply list_elem_of_In.
Qed.

Lemma sort_sizes_NoDup (sizes_list : string) (sorted : list string) (quantities : gmap string Z) :
  sort_sizes_with_quantities sizes_list = Ok (sorted, quantities) -> NoDup sorted.
Proof.
  unfold sort_sizes_with_quantities.
  destruct (map_result _ _) as [parsed|e]; cbn; [|discriminate].
  intros E. injection E as <- <-. apply sorted_sizes_of_NoDup.
Qed.

Lemma sort_sizes_again (sorted : list string) :
  (forall z, z ∈ sorted -> z <> "" /\ strip z = z /\ count "," z = O) ->
  (forall z, z ∈ sorted -> exists token q, parse_size_and_quantity token = Ok (z, q)) ->
  (forall z, z ∈ sorted -> lower z = "custom" -> z = "Custom") ->
  exists quantities,
    sort_sizes_with_quantities (join "," sorted) = Ok (sorted_sizes_of sorted, quantities).
Proof.
  intros Hclean Hfrom Hcanon. unfold sort_sizes_with_quantities.
  rewrite (size_strings_join sorted Hclean).
  destruct (parse_sizes_again sorted Hfrom Hcanon) as (parsed & -> & Hf).
  cbn. rewrite Hf. eauto.
Qed.

End SortSizesFacts.

(** C7 (as amended).  [sort_sizes_with_quantities] returns each parsed size
    label of its input exactly once: the result has no duplicates and holds
    exactly the labels the tokens parse to.  Applied again to its own result,
    joined with commas, it returns the same ordered list, provided no label
    is empty and none is a stray spelling of the reserved "Custom". *)
Theorem sort_sizes_labels_once_and_stable
        (sizes_list : string) (sorted : list string) (quantities : gmap string Z) :
  sort_sizes_with_quantities sizes_list = Ok (sorted, quantities) ->
  NoDup sorted
  /\ (forall z, z ∈ sorted <->
        exists token q, token ∈ size_strings sizes_list
                        /\ parse_size_and_quantity token = Ok (z, q))
  /\ ((forall z, z ∈ sorted -> z <> "" /\ (lower z = "custom" -> z = "Custom")) ->
      exists quantities',
        sort_sizes_with_quantities (join "," sorted) = Ok (sorted, quantities')).
Proof.
  intros Hsort.
  pose proof (sort_sizes_elem _ _ _ Hsort) as Hmem.
  split; [exact (sort_sizes_NoDup _ _ _ Hsort) | split; [exact Hmem|]].
  intros Hok.
  destruct (sort_sizes_again sorted) as [quantities' Hq].
  - intros z Hz. split; [now apply Hok|].
    apply Hmem in Hz as (token & q & Hin & Hq).
    destruct (size_strings_elem _ _ Hin) as (_ & _ & Hcomma).
    destruct (parse_size_clean _ _ _ Hq) as [Hs Hc]. auto.
  - intros z Hz. apply Hmem in Hz as (token & q & _ & Hq). eauto.
  - intros z Hz. now apply Hok.
  - exists quantities'. rewrite Hq. f_equal. f_equal.
    revert Hsort. unfold sort_sizes_with_quantities.
    destruct (map_result _ _) as [parsed|e]; cbn; [|discriminate].
    intros E. injection E as <- _. apply sorted_sizes_of_twice.
Qed.

Lemma sort_sizes_labels_once_and_stable_witness :
  NoDup ["S"; "XL"; "10"]
  /\ exists quantities',
      sort_sizes_with_quantities (join "," ["S"; "XL"; "10"]) = Ok (["S"; "XL"; "10"], quantities').
Proof.
  destruct (sort_sizes_labels_once_and_stable
              "XL-2, 10, S-3" ["S"; "XL"; "10"]
              (quantity_map [("XL", 2); ("10", 0); ("S", 3)]))
    as (Hnodup & _ & Hagain); [vm_compute; reflexivity|].
  split; [exact Hnodup|]. apply Hagain.
  intros z Hz.
  repeat (apply elem_of_cons in Hz as [->|Hz]);
    [split; [discriminate | vm_compute; discriminate] ..|].
  inversion Hz.
Defined.

(** C7 (counterexample).  The token "M-5" is not in the result, which holds
    the label "M"; and the result for "custom-5", the list ["custom"], is
    turned into ["Custom"] by a second application. *)
Lemma sort_sizes_counterexample :
  sort_sizes_with_quantities "M-5" = Ok (["M"], {[ "M" := 5 ]})
  /\ ("M-5" ∉ ["M"])
  /\ sort_sizes_with_quantities "custom-5" = Ok (["custom"], {[ "custom" := 5 ]})
  /\ sort_sizes_with_quantities (join "," ["custom"]) = Ok (["Custom"], {[ "Custom" := 0 ]})
  /\ ["Custom"] <> ["custom"].
Proof.
  repeat split; try (vm_compute; reflexivity); try discriminate.
  rewrite list_elem_of_singleton. discriminate.
Qed.

End SortSizesProofs.

(* ===================================================================== *)
(** * Variant rows and the compare price, step by step *)
(* ===================================================================== *)

Module VariantProofs.
Import Py Pandas Utils DataProcessor.
Import SizeTokenProofs SortSizesProofs.

(** Lookup of a literal key through a stack of [insert]s. *)
Ltac lookup_literal :=
  repeat (rewrite lookup_insert_ne by (intros ?; discriminate));
  try rewrite lookup_insert_eq.

Section ExplodeFacts.
Context `{Runtime}.

Lemma exploded_row_fields (row : Series) (size color : string)
      (quantities : gmap string Z) (price : value) (config : Config) :
  let e := exploded_row row size color quantities price config in
  e !! "sizes_list" = Some (VStr size)
  /\ e !! "display_size" = Some (VStr (display_size_of size))
  /\ e !! "colours_list" = Some (VStr color)
  /\ e !! "extracted_quantity" = Some (VInt (_extract_quantity size quantities config))
  /\ e !! "uploaded_compare_price" = Some price.
Proof. unfold exploded_row. repeat split; lookup_literal; reflexivity. Qed.

(** Every exploded row is built from one size of the sorted list (or from
    the empty placeholder) and carries the extracted compare price. *)
Lemma explode_elem (row : Series) (column_mapping : gmap string string)
      (config : Config) (rows : list Series) (e : Series) :
  explode row column_mapping config = Ok rows -> e ∈ rows ->
  exists sorted quantities size color quantities',
    sort_sizes_with_quantities (clean_text (sizes_value_of row column_mapping))
      = Ok (sorted, quantities)
    /\ (size ∈ sorted \/ (sorted = [] /\ size = ""))
    /\ e = exploded_row row size color quantities'
             (_extract_compare_price row column_mapping config) config.
Proof.
  unfold explode.
  destruct (sort_sizes_with_quantities _) as [[sorted quantities]|err] eqn:Es;
    [|discriminate].
  unfold mbind at 1, result_bind, Py.bind.
  set (colors := match split_colors _ with [] => [""] | _ => _ end).
  destruct (match fst (sorted, quantities) with
            | [] => ([""], ({[ "" := 0 ]} : gmap string Z))
            | _ => (sorted, quantities)
            end) as [sizes quantities'] eqn:Esq.
  intros E He. injection E as <-.
  apply list_elem_of_bind in He as (size & He & Hsize).
  apply list_elem_of_bind in He as (color & He & _).
  apply list_elem_of_singleton in He. subst e.
  exists sorted, quantities, size, color, quantities'.
  split; [reflexivity|]. split; [|reflexivity].
  destruct sorted as [|s0 sorted]; simpl in Esq; injection Esq as <- <-.
  - right. apply list_elem_of_singleton in Hsize. auto.
  - now left.
Qed.

Lemma display_size_of_plain (size : string) :
  count "-" size = O -> display_size_of size = size.
Proof.
  intros E. unfold display_size_of. rewrite contains_char, E.
  now rewrite andb_false_r.
Qed.

Lemma display_size_of_hyphenated (size : string) :
  count "-" size <> O ->
  display_size_of size = strip (nth 0 (split "-" size) "").
Proof.
  intros E. unfold display_size_of. rewrite contains_char.
  apply Nat.eqb_neq in E. rewrite E.
  destruct size; [discriminate E|]. reflexivity.
Qed.

End ExplodeFacts.

(** What an exploded row carries.  [sizes_list] holds the label a size
    token of the source row parsed to (or the empty placeholder), and
    [display_size] that label cut before its first hyphen.  For a token with
    an embedded quantity both are the trimmed text before the quantity; for a
    token without a hyphen both are the parsed label; for a token that keeps
    its hyphens [sizes_list] is the whole token and [display_size] only the
    trimmed text before the first hyphen. *)
Theorem exploded_row_display_size `{Runtime}
        (row : Series) (column_mapping : gmap string string) (config : Config)
        (rows : list Series) (e : Series) :
  explode row column_mapping config = Ok rows -> e ∈ rows ->
  exists size display,
    e !! "sizes_list" = Some (VStr size)
    /\ e !! "display_size" = Some (VStr display)
    /\ ((size = "" /\ display = "")
        \/ exists token q,
            token ∈ size_strings (clean_text (sizes_value_of row column_mapping))
            /\ parse_size_and_quantity token = Ok (size, q)
            /\ (forall l r x,
                  token = l ++ "-" ++ r -> count "-" l = O -> count "-" r = O ->
                  py_float (strip r) = Ok (Finite x) ->
                  size = strip l /\ display = strip l)
            /\ (count "-" token = O -> display = size)
            /\ (count "-" size <> O ->
                size = token /\ display = strip (nth 0 (split "-" token) ""))).
Proof.
  intros Hex He.
  destruct (explode_elem _ _ _ _ _ Hex He)
    as (sorted & quantities & size & color & quantities' & Hsort & Hsize & ->).
  destruct (exploded_row_fields row size color quantities'
              (_extract_compare_price row column_mapping config) config)
    as (Hs & Hd & _).
  exists size, (display_size_of size). split; [exact Hs | split; [exact Hd|]].
  destruct Hsize as [Hin | [_ ->]]; [|left; split; reflexivity].
  right. apply (sort_sizes_elem _ _ _ Hsort) in Hin as (token & q & Htok & Hq).
  exists token, q. split; [exact Htok | split; [exact Hq|]].
  destruct (size_strings_elem _ _ Htok) as (_ & Hstrip & _).
  repeat split.
  - pose proof (parse_one_hyphen token l r) as Hone.
    rewrite Hstrip in Hone. rewrite (Hone H0 H1 H2), H3 in Hq.
    destruct (py_int_floor x) as (i & Hi & _).
    { apply (py_float_nonneg (strip r)); [now rewrite count_strip | exact H3]. }
    cbn in Hi, Hq. injection Hi as Hi. rewrite Hi in Hq. now injection Hq as <- _.
  - pose proof (parse_one_hyphen token l r) as Hone.
    rewrite Hstrip in Hone. rewrite (Hone H0 H1 H2), H3 in Hq.
    cbn in Hq. injection Hq as <- _.
    apply display_size_of_plain. now rewrite count_strip.
  - intros Hplain. apply display_size_of_plain.
    destruct (parse_size_cases _ _ _ Hq) as [->|[->|[-> Hone]]]; [reflexivity | |].
    + now rewrite Hstrip.
    + rewrite Hstrip, Hplain in Hone. discriminate.
  - destruct (parse_size_cases _ _ _ Hq) as [->|[->|[-> Hone]]].
    + now contradiction H0.
    + exact Hstrip.
    + exfalso. apply H0. rewrite count_strip by reflexivity.
      destruct (split_head "-"%char (strip token)) as (h & rest & -> & Hh & _). exact Hh.
  - assert (size = token) as ->.
    { destruct (parse_size_cases _ _ _ Hq) as [->|[->|[-> Hone]]].
      - now contradiction H0.
      - exact Hstrip.
      - exfalso. apply H0. rewrite count_strip by reflexivity.
        destruct (split_head "-"%char (strip token)) as (h & rest & -> & Hh & _). exact Hh. }
    now apply display_size_of_hyphenated.
Qed.

Import Props.

Section RuntimeFacts.

Lemma int_repr_head (z : Z) :
  exists c s, int_repr z = String c s /\ (is_digit c = true \/ c = "-"%char).
Proof.
  unfold int_repr, NilZero.string_of_int.
  destruct (Z.to_int z) as [d|d]; [|eauto].
  destruct d; simpl; eauto.
Qed.

Lemma fraction_repr_head (q : Q) :
  exists c s, fraction_repr q = String c s /\ (is_digit c = true \/ c = "-"%char).
Proof.
  unfold fraction_repr.
  destruct (int_repr_head (Qnum q)) as (c & s & -> & Hc).
  exists c, (s ++ "/" ++ int_repr (Z.pos (Qden q))). split; [reflexivity | exact Hc].
Qed.

#[export] Instance fraction_runtime : Runtime :=
  {| float_repr := fraction_repr; float_repr_head := fraction_repr_head |}.

(** A text that begins with a digit or a minus sign is neither empty nor
    one of the spellings the clean-up erases. *)
Lemma number_text_kept (text : string) :
  (exists c s, text = String c s /\ (is_digit c = true \/ c = "-"%char)) ->
  text <> "" /\ bool_decide (text ∈ ["nan"; "NaN"; "None"]) = false.
Proof.
  intros (c & s & -> & Hc). split; [discriminate|].
  apply bool_decide_eq_false. rewrite !elem_of_cons, elem_of_nil.
  intros [E|[E|[E|[]]]]; injection E as -> _; destruct Hc as [Hc|Hc]; discriminate.
Qed.

End RuntimeFacts.

Section ComparePriceFacts.
Context `{Runtime}.

Lemma extract_blank (row : Series) (column_mapping : gmap string string) (config : Config) :
  blank_cell (get_column_value row column_mapping "Variant Compare At Price" (VStr "")) ->
  default false (bulk_compare_price_mode config) = false ->
  default true (use_expected_compare_price config) = true ->
  _extract_compare_price row column_mapping config = VNone.
Proof.
  intros Hblank Hbulk Hexp. unfold _extract_compare_price. rewrite Hbulk, Hexp.
  destruct Hblank as [Hna | (s & -> & Hs)].
  - rewrite Hna. simpl. now rewrite andb_false_r.
  - unfold str_is_blank. rewrite Hs. simpl. now rewrite andb_false_r.
Qed.

Lemma with_handle_other (column_mapping : gmap string string) (row : Series) (k : string) :
  k <> "Handle" -> with_handle column_mapping row !! k = row !! k.
Proof. intros Hk. unfold with_handle. now rewrite lookup_insert_ne. Qed.

Lemma keep_price_blank (v : value) : no_price v -> keep_price v = Ok VNone.
Proof.
  unfold no_price, keep_price. intros Hv.
  destruct (isna v || eq_str v "") eqn:E; [reflexivity|].
  simpl in Hv. now rewrite Hv.
Qed.

(** Override application on a row whose extracted price is absent, when the
    session stores no price for it. *)
Lemma mapped_price_blank (session : Session) (column_mapping : gmap string string)
      (config : Config) (src : Series) (p : value) :
  default false (bulk_compare_price_mode config) = false ->
  src !! "uploaded_compare_price" = Some p -> no_price p ->
  stored_price_blank session (variant_key column_mapping src) ->
  mapped_compare_price session column_mapping config src = Ok VNone.
Proof.
  intros Hbulk Hsrc Hp Hstore. unfold mapped_compare_price. rewrite Hbulk.
  unfold stored_price_blank in Hstore.
  destruct (variant_compare_prices session) as [stored|].
  - destruct (stored !! _) as [v|]; simpl; [now apply keep_price_blank | reflexivity].
  - rewrite Hsrc. simpl. now apply keep_price_blank.
Qed.

Lemma apply_mappings_lookup (session : Session) (df mapped : list Series)
      (column_mapping : gmap string string) (config : Config) (j : nat) (src m : Series) :
  _apply_variant_mappings session df column_mapping config = Ok mapped ->
  df !! j = Some src -> mapped !! j = Some m ->
  exists price, mapped_compare_price session column_mapping config src = Ok price
                /\ m !! "Variant Compare At Price" = Some price.
Proof.
  unfold _apply_variant_mappings. rewrite map_result_Ok. intros Hall Hsrc Hm.
  pose proof (Forall2_lookup_lr _ _ _ _ _ _ Hall Hsrc Hm) as E. cbn in E.
  destruct (mapped_compare_price _ _ _ src) as [price|e]; cbn in E; [|discriminate].
  injection E as <-. exists price. split; [reflexivity|]. now rewrite lookup_insert_eq.
Qed.

Lemma shaped_blank (row : Series) :
  (exists p, row !! "Variant Compare At Price" = Some p /\ no_price p) ->
  shaped_compare_price row = Ok (VStr "").
Proof.
  intros (p & Hrow & Hp). unfold shaped_compare_price. rewrite Hrow. simpl.
  unfold no_price in Hp. now rewrite Hp.
Qed.

Lemma shape_compare_cell (entry : Series * string * bool) (g : Series) :
  shape entry = Ok g ->
  exists cell, shaped_compare_price entry.1.1 = Ok cell
               /\ g !! "Variant Compare At Price" = Some cell.
Proof.
  destruct entry as [[row handle] first]. unfold shape. simpl.
  destruct first; unfold _create_main_product_row, _create_variant_row;
    destruct (shaped_compare_price row) as [cell|e]; cbn; try discriminate;
    intros E; injection E as <-; exists cell; (split; [reflexivity|]);
    now rewrite lookup_insert_eq.
Qed.

Lemma clean_compare_column_blank (cells : list value) (i : nat) :
  cells !! i = Some (VStr "") ->
  clean_compare_column cells !! i = Some (VStr "").
Proof.
  intros Hi. unfold clean_compare_column.
  assert (Htext : existsb is_text cells = true).
  { apply existsb_exists. exists (VStr ""). split; [|reflexivity].
    apply list_elem_of_In, list_elem_of_lookup. eauto. }
  rewrite Htext.
  change (List.map ?f cells) with (f <$> cells).
  rewrite list_lookup_fmap, Hi. reflexivity.
Qed.

(** The structure of a successful run of [generate_shopify_csv]. *)
Lemma generate_rows (session : Session) (df : list Series)
      (column_mapping : gmap string string) (config : Config) (out : list Series) :
  generate_shopify_csv session df column_mapping config = Ok out ->
  exists mapped order shaped,
    _apply_variant_mappings session df column_mapping
      (default config (session_config session)) = Ok mapped
    /\ emission_order mapped = Ok order
    /\ map_result shape order = Ok shaped
    /\ out = zip_with (fun row cell => <["Variant Compare At Price" := cell]> row) shaped
               (clean_compare_column (compare_cells shaped)).
Proof.
  unfold generate_shopify_csv.
  destruct (_apply_variant_mappings _ _ _ _) as [mapped|e] eqn:E1; cbn; [|discriminate].
  destruct (emission_order mapped) as [order|e] eqn:E2; cbn; [|discriminate].
  destruct (map_result shape order) as [shaped|e] eqn:E3; cbn; [|discriminate].
  intros E. injection E as <-.
  exists mapped, order, shaped. repeat split; assumption.
Qed.

(** The cell an emitted row ends with, from the cell shaping gave it. *)
Lemma emitted_cell (session : Session) (df : list Series)
      (column_mapping : gmap string string) (config : Config) (src out_row : Series) :
  emitted_for session df column_mapping config src out_row ->
  exists price cell shaped (i : nat),
    mapped_compare_price session column_mapping
      (default config (session_config session)) src = Ok price
    /\ (forall m, m !! "Variant Compare At Price" = Some price ->
                  shaped_compare_price m = Ok cell)
    /\ compare_cells shaped !! i = Some cell
    /\ exists final,
        clean_compare_column (compare_cells shaped) !! i = Some final
        /\ out_row !! "Variant Compare At Price" = Some final.
Proof.
  intros (mapped & order & out & i & j & m & handle & first
          & Hmap & Hord & Hgen & Hsrc & Hm & Hi & Hout).
  destruct (generate_rows _ _ _ _ _ Hgen) as (mapped' & order' & shaped & Hmap' & Hord' & Hsh & ->).
  rewrite Hmap in Hmap'. injection Hmap' as <-.
  rewrite Hord in Hord'. injection Hord' as <-.
  destruct (apply_mappings_lookup _ _ _ _ _ _ _ _ Hmap Hsrc Hm) as (price & Hprice & Hcell).
  apply lookup_zip_with_Some in Hout as (g & final & -> & Hg & Hfinal).
  apply map_result_Ok in Hsh.
  pose proof (Forall2_lookup_lr _ _ _ _ _ _ Hsh Hi Hg) as Hshape.
  destruct (shape_compare_cell _ _ Hshape) as (cell & Hcellm & Hgcell). simpl in Hcellm.
  exists price, cell, shaped, i. split; [exact Hprice|]. split.
  - intros m' Hm'. revert Hcellm. unfold shaped_compare_price. now rewrite Hcell, Hm'.
  - split.
    + unfold compare_cells. change (List.map ?f shaped) with (f <$> shaped).
      rewrite list_lookup_fmap, Hg. simpl. now rewrite Hgcell.
    + exists final. split; [exact Hfinal | now rewrite lookup_insert_eq].
Qed.

(** A row for which override application chooses no price is emitted with
    an empty compare-price field. *)
Lemma emitted_blank (session : Session) (df : list Series)
      (column_mapping : gmap string string) (config : Config)
      (src out_row : Series) (p : value) :
  default false (bulk_compare_price_mode (default config (session_config session))) = false ->
  src !! "uploaded_compare_price" = Some p -> no_price p ->
  stored_price_blank session (variant_key column_mapping src) ->
  emitted_for session df column_mapping config src out_row ->
  csv_field out_row "Variant Compare At Price" = "".
Proof.
  intros Hbulk Hsrc Hp Hstore Hem.
  destruct (emitted_cell _ _ _ _ _ _ Hem)
    as (price & cell & shaped & i & Hprice & Hshape & Hcell & final & Hfinal & Hout).
  rewrite (mapped_price_blank _ _ _ _ _ Hbulk Hsrc Hp Hstore) in Hprice.
  injection Hprice as <-.
  specialize (Hshape {[ "Variant Compare At Price" := VNone ]} (lookup_singleton_eq _ _)).
  rewrite shaped_blank in Hshape by (exists VNone; split; [apply lookup_singleton_eq | reflexivity]).
  injection Hshape as <-.
  rewrite (clean_compare_column_blank _ _ Hcell) in Hfinal. injection Hfinal as <-.
  unfold csv_field. now rewrite Hout.
Qed.

End ComparePriceFacts.

Section PricedFacts.
Context `{Runtime}.

Lemma number_cell_text (v : value) :
  number_cell v ->
  isna v = false /\ eq_zero v = false /\ is_text v = false
  /\ py_str v <> "" /\ bool_decide (py_str v ∈ ["nan"; "NaN"; "None"]) = false.
Proof.
  intros [(i & -> & Hi) | (q & -> & Hq)]; simpl.
  - destruct (number_text_kept _ (int_repr_head i)) as [? ?].
    repeat split; try assumption. now apply Z.eqb_neq.
  - destruct (number_text_kept _ (float_repr_head q)) as [? ?].
    repeat split; try assumption.
    destruct (Qeq_bool q 0) eqn:E; [|reflexivity].
    apply Qeq_bool_eq in E. contradiction.
Qed.

Lemma shaped_priced (row : Series) (x : Q) :
  row !! "Variant Compare At Price" = Some (VFloat (Finite x)) -> ~ (x == 0)%Q ->
  exists cell, shaped_compare_price row = Ok cell /\ number_cell cell.
Proof.
  intros Hrow Hx. unfold shaped_compare_price. rewrite Hrow. simpl.
  destruct (Qeq_bool x 0) eqn:E; [apply Qeq_bool_eq in E; contradiction|].
  unfold clean_value. simpl. cbn.
  destruct (float_eqb _ _) eqn:Eeq.
  - eexists. split; [reflexivity|]. left. eexists. split; [reflexivity|].
    intros Hz. apply Hx. unfold float_eqb, float_leb in Eeq.
    apply andb_prop in Eeq as [E1 E2].
    apply Qle_bool_iff in E1, E2. rewrite Hz in E1, E2.
    now apply Qle_antisym.
  - eexists. split; [reflexivity|]. right. eauto.
Qed.

Lemma widen_number (v : value) :
  number_cell v ->
  number_cell (match v with VInt z => VFloat (Finite (inject_Z z)) | _ => v end).
Proof.
  intros [(i & -> & Hi) | (q & -> & Hq)]; [|right; eauto].
  right. eexists. split; [reflexivity|].
  unfold Qeq. simpl. lia.
Qed.

Lemma clean_compare_column_priced (cells : list value) (i : nat) (cell : value) :
  cells !! i = Some cell -> number_cell cell ->
  exists final, clean_compare_column cells !! i = Some final
                /\ isna final = false /\ py_str final <> "".
Proof.
  intros Hi Hcell. unfold clean_compare_column.
  destruct (existsb is_text cells).
  - change (List.map ?f cells) with (f <$> cells).
    rewrite list_lookup_fmap, Hi. simpl.
    destruct (number_cell_text _ Hcell) as (-> & _ & _ & Hne & ->).
    eexists. split; [reflexivity|]. split; [reflexivity | exact Hne].
  - assert (Hfin : forall v, number_cell v ->
              exists final, Some (if isna v || eq_zero v then VStr "" else v) = Some final
                            /\ isna final = false /\ py_str final <> "").
    { intros v Hv. destruct (number_cell_text _ Hv) as (Hna & Hz & _ & Hne & _).
      rewrite Hna, Hz. simpl. eauto. }
    destruct (existsb is_float cells).
    + change (List.map ?f (List.map ?g cells)) with (f <$> (g <$> cells)).
      rewrite !list_lookup_fmap, Hi. simpl.
      apply Hfin, widen_number, Hcell.
    + change (List.map ?f cells) with (f <$> cells).
      rewrite list_lookup_fmap, Hi. simpl. now apply Hfin.
Qed.

(** A row for which override application chooses a finite price other
    than zero is emitted with a compare-price field that is not empty. *)
Lemma emitted_priced (session : Session) (df : list Series)
      (column_mapping : gmap string string) (config : Config)
      (src out_row : Series) (x : Q) :
  mapped_compare_price session column_mapping
    (default config (session_config session)) src = Ok (VFloat (Finite x)) ->
  ~ (x == 0)%Q ->
  emitted_for session df column_mapping config src out_row ->
  csv_field out_row "Variant Compare At Price" <> "".
Proof.
  intros Hchosen Hx Hem.
  destruct (emitted_cell _ _ _ _ _ _ Hem)
    as (price & cell & shaped & i & Hprice & Hshape & Hcell & final & Hfinal & Hout).
  rewrite Hchosen in Hprice. injection Hprice as <-.
  destruct (shaped_priced {[ "Variant Compare At Price" := VFloat (Finite x) ]} x
              (lookup_singleton_eq _ _) Hx) as (cell' & Hc' & Hnum).
  rewrite (Hshape _ (lookup_singleton_eq _ _)) in Hc'. injection Hc' as <-.
  destruct (clean_compare_column_priced _ _ _ Hcell Hnum) as (final' & Hf' & Hna & Hne).
  rewrite Hfinal in Hf'. injection Hf' as <-.
  unfold csv_field. now rewrite Hout, Hna.
Qed.

End PricedFacts.

End VariantProofs.

(* ===================================================================== *)
(** * The compare price in the emitted catalog *)
(* ===================================================================== *)

Module ComparePriceProofs.
Import Py Pandas Utils DataProcessor Props.
Import SizeTokenProofs SortSizesProofs VariantProofs.

(** C1 (as amended).  A source row whose mapped compare-price cell is blank,
    with bulk compare-price mode off and extraction from the column on:
    the extracted price is [None]; every exploded row carries [None], also
    once it has its handle; and every catalog row emitted for such a row has
    an empty "Variant Compare At Price" field, provided the session stores
    no price under the row's variant key. *)
Theorem blank_compare_price_serializes_empty `{Runtime}
        (row : Series) (column_mapping : gmap string string) (config : Config) :
  blank_cell (get_column_value row column_mapping "Variant Compare At Price" (VStr "")) ->
  default false (bulk_compare_price_mode config) = false ->
  default true (use_expected_compare_price config) = true ->
  _extract_compare_price row column_mapping config = VNone
  /\ forall rows e,
      explode row column_mapping config = Ok rows -> e ∈ rows ->
      e !! "uploaded_compare_price" = Some VNone
      /\ with_handle column_mapping e !! "uploaded_compare_price" = Some VNone
      /\ forall session df config' out_row,
          default false
            (bulk_compare_price_mode (default config' (session_config session))) = false ->
          stored_price_blank session (variant_key column_mapping (with_handle column_mapping e)) ->
          emitted_for session df column_mapping config' (with_handle column_mapping e) out_row ->
          csv_field out_row "Variant Compare At Price" = "".
Proof.
  intros Hblank Hbulk Hexp.
  pose proof (extract_blank row column_mapping config Hblank Hbulk Hexp) as Hnone.
  split; [exact Hnone|].
  intros rows e Hex He.
  destruct (explode_elem _ _ _ _ _ Hex He)
    as (sorted & quantities & size & color & quantities' & _ & _ & ->).
  rewrite Hnone.
  assert (He' : exploded_row row size color quantities' VNone config
                !! "uploaded_compare_price" = Some VNone).
  { apply exploded_row_fields. }
  assert (Hsrc : with_handle column_mapping (exploded_row row size color quantities' VNone config)
                 !! "uploaded_compare_price" = Some VNone).
  { rewrite with_handle_other by discriminate. exact He'. }
  split; [exact He' | split; [exact Hsrc|]].
  intros session df config' out_row Hbulk' Hstore Hem.
  exact (emitted_blank session df column_mapping config' _ out_row VNone
           Hbulk' Hsrc eq_refl Hstore Hem).
Qed.

Lemma blank_compare_price_serializes_empty_witness :
  _extract_compare_price (sample_row "M-5" (VStr "  ")) sample_mapping no_config = VNone
  /\ csv_field (sample_output (VStr "")) "Variant Compare At Price" = "".
Proof.
  destruct (blank_compare_price_serializes_empty
              (sample_row "M-5" (VStr "  ")) sample_mapping no_config)
    as [Hnone Hrows];
    [right; exists "  "; split; reflexivity | reflexivity | reflexivity |].
  split; [exact Hnone|].
  destruct (Hrows [sample_exploded (VStr "  ") VNone] (sample_exploded (VStr "  ") VNone))
    as (_ & _ & Hemit); [vm_compute; reflexivity | left |].
  apply (Hemit fresh_session
               [with_handle sample_mapping (sample_exploded (VStr "  ") VNone)] no_config);
    [reflexivity | exact I |].
  exists [sample_mapped (VStr "  ") VNone VNone],
         [(sample_mapped (VStr "  ") VNone VNone, "cool-shirt-ab-12", true)],
         [sample_output (VStr "")], O, O,
         (sample_mapped (VStr "  ") VNone VNone), "cool-shirt-ab-12", true.
  repeat split; vm_compute; reflexivity.
Defined.

(** C1 (counterexample).  The compare-price cell is empty, bulk mode is off
    and extraction is on, but the session stores 50 under the variant key
    "M|Red|Cool Shirt!": the emitted field is "50". *)
Lemma blank_compare_price_counterexample :
  blank_cell (get_column_value (sample_row "M-5" (VStr "")) sample_mapping
                               "Variant Compare At Price" (VStr ""))
  /\ default false (bulk_compare_price_mode no_config) = false
  /\ default true (use_expected_compare_price no_config) = true
  /\ (df ← process_data (sample_table "M-5" (VStr "")) sample_mapping no_config;
      out ← generate_shopify_csv priced_session df sample_mapping no_config;
      Ok (List.map (fun row => csv_field row "Variant Compare At Price") out)) = Ok ["50"]
  /\ "50" <> "".
Proof.
  repeat split; try (vm_compute; reflexivity); try discriminate.
  right. exists "". split; reflexivity.
Qed.

(** C5 (as amended).  A compare price of zero is not told apart from a
    missing one.  Extraction of a cell that reads as zero yields [None] or
    zero; a row whose extracted price is [None] or zero is emitted with an
    empty "Variant Compare At Price" field when the session stores no price
    for it; and a row for which a finite price other than zero is chosen is
    emitted with a field that is not empty. *)
Theorem zero_compare_price_serializes_empty `{Runtime}
        (session : Session) (df : list Series) (column_mapping : gmap string string)
        (config : Config) (src out_row : Series) :
  emitted_for session df column_mapping config src out_row ->
  (forall row config0 x,
      float_of_text (get_column_value row column_mapping "Variant Compare At Price" (VStr ""))
        = Ok (Finite x) ->
      (x == 0)%Q ->
      default false (bulk_compare_price_mode config0) = false ->
      default true (use_expected_compare_price config0) = true ->
      no_price (_extract_compare_price row column_mapping config0))
  /\ (forall p,
        src !! "uploaded_compare_price" = Some p -> no_price p ->
        default false
          (bulk_compare_price_mode (default config (session_config session))) = false ->
        stored_price_blank session (variant_key column_mapping src) ->
        csv_field out_row "Variant Compare At Price" = "")
  /\ (forall x,
        mapped_compare_price session column_mapping
          (default config (session_config session)) src = Ok (VFloat (Finite x)) ->
        ~ (x == 0)%Q ->
        csv_field out_row "Variant Compare At Price" <> "").
Proof.
  intros Hem. split; [|split].
  - intros row config0 x Hx Hzero Hbulk Hexp.
    unfold _extract_compare_price. rewrite Hbulk, Hexp.
    destruct (_ && _); [|reflexivity].
    rewrite Hx. unfold float_leb.
    destruct (Qle_bool 0 x); [|reflexivity].
    unfold no_price. simpl. apply Qeq_bool_iff in Hzero. now rewrite Hzero.
  - intros p Hsrc Hp Hbulk Hstore.
    exact (emitted_blank session df column_mapping config src out_row p
             Hbulk Hsrc Hp Hstore Hem).
  - intros x Hchosen Hx.
    exact (emitted_priced session df column_mapping config src out_row x Hchosen Hx Hem).
Qed.

Lemma zero_compare_price_serializes_empty_witness :
  no_price (_extract_compare_price (sample_row "M-5" (VStr "0")) sample_mapping no_config)
  /\ csv_field (sample_output (VStr "")) "Variant Compare At Price" = "".
Proof.
  destruct (zero_compare_price_serializes_empty
              fresh_session
              [with_handle sample_mapping (sample_exploded (VStr "0") (VFloat (Finite 0)))]
              sample_mapping no_config
              (with_handle sample_mapping (sample_exploded (VStr "0") (VFloat (Finite 0))))
              (sample_output (VStr "")))
    as (Hextract & Hblank & _).
  - exists [sample_mapped (VStr "0") (VFloat (Finite 0)) VNone],
           [(sample_mapped (VStr "0") (VFloat (Finite 0)) VNone, "cool-shirt-ab-12", true)],
           [sample_output (VStr "")], O, O,
           (sample_mapped (VStr "0") (VFloat (Finite 0)) VNone), "cool-shirt-ab-12", true.
    repeat split; vm_compute; reflexivity.
  - split.
    + apply (Hextract (sample_row "M-5" (VStr "0")) no_config 0%Q);
        [vm_compute; reflexivity | reflexivity | reflexivity | reflexivity].
    + apply (Hblank (VFloat (Finite 0))); [vm_compute; reflexivity | reflexivity | reflexivity | exact I].
Defined.

(** C5 (counterexample).  With no stored overrides, a compare-price cell
    holding the number 0, the text "0" or nothing at all gives the same
    serialized field: the empty string. *)
Lemma zero_compare_price_counterexample :
  let emitted mrp :=
    df ← process_data (sample_table "M-5" mrp) sample_mapping no_config;
    out ← generate_shopify_csv fresh_session df sample_mapping no_config;
    Ok (List.map (fun row => csv_field row "Variant Compare At Price") out) in
  emitted (VInt 0) = Ok [""]
  /\ emitted (VFloat (Finite 0)) = Ok [""]
  /\ emitted (VStr "0") = Ok [""]
  /\ emitted (VStr "") = Ok [""]
  /\ emitted (VStr "50") = Ok ["50"].
Proof. repeat split; vm_compute; reflexivity. Qed.

(** C8 (evaluation at the failing inputs).  The exploded rows do not
    carry what the comments of [_process_variants] announce.  The size
    "A-B-C" has no embedded quantity (it parses to itself with quantity 0),
    yet its display size is cut at the first hyphen, "A".  For the token
    "M-5" the row carries "M" as its size: the full token, "kept for
    inventory", is nowhere in the row.  And the two sizes "A-B" and "A-C"
    of one product are both displayed as "A", so the catalog is written with
    two rows that agree in handle and in both option values. *)
Theorem display_size_cuts_opaque_sizes :
  parse_size_and_quantity "A-B-C" = Ok ("A-B-C", 0)
  /\ (rows ← explode (sample_row "A-B-C" (VStr "")) sample_mapping no_config;
      Ok (List.map (fun e : Series => (e !! "sizes_list", e !! "display_size")) rows))
     = Ok [(Some (VStr "A-B-C"), Some (VStr "A"))]
  /\ "A" <> "A-B-C"
  /\ (rows ← explode (sample_row "M-5" (VStr "")) sample_mapping no_config;
      Ok (List.map (fun e : Series => (e !! "sizes_list", e !! "display_size")) rows))
     = Ok [(Some (VStr "M"), Some (VStr "M"))]
  /\ (rows ← explode (sample_row "A-B, A-C" (VStr "")) sample_mapping no_config;
      Ok (List.map (fun e : Series => (e !! "sizes_list", e !! "display_size")) rows))
     = Ok [(Some (VStr "A-B"), Some (VStr "A")); (Some (VStr "A-C"), Some (VStr "A"))]
  /\ (df ← process_data (sample_table "A-B, A-C" (VStr "")) sample_mapping no_config;
      out ← generate_shopify_csv fresh_session df sample_mapping no_config;
      Ok (List.map (fun row => (csv_field row "Handle", csv_field row "Option1 Value",
                                csv_field row "Option2 Value")) out))
     = Ok [("cool-shirt-ab-12", "A", "Red"); ("cool-shirt-ab-12", "A", "Red")].
Proof. repeat split; try (vm_compute; reflexivity); discriminate. Qed.

End ComparePriceProofs.

(* ===================================================================== *)
(** * Column mapper: the matcher and the passes *)
(* ===================================================================== *)

Module MapperLemmas.
Import Py Pandas Utils Props.
Import SizeTokenProofs SortSizesProofs VariantProofs ComparePriceProofs.

Section DifflibFacts.
Import Difflib.

Lemma row_bounded_zeros (n : nat) : row_bounded 0 1 (repeat O n).
Proof.
  intros t k Hk. apply list_elem_of_lookup_2, list_elem_of_In, repeat_spec in Hk.
  subst. lia.
Qed.

Lemma dp_row_bounded (ai : ascii) (b : list ascii) (diag ci j0 : nat) (j2len : list nat) :
  (diag <= ci /\ diag <= j0)%nat -> row_bounded ci (S j0) j2len ->
  row_bounded (S ci) (S j0) (dp_row ai b diag j2len).
Proof.
  revert diag j0 j2len. induction b as [|bj b IH]; intros diag j0 j2len Hd Hrow; simpl.
  - intros t k Hk. destruct j2len; discriminate.
  - destruct j2len as [|old j2len]; [intros t k Hk; discriminate|].
    intros [|t] k Hk; simpl in Hk.
    + injection Hk as <-. destruct (Ascii.eqb ai bj); lia.
    + assert (Hold : (old <= ci /\ old <= S j0)%nat).
      { destruct (Hrow O old eq_refl). lia. }
      assert (Hrest : row_bounded ci (S (S j0)) j2len).
      { intros t' k' Hk'. destruct (Hrow (S t') k' Hk'). lia. }
      destruct (IH old (S j0) j2len Hold Hrest t k Hk). lia.
Qed.

Lemma dp_row_length (ai : ascii) (b : list ascii) (diag : nat) (j2len : list nat) :
  length j2len = length b -> length (dp_row ai b diag j2len) = length b.
Proof.
  revert diag j2len. induction b as [|bj b IH]; intros diag [|old j2len]; simpl;
    try discriminate; auto.
Qed.

Lemma scan_row_inside (i j n m ci : nat) (row : list nat) (best : nat * nat * nat) :
  (i < n)%nat -> (j + length row <= m)%nat -> (ci <= S i)%nat ->
  row_bounded ci (S j) row ->
  block_inside n m best -> block_inside n m (scan_row i j row best).
Proof.
  revert j best. induction row as [|k row IH]; intros j best Hi Hj Hci Hrow Hbest; simpl;
    [exact Hbest|].
  destruct best as [[bi bj] bk]. simpl in Hj.
  apply IH; [exact Hi | lia | exact Hci | |].
  - intros t k' Hk'. destruct (Hrow (S t) k' Hk'). lia.
  - destruct (Hrow O k eq_refl).
    destruct (bk <? k)%nat; [simpl; lia | exact Hbest].
Qed.

Lemma longest_loop_inside (a : list ascii) (i n : nat) (b : list ascii)
      (j2len : list nat) (best : nat * nat * nat) :
  (i + length a <= n)%nat -> length j2len = length b ->
  row_bounded i 1 j2len ->
  block_inside n (length b) best ->
  block_inside n (length b) (longest_loop a i b j2len best).
Proof.
  revert i j2len best. induction a as [|ai a IH]; intros i j2len best Hn Hlen Hrow Hbest;
    simpl; [exact Hbest|].
  simpl in Hn.
  assert (Hnew : row_bounded (S i) 1 (dp_row ai b 0 j2len)).
  { apply dp_row_bounded; [lia | exact Hrow]. }
  apply IH; [lia | now apply dp_row_length | exact Hnew |].
  apply (scan_row_inside i 0 n (length b) (S i)); [lia | | lia | exact Hnew | exact Hbest].
  rewrite dp_row_length by exact Hlen. lia.
Qed.

Lemma find_longest_match_inside (a b : list ascii) :
  block_inside (length a) (length b) (find_longest_match a b).
Proof.
  unfold find_longest_match. apply longest_loop_inside.
  - lia.
  - apply repeat_length.
  - intros t k Hk. destruct (row_bounded_zeros (length b) t k Hk). lia.
  - simpl. lia.
Qed.

Lemma matches_fuel_bound (fuel : nat) (a b : list ascii) :
  (matches_fuel fuel a b <= length a /\ matches_fuel fuel a b <= length b)%nat.
Proof.
  revert a b. induction fuel as [|fuel IH]; intros a b; simpl; [lia|].
  pose proof (find_longest_match_inside a b) as Hin.
  destruct (find_longest_match a b) as [[i j] k]. simpl in Hin.
  destruct (k =? 0)%nat; [lia|].
  destruct (IH (firstn i a) (firstn j b)) as [L1 L2].
  destruct (IH (skipn (i + k) a) (skipn (j + k) b)) as [R1 R2].
  rewrite length_take in L1, L2. rewrite length_drop in R1, R2.
  destruct (_ && _); destruct (_ && _); lia.
Qed.

(** The similarity ratio lies between 0 and 1. *)
Lemma ratio_le_1 (a b : string) : (Difflib.ratio a b <= 1)%Q.
Proof.
  unfold Difflib.ratio.
  set (la := list_ascii_of_string a). set (lb := list_ascii_of_string b).
  destruct (length la + length lb =? 0)%nat eqn:E; [apply Qle_refl|].
  apply Nat.eqb_neq in E.
  rewrite Qred_correct. unfold Qle. simpl.
  destruct (matches_fuel_bound (length la) la lb) as [H1 H2]. unfold matches.
  rewrite Z.mul_1_r, Z.mul_1_l.
  rewrite <- (positive_nat_Z (Pos.of_nat _)), Nat2Pos.id by exact E.
  lia.
Qed.

End DifflibFacts.

Section FoldFacts.
Context {A B : Type} (P : A -> Prop) (f : A -> B -> A).

(** A property kept by every step of a loop holds when the loop ends. *)
Lemma fold_left_invariant (l : list B) (a : A) :
  P a -> (forall a x, x ∈ l -> P a -> P (f a x)) -> P (fold_left f l a).
Proof.
  revert a. induction l as [|x l IH]; intros a Ha Hstep; [exact Ha|].
  cbn [fold_left]. apply IH.
  - apply Hstep; [left | exact Ha].
  - intros a' x' Hx'. apply Hstep. now right.
Qed.
End FoldFacts.

Section MapperFacts.
Import ColumnMapper Props.

Lemma qgtb_true (x y : Q) : qgtb x y = true -> (y < x)%Q.
Proof. unfold qgtb. destruct (Qlt_le_dec y x); [auto | discriminate]. Qed.

Lemma similarity_le_1 (str1 str2 : string) : (_calculate_similarity str1 str2 <= 1)%Q.
Proof.
  unfold _calculate_similarity.
  pose proof (ratio_le_1 (clean_name str1) (clean_name str2)) as Hr.
  destruct (_ || _); [|exact Hr].
  unfold qmax. destruct (Qlt_le_dec _ _); [|exact Hr].
  unfold Qle. simpl. lia.
Qed.

Lemma in_keys_false {V} (k : string) (d : gmap string V) :
  in_keys k d = false <-> d !! k = None.
Proof.
  unfold in_keys. rewrite bool_decide_eq_false, <- eq_None_not_Some. reflexivity.
Qed.

Lemma in_values_true (col : string) (d : gmap string string) :
  in_values col d = true <-> exists k, d !! k = Some col.
Proof.
  unfold in_values. rewrite bool_decide_eq_true, list_elem_of_fmap. split.
  - intros ([k c] & -> & Hin). apply elem_of_map_to_list in Hin. eauto.
  - intros (k & Hk). exists (k, col). split; [reflexivity|]. now apply elem_of_map_to_list.
Qed.

Lemma best_over_variants_ok (existing : gmap string string) (column name : string)
      (variants : list string) (best : option string * Q) :
  name ∈ standard_fields -> existing !! name = None ->
  best_ok existing best -> best_ok existing (best_over_variants column name variants best).
Proof.
  intros Hname Hfree. unfold best_over_variants.
  revert best. induction variants as [|variant variants IH]; intros best Hbest; cbn [fold_left];
    [exact Hbest|].
  apply IH. destruct (qgtb _ (snd best) && qgtb _ 0.7) eqn:E; [|exact Hbest].
  apply andb_prop in E as [_ E]. apply qgtb_true in E.
  unfold best_ok. simpl. auto using similarity_le_1.
Qed.

Lemma standard_variants_fields (e : string * list string) :
  e ∈ standard_variants -> fst e ∈ standard_fields.
Proof.
  intros He. unfold standard_fields. apply list_elem_of_In, in_map, list_elem_of_In, He.
Qed.

Lemma find_best_fuzzy_match_ok (column : string) (existing : gmap string string)
      (f : string) (q : Q) :
  _find_best_fuzzy_match column existing = Some (f, q) ->
  f ∈ standard_fields /\ existing !! f = None /\ (0.7 < q)%Q /\ (q <= 1)%Q.
Proof.
  unfold _find_best_fuzzy_match.
  match goal with
  | |- context [fold_left ?step standard_variants ?init] =>
      pose proof (fold_left_invariant (best_ok existing) step standard_variants init I) as Hok;
      generalize dependent (fold_left step standard_variants init)
  end.
  intros best Hok. destruct best as [[f'|] q']; [|discriminate].
  intros Hq. injection Hq as -> ->. apply Hok.
  intros best entry Hentry Hbest. cbv beta.
  destruct (in_keys (fst entry) existing) eqn:E; [exact Hbest|].
  apply best_over_variants_ok;
    [now apply standard_variants_fields | now apply in_keys_false | exact Hbest].
Qed.

Lemma pass_ok_empty field_ok score_ok given : pass_ok field_ok score_ok given (∅, ∅).
Proof. split; intros ? ? Hl; simpl in Hl; rewrite lookup_empty in Hl; discriminate. Qed.

Lemma pass_ok_insert field_ok score_ok given acc (f col : string) (q : Q) :
  pass_ok field_ok score_ok given acc ->
  field_ok f -> col ∈ given -> score_ok q ->
  pass_ok field_ok score_ok given (<[f := col]> (fst acc), <[col := q]> (snd acc)).
Proof.
  intros [H1 H2] Hf Hcol Hq. split; simpl.
  - intros f' c. rewrite lookup_insert. case_decide as Ef.
    + intros E. injection E as <-. split; [now subst|]. split; [exact Hcol|].
      rewrite lookup_insert_eq. eauto.
    + intros E. destruct (H1 f' c E) as (? & ? & ?). repeat split; try assumption.
      rewrite lookup_insert. case_decide; eauto.
  - intros c q'. rewrite lookup_insert. case_decide as Ec.
    + intros E. injection E as <-. now subst.
    + apply H2.
Qed.

Lemma fuzzy_match_ok (unmapped : list string) (existing : gmap string string) :
  pass_ok (fun f => f ∈ standard_fields /\ existing !! f = None)
          (fun q => (0.7 < q)%Q /\ (q <= 1)%Q)
          unmapped (_fuzzy_match unmapped existing).
Proof.
  unfold _fuzzy_match. apply fold_left_invariant; [apply pass_ok_empty|].
  intros acc col Hcol Hacc.
  destruct (_find_best_fuzzy_match col existing) as [[f q]|] eqn:E; [|exact Hacc].
  destruct (find_best_fuzzy_match_ok _ _ _ _ E) as (? & ? & ? & ?).
  now apply pass_ok_insert.
Qed.

Lemma detect_column_type_cases (sample_values : list string) (column_name : string) :
  _detect_column_type sample_values column_name
  ∈ [ (Some "variant price", 0.8%Q); (Some "published", 0.7%Q); (Some "size", 0.7%Q);
      (Some "colour", 0.7%Q); (Some "product category", 0.6%Q);
      (Some "product code", 0.8%Q); (None, 0%Q) ].
Proof.
  unfold _detect_column_type.
  repeat (match goal with |- context [if ?b then _ else _] => destruct b end;
          [set_solver|]).
  set_solver.
Qed.

Section WithRuntime.
Context `{Runtime}.

Lemma content_analysis_ok (df : DataFrame) (unmapped : list string)
      (existing : gmap string string) :
  pass_ok (fun f => f ∈ content_fields /\ existing !! f = None)
          (fun q => q = 0.7%Q \/ q = 0.8%Q)
          unmapped (_content_analysis df unmapped existing).
Proof.
  unfold _content_analysis. apply fold_left_invariant; [apply pass_ok_empty|].
  intros acc col Hcol Hacc. cbv beta zeta.
  destruct (sample_of df col) as [|v vs]; [exact Hacc|].
  pose proof (detect_column_type_cases (v :: vs) col) as Hcases.
  destruct (_detect_column_type (v :: vs) col) as [[t|] q]; [|exact Hacc].
  destruct (qgtb q 0.6 && negb (in_keys t existing)) eqn:E; [|exact Hacc].
  apply andb_prop in E as [Eq Ek]. apply negb_true_iff, in_keys_false in Ek.
  rewrite !elem_of_cons, elem_of_nil in Hcases.
  destruct Hcases as [E|[E|[E|[E|[E|[E|[E|[]]]]]]]]; try discriminate E;
    injection E as -> ->; try discriminate Eq;
    (apply pass_ok_insert;
     [exact Hacc | split; [unfold content_fields; set_solver | exact Ek]
      | exact Hcol | auto]).
Qed.
End WithRuntime.

Lemma exact_match_fields (df : DataFrame) (f c : string) :
  _exact_match df !! f = Some c -> f ∈ standard_fields.
Proof.
  unfold _exact_match. revert f c.
  apply (fold_left_invariant
           (fun m : gmap string string => forall f c, m !! f = Some c -> f ∈ standard_fields)).
  - intros ? ?. rewrite lookup_empty. discriminate.
  - intros acc entry Hentry Hacc. cbv beta.
    destruct (first_spelling _ _); [|exact Hacc].
    intros f c. rewrite lookup_insert. case_decide as E; [|apply Hacc].
    intros _. subst. now apply standard_variants_fields.
Qed.

Lemma exact_confidence_lookup (base : gmap string string) (c : string) :
  exact_confidence base !! c = if in_values c base then Some 1.0%Q else None.
Proof.
  unfold exact_confidence, in_values.
  assert (Hfold : forall (entries : list (string * string)) (acc : gmap string Q),
             fold_left (fun scores entry => <[snd entry := 1.0%Q]> scores) entries acc !! c
             = if bool_decide (c ∈ entries.*2) then Some 1.0%Q else acc !! c).
  { induction entries as [|entry entries IH]; intros acc; cbn [fold_left]; [reflexivity|].
    rewrite IH. rewrite lookup_insert.
    repeat case_bool_decide; try reflexivity; try case_decide; try reflexivity;
      set_solver. }
  rewrite Hfold, lookup_empty. reflexivity.
Qed.

(** No field of the exact and fuzzy passes is a field of the content pass. *)
Lemma fields_apart (f : string) : f ∈ standard_fields -> f ∈ content_fields -> False.
Proof.
  intros Hs Hc. unfold content_fields in Hc.
  rewrite !elem_of_cons, elem_of_nil in Hc.
  destruct Hc as [->|[->|[->|[->|[->|[]]]]]];
    apply list_elem_of_In in Hs; revert Hs;
    apply (bool_decide_unpack (~ _)); vm_compute; reflexivity.
Qed.

End MapperFacts.

End MapperLemmas.

(* ===================================================================== *)
(** * Column mapper: [analyze_columns] *)
(* ===================================================================== *)

Module MapperProofs.
Import Py Pandas Utils ColumnMapper Props.
Import SizeTokenProofs SortSizesProofs VariantProofs ComparePriceProofs MapperLemmas.

Section PassesFacts.
(** The three passes, seen from outside: what the exact pass mapped
    ([base]), the result pairs of the two later passes, and the columns
    each later pass was given. *)
Variables (base : gmap string string) (fz ct : gmap string string * gmap string Q).
Variables (given rest : list string).
Hypothesis fz_ok :
  pass_ok (fun f => f ∈ standard_fields /\ base !! f = None)
          (fun q => (0.7 < q)%Q /\ (q <= 1)%Q) given fz.
Hypothesis ct_ok :
  pass_ok (fun f => f ∈ content_fields /\ base !! f = None)
          (fun q => q = 0.7%Q \/ q = 0.8%Q) rest ct.
Hypothesis given_ok : forall c, c ∈ given -> in_values c base = false.
Hypothesis rest_ok :
  forall c, c ∈ rest -> in_values c base = false /\ in_values c (fst fz) = false.

Lemma exact_blocks_later (f : string) :
  is_Some (base !! f) -> fst fz !! f = None /\ fst ct !! f = None.
Proof.
  intros [c Hc]. split.
  - destruct (fst fz !! f) as [c'|] eqn:E; [|reflexivity].
    destruct (proj1 fz_ok f c' E) as ((_ & Hnone) & _). congruence.
  - destruct (fst ct !! f) as [c'|] eqn:E; [|reflexivity].
    destruct (proj1 ct_ok f c' E) as ((_ & Hnone) & _). congruence.
Qed.

Lemma fuzzy_blocks_content (f : string) :
  is_Some (fst fz !! f) -> base !! f = None /\ fst ct !! f = None.
Proof.
  intros [c Hc]. destruct (proj1 fz_ok f c Hc) as ((Hstd & Hnone) & _).
  split; [exact Hnone|].
  destruct (fst ct !! f) as [c'|] eqn:E; [|reflexivity].
  destruct (proj1 ct_ok f c' E) as ((Hcont & _) & _).
  destruct (fields_apart f Hstd Hcont).
Qed.

Lemma merged_exact (f c : string) :
  base !! f = Some c -> (fst ct ∪ (fst fz ∪ base)) !! f = Some c.
Proof.
  intros Hc. destruct (exact_blocks_later f) as [E1 E2]; [eauto|].
  rewrite lookup_union_r by exact E2. rewrite lookup_union_r by exact E1. exact Hc.
Qed.

Lemma merged_fuzzy (f c : string) :
  fst fz !! f = Some c -> (fst ct ∪ (fst fz ∪ base)) !! f = Some c.
Proof.
  intros Hc. destruct (fuzzy_blocks_content f) as [E1 E2]; [eauto|].
  rewrite lookup_union_r by exact E2. now apply lookup_union_Some_l.
Qed.

Lemma merged_content (f : string) :
  base !! f = None -> fst fz !! f = None ->
  (fst ct ∪ (fst fz ∪ base)) !! f = fst ct !! f.
Proof.
  intros E1 E2. destruct (fst ct !! f) as [c|] eqn:E3.
  - now apply lookup_union_Some_l.
  - rewrite lookup_union_r by exact E3. rewrite lookup_union_r by exact E2. exact E1.
Qed.

Lemma exact_column_unscored (c : string) :
  in_values c base = true -> snd fz !! c = None /\ snd ct !! c = None.
Proof.
  intros Hin. split.
  - destruct (snd fz !! c) as [q|] eqn:E; [|reflexivity].
    destruct (proj2 fz_ok c q E) as [Hg _]. rewrite (given_ok c Hg) in Hin. discriminate.
  - destruct (snd ct !! c) as [q|] eqn:E; [|reflexivity].
    destruct (proj2 ct_ok c q E) as [Hg _].
    rewrite (proj1 (rest_ok c Hg)) in Hin. discriminate.
Qed.

Lemma fuzzy_column_unscored (c : string) :
  in_values c (fst fz) = true -> snd ct !! c = None.
Proof.
  intros Hin. destruct (snd ct !! c) as [q|] eqn:E; [|reflexivity].
  destruct (proj2 ct_ok c q E) as [Hg _].
  rewrite (proj2 (rest_ok c Hg)) in Hin. discriminate.
Qed.

Lemma score_exact (f c : string) :
  base !! f = Some c ->
  (snd ct ∪ (snd fz ∪ exact_confidence base)) !! c = Some 1.0%Q.
Proof.
  intros Hc.
  assert (Hin : in_values c base = true) by (apply in_values_true; eauto).
  destruct (exact_column_unscored c Hin) as [E1 E2].
  rewrite lookup_union_r by exact E2. rewrite lookup_union_r by exact E1.
  rewrite exact_confidence_lookup, Hin. reflexivity.
Qed.

Lemma score_fuzzy (f c : string) :
  fst fz !! f = Some c ->
  exists q, (snd ct ∪ (snd fz ∪ exact_confidence base)) !! c = Some q
            /\ (0.7 < q)%Q /\ (q <= 1.0)%Q.
Proof.
  intros Hc.
  assert (Hin : in_values c (fst fz) = true) by (apply in_values_true; eauto).
  pose proof (fuzzy_column_unscored c Hin) as E2.
  destruct (proj1 fz_ok f c Hc) as (_ & _ & [q Hq]).
  exists q. split.
  - rewrite lookup_union_r by exact E2. now apply lookup_union_Some_l.
  - destruct (proj2 fz_ok c q Hq) as [_ [? ?]]. split; [assumption|].
    eapply Qle_trans; [eassumption|]. unfold Qle. simpl. lia.
Qed.

Lemma score_content (f c : string) :
  fst ct !! f = Some c ->
  exists q, (snd ct ∪ (snd fz ∪ exact_confidence base)) !! c = Some q
            /\ (q = 0.6%Q \/ q = 0.7%Q \/ q = 0.8%Q).
Proof.
  intros Hc. destruct (proj1 ct_ok f c Hc) as (_ & _ & [q Hq]).
  exists q. split; [now apply lookup_union_Some_l|].
  destruct (proj2 ct_ok c q Hq) as [_ [->| ->]]; auto.
Qed.

Lemma score_origin (c : string) (q : Q) :
  (snd ct ∪ (snd fz ∪ exact_confidence base)) !! c = Some q ->
  (in_values c base = true /\ q = 1.0%Q)
  \/ (snd fz !! c = Some q /\ (0.7 < q)%Q /\ (q <= 1.0)%Q)
  \/ (snd ct !! c = Some q /\ (q = 0.6%Q \/ q = 0.7%Q \/ q = 0.8%Q)).
Proof.
  rewrite lookup_union_Some_raw. intros [Hq | [_ Hq]].
  - right. right. split; [exact Hq|]. destruct (proj2 ct_ok c q Hq) as [_ [->| ->]]; auto.
  - apply lookup_union_Some_raw in Hq as [Hq | [_ Hq]].
    + right. left. split; [exact Hq|]. destruct (proj2 fz_ok c q Hq) as [_ [? ?]].
      split; [assumption|]. eapply Qle_trans; [eassumption|]. unfold Qle. simpl. lia.
    + left. rewrite exact_confidence_lookup in Hq.
      destruct (in_values c base); [|discriminate].
      injection Hq as <-. auto.
Qed.

Lemma content_never_category :
  fst ct !! "product category" = None
  /\ (base !! "product category" = None -> fst fz !! "product category" = None ->
      (fst ct ∪ (fst fz ∪ base)) !! "product category" = None).
Proof.
  assert (Hnot : ~ "product category" ∈ content_fields).
  { unfold content_fields. rewrite !elem_of_cons, elem_of_nil.
    intros [E|[E|[E|[E|[E|[]]]]]]; discriminate. }
  assert (Hcontent : fst ct !! "product category" = None).
  { destruct (fst ct !! "product category") as [c|] eqn:E; [|reflexivity].
    destruct (proj1 ct_ok _ c E) as ((Hin & _) & _). contradiction. }
  split; [exact Hcontent|]. intros E1 E2.
  rewrite lookup_union_r by exact Hcontent. apply lookup_union_None. now split.
Qed.

Lemma content_fields_only (f c : string) : fst ct !! f = Some c -> f ∈ content_fields.
Proof. intros Hc. now destruct (proj1 ct_ok f c Hc) as ((? & _) & _). Qed.

Lemma content_score_final (c : string) (q : Q) :
  snd ct !! c = Some q ->
  (q = 0.7%Q \/ q = 0.8%Q) /\ (snd ct ∪ (snd fz ∪ exact_confidence base)) !! c = Some q.
Proof.
  intros Hq. split; [now destruct (proj2 ct_ok c q Hq)|]. now apply lookup_union_Some_l.
Qed.
End PassesFacts.

Section AnalysisFacts.
Context `{Runtime}.

Lemma filter_elem {A} (p : A -> bool) (l : list A) (x : A) :
  x ∈ List.filter p l <-> x ∈ l /\ p x = true.
Proof. now rewrite !list_elem_of_In, filter_In. Qed.

Lemma fuzzy_pass_ok (df : DataFrame) :
  pass_ok (fun f => f ∈ standard_fields /\ _exact_match df !! f = None)
          (fun q => (0.7 < q)%Q /\ (q <= 1)%Q)
          (unmapped_after_exact df) (_fuzzy_match (unmapped_after_exact df) (_exact_match df)).
Proof. apply fuzzy_match_ok. Qed.

Lemma content_pass_ok (df : DataFrame) :
  pass_ok (fun f => f ∈ content_fields /\ _exact_match df !! f = None)
          (fun q => q = 0.7%Q \/ q = 0.8%Q)
          (remaining_unmapped df)
          (_content_analysis df (remaining_unmapped df) (_exact_match df)).
Proof. apply content_analysis_ok. Qed.

Lemma unmapped_after_exact_ok (df : DataFrame) (c : string) :
  c ∈ unmapped_after_exact df -> in_values c (_exact_match df) = false.
Proof.
  unfold unmapped_after_exact. intros Hc. apply filter_elem in Hc as [_ Hn].
  now apply negb_true_iff in Hn.
Qed.

Lemma remaining_unmapped_ok (df : DataFrame) (c : string) :
  c ∈ remaining_unmapped df ->
  in_values c (_exact_match df) = false
  /\ in_values c (fst (_fuzzy_match (unmapped_after_exact df) (_exact_match df))) = false.
Proof.
  unfold remaining_unmapped. cbv zeta. intros Hc. apply filter_elem in Hc as [Hc Hn].
  split; [now apply unmapped_after_exact_ok|now apply negb_true_iff in Hn].
Qed.
End AnalysisFacts.

Ltac open_analysis :=
  unfold analyze_columns, analysis, update; cbv zeta;
  cbn [base_mapping confidence_scores exact_mapping fuzzy_mapping fuzzy_confidence
       content_mapping content_confidence final_mapping final_confidence].

(** The three dictionaries, key by key.  The passes of [analyze_columns]
    never assign the same dictionary key twice: a key the exact pass mapped
    is mapped by neither later pass, a key the fuzzy pass mapped was left by
    the exact pass and is not mapped by the content pass, and the final
    mapping gives every key the column of the earliest pass that mapped
    it.  (The content pass uses keys of its own, see below.) *)
Theorem later_passes_fill_gaps `{Runtime} (df : DataFrame) (f : string) :
  let a := analysis df in
  (forall c, exact_mapping a !! f = Some c ->
             fuzzy_mapping a !! f = None /\ content_mapping a !! f = None
             /\ final_mapping a !! f = Some c)
  /\ (forall c, fuzzy_mapping a !! f = Some c ->
                exact_mapping a !! f = None /\ content_mapping a !! f = None
                /\ final_mapping a !! f = Some c)
  /\ (exact_mapping a !! f = None -> fuzzy_mapping a !! f = None ->
      final_mapping a !! f = content_mapping a !! f)
  /\ base_mapping (analyze_columns df) = final_mapping a.
Proof.
  open_analysis.
  pose proof (fuzzy_pass_ok df) as Hfz. pose proof (content_pass_ok df) as Hct.
  split; [|split; [|split; [|reflexivity]]].
  - intros c Hc.
    destruct (exact_blocks_later _ _ _ _ _ Hfz Hct f) as [E1 E2]; [eauto|].
    split; [exact E1|]. split; [exact E2|].
    exact (merged_exact _ _ _ _ _ Hfz Hct f c Hc).
  - intros c Hc.
    destruct (fuzzy_blocks_content _ _ _ _ _ Hfz Hct f) as [E1 E2]; [eauto|].
    split; [exact E1|]. split; [exact E2|].
    exact (merged_fuzzy _ _ _ _ _ Hfz Hct f c Hc).
  - apply merged_content.
Qed.

(** C4 (as amended).  In the confidence scores [analyze_columns] returns, a
    column the exact pass mapped scores exactly 1.0; a column the fuzzy pass
    mapped scores more than 0.7 and at most 1.0; a column the content pass
    mapped scores 0.6, 0.7 or 0.8; and every score comes from one of the
    three passes. *)
Theorem confidence_by_pass `{Runtime} (df : DataFrame) :
  let a := analysis df in
  confidence_scores (analyze_columns df) = final_confidence a
  /\ (forall f c, exact_mapping a !! f = Some c -> final_confidence a !! c = Some 1.0%Q)
  /\ (forall f c, fuzzy_mapping a !! f = Some c ->
                  exists q, final_confidence a !! c = Some q /\ (0.7 < q)%Q /\ (q <= 1.0)%Q)
  /\ (forall f c, content_mapping a !! f = Some c ->
                  exists q, final_confidence a !! c = Some q
                            /\ (q = 0.6%Q \/ q = 0.7%Q \/ q = 0.8%Q))
  /\ (forall c q, final_confidence a !! c = Some q ->
                  (in_values c (exact_mapping a) = true /\ q = 1.0%Q)
                  \/ (fuzzy_confidence a !! c = Some q /\ (0.7 < q)%Q /\ (q <= 1.0)%Q)
                  \/ (content_confidence a !! c = Some q
                      /\ (q = 0.6%Q \/ q = 0.7%Q \/ q = 0.8%Q))).
Proof.
  open_analysis.
  pose proof (fuzzy_pass_ok df) as Hfz. pose proof (content_pass_ok df) as Hct.
  pose proof (unmapped_after_exact_ok df) as Hgiven.
  pose proof (remaining_unmapped_ok df) as Hrest.
  split; [reflexivity|]. split; [|split; [|split]].
  - exact (score_exact _ _ _ _ _ Hfz Hct Hgiven Hrest).
  - exact (score_fuzzy _ _ _ _ _ Hfz Hct Hrest).
  - exact (score_content _ _ _ _ Hct).
  - exact (score_origin _ _ _ _ _ Hfz Hct).
Qed.

(** C4 (counterexample).  The column "Product-Title" is not an accepted
    spelling, so the exact pass leaves it; stripped of punctuation it equals
    the spelling "product_title", so the fuzzy pass maps it to "Title" with
    similarity exactly 1.0, which is not below 1.0. *)
Lemma fuzzy_confidence_counterexample :
  let a := analysis product_title_table in
  exact_mapping a = ∅
  /\ fuzzy_mapping a !! "Title" = Some "Product-Title"
  /\ confidence_scores (analyze_columns product_title_table) !! "Product-Title" = Some 1%Q
  /\ ~ (1 < 1.0)%Q.
Proof.
  repeat split; try (vm_compute; reflexivity).
  unfold Qlt. simpl. lia.
Qed.

(** C10.  The content pass never maps "product category": its detection
    scores 0.6 and acceptance needs more than 0.6.  So neither the content
    mapping nor the final mapping has that entry, and every score the
    content pass assigns is 0.7 or 0.8 and is the column's final score. *)
Theorem content_pass_never_maps_category `{Runtime} (df : DataFrame) :
  let a := analysis df in
  qgtb 0.6 0.6 = false
  /\ content_mapping a !! "product category" = None
  /\ final_mapping a !! "product category" = None
  /\ (forall f c, content_mapping a !! f = Some c -> f ∈ content_fields)
  /\ (forall c q, content_confidence a !! c = Some q ->
                  (q = 0.7%Q \/ q = 0.8%Q) /\ final_confidence a !! c = Some q).
Proof.
  open_analysis.
  pose proof (fuzzy_pass_ok df) as Hfz. pose proof (content_pass_ok df) as Hct.
  destruct (content_never_category _ (_fuzzy_match (unmapped_after_exact df) (_exact_match df)) _ _ Hct)
    as [Hcontent Hfinal].
  split; [reflexivity|]. split; [exact Hcontent|]. split; [|split].
  - apply Hfinal.
    + destruct (_exact_match df !! "product category") as [c|] eqn:E; [|reflexivity].
      exfalso. apply exact_match_fields, list_elem_of_In in E. revert E.
      apply (bool_decide_unpack (~ _)). vm_compute. reflexivity.
    + destruct (_ !! "product category") as [c|] eqn:E in |- *; [|reflexivity].
      exfalso. destruct (proj1 Hfz "product category" c E) as ((Hstd & _) & _).
      apply list_elem_of_In in Hstd. revert Hstd.
      apply (bool_decide_unpack (~ _)). vm_compute. reflexivity.
  - exact (content_fields_only _ _ _ Hct).
  - exact (content_score_final _ _ _ _ Hct).
Qed.

(** C3 (evaluation at the failing input).  The content pass names its
    fields in lower case ("variant price", "published", "size", "colour",
    "product code"): each is an accepted spelling of a standard field, but
    none is ever a key of the exact mapping, so the test "not already
    mapped" of the content pass never fails.  On the table with the columns
    "Price" and "amount" the exact pass maps "Variant Price" to "Price", the
    fuzzy pass maps nothing, and the content pass still assigns the price
    field, as "variant price", to "amount" with confidence 0.8: the final
    mapping holds both. *)
Theorem content_pass_reassigns_mapped_field `{Runtime} :
  (forall df f, f ∈ content_fields ->
     in_keys f (_exact_match df) = false
     /\ exists canonical variants,
         (canonical, variants) ∈ standard_variants /\ f ∈ variants)
  /\ (exists variants, ("Variant Price", variants) ∈ standard_variants
                       /\ "variant price" ∈ variants)
  /\ let a := analysis price_amount_table in
     exact_mapping a = {[ "Variant Price" := "Price" ]}
     /\ fuzzy_mapping a = ∅
     /\ content_mapping a = {[ "variant price" := "amount" ]}
     /\ base_mapping (analyze_columns price_amount_table)
        = {[ "Variant Price" := "Price"; "variant price" := "amount" ]}
     /\ confidence_scores (analyze_columns price_amount_table) !! "amount" = Some 0.8%Q.
Proof.
  split; [|split].
  - intros df f Hf. split.
    + apply in_keys_false.
      destruct (_exact_match df !! f) as [c|] eqn:E; [|reflexivity].
      destruct (fields_apart f (exact_match_fields df f c E) Hf).
    + unfold content_fields in Hf.
      repeat (apply elem_of_cons in Hf as [->|Hf]); [..|inversion Hf].
      * eexists _, _. split; [eapply (list_elem_of_lookup_2 _ 20%nat); reflexivity|set_solver].
      * eexists _, _. split; [eapply (list_elem_of_lookup_2 _ 7%nat); reflexivity|set_solver].
      * eexists _, _. split; [eapply (list_elem_of_lookup_2 _ 9%nat); reflexivity|set_solver].
      * eexists _, _. split; [eapply (list_elem_of_lookup_2 _ 11%nat); reflexivity|set_solver].
      * eexists _, _. split; [eapply (list_elem_of_lookup_2 _ 14%nat); reflexivity|set_solver].
  - eexists. split; [eapply (list_elem_of_lookup_2 _ 20%nat); reflexivity|set_solver].
  - assert (Ha : analysis price_amount_table
                 = {| exact_mapping := {[ "Variant Price" := "Price" ]};
                      fuzzy_mapping := ∅; fuzzy_confidence := ∅;
                      content_mapping := {[ "variant price" := "amount" ]};
                      content_confidence := {[ "amount" := 0.8%Q ]};
                      final_mapping :=
                        {[ "Variant Price" := "Price"; "variant price" := "amount" ]};
                      final_unmapped := [];
                      final_confidence := {[ "Price" := 1.0%Q; "amount" := 0.8%Q ]} |})
      by (vm_compute; reflexivity).
    unfold analyze_columns. cbv zeta. rewrite Ha. cbn [exact_mapping fuzzy_mapping
      content_mapping final_mapping final_confidence base_mapping confidence_scores].
    repeat split; reflexivity.
Qed.

End MapperProofs.

(* ===================================================================== *)
(** * Description fragments *)
(* ===================================================================== *)

Module DescriptionProofs.
Import Py Pandas Description Props.
Import SizeTokenProofs SortSizesProofs VariantProofs ComparePriceProofs MapperLemmas MapperProofs.

(** C2.  The two renderers disagree on the paragraph style.  For the
    element {column: "fabric", label: "Fabric", html_tag: "p"} and a row
    whose cell is "Cotton", [WorkflowManager._generate_description_html]
    renders "<p>Fabric: Cotton</p>", but
    [DescriptionGenerator._generate_dynamic_description], whose result is
    the description the catalog ends with, has no paragraph case and
    renders "<p><p>Fabric : </p> Cotton</p>".  With the tag "h3" both render
    "<p><h3>Fabric : </h3> Cotton</p>". *)
Theorem dynamic_description_splits_paragraph `{Runtime} :
  _generate_description_html [fabric_element "p"] fabric_row = "<p>Fabric: Cotton</p>"
  /\ _generate_dynamic_description [fabric_element "p"] fabric_row
     = "<p><p>Fabric : </p> Cotton</p>"
  /\ final_enhanced_description [fabric_element "p"] fabric_row
     = Some "<p><p>Fabric : </p> Cotton</p>"
  /\ _generate_description_html [fabric_element "h3"] fabric_row
     = "<p><h3>Fabric : </h3> Cotton</p>"
  /\ _generate_dynamic_description [fabric_element "h3"] fabric_row
     = "<p><h3>Fabric : </h3> Cotton</p>".
Proof. repeat split; vm_compute; reflexivity. Qed.

End DescriptionProofs.

(* ===================================================================== *)
(** * Size lists and cell cleaning: what is returned and what is raised *)
(* ===================================================================== *)

Module SizeListProofs.
Import Py Pandas Utils Props.
Import SizeTokenProofs SortSizesProofs VariantProofs ComparePriceProofs MapperLemmas MapperProofs DescriptionProofs.

Section OrderFacts.

Lemma ascii_compare_refl (a : ascii) : Ascii.compare a a = Eq.
Proof. unfold Ascii.compare. apply N.compare_refl. Qed.

Lemma string_leb_cons (a b : ascii) (s t : string) :
  String.leb (String a s) (String b t)
  = match Ascii.compare a b with
    | Eq => String.leb s t
    | Lt => true
    | Gt => false
    end.
Proof. unfold String.leb. simpl. destruct (Ascii.compare a b); reflexivity. Qed.

Lemma string_leb_nil_l (t : string) : String.leb "" t = true.
Proof. destruct t; reflexivity. Qed.

Lemma string_leb_nil_r (s : string) : String.leb s "" = true -> s = "".
Proof. destruct s; [reflexivity | discriminate]. Qed.

Lemma string_leb_trans (s t u : string) :
  String.leb s t = true -> String.leb t u = true -> String.leb s u = true.
Proof.
  revert t u. induction s as [|a s IH]; intros t u Hst Htu; [apply string_leb_nil_l|].
  destruct t as [|b t]; [discriminate|].
  destruct u as [|c u]; [discriminate|].
  rewrite string_leb_cons in *.
  unfold Ascii.compare in *.
  destruct (N.compare_spec (N_of_ascii a) (N_of_ascii b)) as [Eab|Lab|Gab]; [| |discriminate];
    destruct (N.compare_spec (N_of_ascii b) (N_of_ascii c)) as [Ebc|Lbc|Gbc]; try discriminate.
  - rewrite Eab, Ebc, N.compare_refl. eauto.
  - rewrite Eab. now apply N.compare_lt_iff in Lbc as ->.
  - rewrite <- Ebc. now apply N.compare_lt_iff in Lab as ->.
  - assert (L : (N_of_ascii a < N_of_ascii c)%N) by lia.
    now apply N.compare_lt_iff in L as ->.
Qed.

Lemma string_leb_refl (s : string) : String.leb s s = true.
Proof. destruct (String.leb_total s s); assumption. Qed.

End OrderFacts.

Section StrongSorting.
Context {A K : Type} (key : A -> K) (leb : K -> K -> bool).
Hypothesis leb_total : forall a b, leb a b = true \/ leb b a = true.
Hypothesis leb_trans : forall a b c, leb a b = true -> leb b c = true -> leb a c = true.

Lemma sort_by_StronglySorted (l : list A) :
  StronglySorted (fun x y => leb (key x) (key y) = true) (sort_by key leb l).
Proof.
  apply Sorted_StronglySorted.
  - intros x y z. apply leb_trans.
  - apply sort_by_Sorted. exact leb_total.
Qed.
End StrongSorting.

Section SortedLists.
Context {A : Type}.

Lemma StronglySorted_app (R : A -> A -> Prop) (l1 l2 : list A) :
  StronglySorted R l1 -> StronglySorted R l2 ->
  (forall x y, x ∈ l1 -> y ∈ l2 -> R x y) ->
  StronglySorted R (l1 ++ l2).
Proof.
  intros H1 H2 H12. induction H1 as [|a l1 Hs IH Hall]; [exact H2|].
  simpl. constructor.
  - apply IH. intros x y Hx Hy. apply H12; [now right | exact Hy].
  - apply Forall_app. split; [exact Hall|].
    apply Forall_forall. intros y Hy. apply H12; [now left | exact Hy].
Qed.

Lemma StronglySorted_map {B : Type} (R : A -> A -> Prop) (R' : B -> B -> Prop)
      (f : A -> B) (l : list A) :
  (forall x y, x ∈ l -> y ∈ l -> R x y -> R' (f x) (f y)) ->
  StronglySorted R l -> StronglySorted R' (List.map f l).
Proof.
  intros Hf Hs. induction Hs as [|a l Hs IH Hall]; [constructor|].
  simpl. constructor.
  - apply IH. intros x y Hx Hy. apply Hf; now right.
  - apply Forall_forall. intros y Hy.
    change (List.map f l) with (f <$> l) in Hy.
    apply list_elem_of_fmap in Hy as (x & -> & Hx).
    apply Hf; [now left | now right |].
    rewrite Forall_forall in Hall. now apply Hall.
Qed.

Lemma StronglySorted_weaken (R R' : A -> A -> Prop) (l : list A) :
  (forall x y, x ∈ l -> y ∈ l -> R x y -> R' x y) ->
  StronglySorted R l -> StronglySorted R' l.
Proof.
  intros Hf Hs. rewrite <- (map_id l). apply (StronglySorted_map R R' id); assumption.
Qed.

Lemma StronglySorted_lookup (R : A -> A -> Prop) (l : list A) (i j : nat) (a b : A) :
  StronglySorted R l -> (i < j)%nat -> l !! i = Some a -> l !! j = Some b -> R a b.
Proof.
  intros Hs. revert i j. induction Hs as [|x l Hs IH Hall]; intros i j Hij Hi Hj.
  - rewrite lookup_nil in Hi. discriminate.
  - destruct j as [|j]; [lia|]. destruct i as [|i]; simpl in *.
    + injection Hi as <-. rewrite Forall_forall in Hall. apply Hall.
      eapply list_elem_of_lookup_2. exact Hj.
    + apply (IH i j); [lia | assumption..].
Qed.
End SortedLists.

Section ParseOutcomes.

Lemma py_float_not_neginf (s : string) :
  count "-" s = O -> py_float s <> Ok NegInf.
Proof.
  intros Hs. unfold py_float.
  destruct (drop_underscores zero _) as [t|] eqn:Et; [|discriminate].
  assert (Ht : count "-" t = O).
  { rewrite (drop_underscores_count "-" _ _ _ eq_refl Et).
    now rewrite count_rstrip_by, count_lstrip_by. }
  rewrite (take_sign_positive t Ht).
  set (body := snd (take_sign t)).
  destruct (_ || _); [discriminate|].
  destruct (String.eqb _ "nan"); [discriminate|].
  destruct (parse_decimal body) as [[m ex]|] eqn:Ep; [|discriminate].
  unfold float_of_decimal. destruct (if 0 <=? ex then _ else _) as [n d].
  destruct (binary64_round n d); discriminate.
Qed.

Lemma py_float_raises (s : string) (e : exn) : py_float s = Raise e -> e = ValueError.
Proof.
  unfold py_float.
  destruct (drop_underscores zero _) as [t|]; [|intros E; now inversion E].
  destruct (take_sign t) as [neg body].
  destruct (_ || _); [discriminate|].
  destruct (String.eqb _ "nan"); [discriminate|].
  destruct (parse_decimal body) as [[m ex]|]; [discriminate|intros E; now inversion E].
Qed.

Lemma quantity_text_no_hyphen (token : string) : count "-" (quantity_text token) = O.
Proof.
  unfold quantity_text. rewrite count_strip by reflexivity.
  destruct (nth_in_or_default 1 (split "-" (strip token)) "") as [Hin| ->]; [|reflexivity].
  apply list_elem_of_In in Hin. exact (split_pieces "-"%char _ _ Hin).
Qed.

(** The function, seen through the three cases of its code. *)
Lemma parse_unfold (token : string) :
  parse_size_and_quantity token
  = if String.eqb (lower (strip token)) "custom" then Ok ("Custom", 0)
    else if (count "-" (strip token) =? 1)%nat then
      try_except
        (f ← py_float (quantity_text token);
         qty_part ← py_int f;
         Ok (strip (nth 0 (split "-" (strip token)) ""), qty_part))
        is_ValueError (Ok (strip token, 0))
    else Ok (strip token, 0).
Proof.
  unfold parse_size_and_quantity, quantity_text.
  destruct (String.eqb _ "custom"); [reflexivity|].
  rewrite contains_char.
  destruct (Nat.eqb_spec (count "-" (strip token)) 1) as [->|Hn]; [reflexivity|].
  now rewrite andb_false_r.
Qed.

Lemma parse_quantity_nonneg (token z : string) (q : Z) :
  parse_size_and_quantity token = Ok (z, q) -> 0 <= q.
Proof.
  rewrite parse_unfold.
  destruct (String.eqb _ "custom"); [intros E; inversion E; lia|].
  destruct (_ =? 1)%nat; [|intros E; inversion E; lia].
  destruct (py_float (quantity_text token)) as [f|e] eqn:Ef; cbn.
  - destruct f as [x| | |]; cbn; try (intros E; inversion E; lia).
    assert (Hx : (0 <= x)%Q)
      by (apply (py_float_nonneg _ _ (quantity_text_no_hyphen token) Ef)).
    destruct (py_int_floor x Hx) as (q' & Hq' & H0 & _).
    cbn in Hq'. injection Hq' as Hq'. rewrite Hq'. intros E. inversion E. lia.
  - destruct (is_ValueError e); intros E; inversion E. lia.
Qed.

Lemma parse_positive_quantity (token z : string) (q : Z) :
  parse_size_and_quantity token = Ok (z, q) -> q <> 0 ->
  count "-" (strip token) = 1%nat /\ count "-" z = O
  /\ z = strip (nth 0 (split "-" (strip token)) "").
Proof.
  rewrite parse_unfold.
  destruct (String.eqb _ "custom"); [intros E; inversion E; lia|].
  destruct (Nat.eqb_spec (count "-" (strip token)) 1) as [Hone|Hn];
    [|intros E; inversion E; lia].
  assert (Hhead : count "-" (strip (nth 0 (split "-" (strip token)) "")) = O).
  { rewrite count_strip by reflexivity.
    destruct (split_head "-"%char (strip token)) as (h & rest & -> & Hh & _). exact Hh. }
  destruct (py_float (quantity_text token)) as [f|e]; cbn.
  - destruct (py_int f) as [i|e]; cbn.
    + intros E Hq. inversion E; subst. auto.
    + destruct (is_ValueError e); intros E; inversion E. lia.
  - destruct (is_ValueError e); intros E; inversion E. lia.
Qed.

Lemma parse_raises_iff (token : string) (e : exn) :
  parse_size_and_quantity token = Raise e
  <-> e = OverflowError /\ count "-" (strip token) = 1%nat
      /\ py_float (quantity_text token) = Ok PosInf.
Proof.
  rewrite parse_unfold. split.
  - destruct (String.eqb _ "custom"); [discriminate|].
    destruct (Nat.eqb_spec (count "-" (strip token)) 1) as [Hone|Hn]; [|discriminate].
    destruct (py_float (quantity_text token)) as [f|e'] eqn:Ef; cbn.
    + destruct f as [x| | |]; cbn; try discriminate.
      * intros E. now inversion E.
      * destruct (py_float_not_neginf _ (quantity_text_no_hyphen token) Ef).
    + rewrite (py_float_raises _ _ Ef). discriminate.
  - intros (-> & Hone & Ef).
    rewrite lower_hyphen_not_custom by (rewrite Hone; discriminate).
    rewrite Hone, Ef. reflexivity.
Qed.

End ParseOutcomes.

(** X1.  The size/quantity parser never returns a negative quantity, the size
    it returns carries no surrounding whitespace, and a quantity other than
    zero only comes from a token with exactly one hyphen, whose size then
    has no hyphen left. *)
Theorem parsed_quantity_never_negative (token z : string) (q : Z) :
  parse_size_and_quantity token = Ok (z, q) ->
  0 <= q /\ strip z = z
  /\ (q <> 0 -> count "-" (strip token) = 1%nat /\ count "-" z = O).
Proof.
  intros Hp. split; [exact (parse_quantity_nonneg _ _ _ Hp)|].
  split; [exact (proj1 (parse_size_clean _ _ _ Hp))|].
  intros Hq. destruct (parse_positive_quantity _ _ _ Hp Hq) as (? & ? & _). auto.
Qed.

Lemma parsed_quantity_never_negative_witness :
  0 <= 5 /\ strip "XL" = "XL"
  /\ (5 <> 0 -> count "-" (strip " XL - 5.5 ") = 1%nat /\ count "-" "XL" = O).
Proof.
  apply (parsed_quantity_never_negative " XL - 5.5 " "XL" 5).
  vm_compute. reflexivity.
Defined.

Section MapResultFailure.
Context {A B : Type} (f : A -> result B).

Lemma map_result_Raise (l : list A) (e : exn) :
  map_result f l = Raise e -> exists x, x ∈ l /\ f x = Raise e.
Proof.
  induction l as [|x l IH]; [discriminate|]. simpl.
  destruct (f x) as [y|e'] eqn:Ex; cbn.
  - destruct (map_result f l) as [ys|e'']; cbn; [discriminate|].
    intros E. inversion E; subst.
    destruct IH as (x' & Hin & Hx'); [reflexivity|]. exists x'. split; [now right | exact Hx'].
  - intros E. inversion E; subst. exists x. split; [now left | exact Ex].
Qed.

Lemma map_result_raises (l : list A) (x : A) (e : exn) :
  x ∈ l -> f x = Raise e -> exists e', map_result f l = Raise e'.
Proof.
  intros Hin Hx. induction l as [|y l IH]; [inversion Hin|]. simpl.
  destruct (f y) as [b|e'] eqn:Ey; cbn; [|eauto].
  apply elem_of_cons in Hin as [->|Hin]; [congruence|].
  destruct (IH Hin) as [e'' ->]. cbn. eauto.
Qed.
End MapResultFailure.

(** X2.  The only exception of size parsing.  [parse_size_and_quantity] raises
    exactly when the token has one hyphen and the text after it reads as an
    infinity, and then it raises [OverflowError]: a [ValueError] never
    escapes.  [sort_sizes_with_quantities] raises exactly when one of its
    tokens does, with the same exception. *)
Theorem size_parsing_raises_only_overflow :
  (forall token e,
      parse_size_and_quantity token = Raise e
      <-> e = OverflowError /\ count "-" (strip token) = 1%nat
          /\ py_float (quantity_text token) = Ok PosInf)
  /\ (forall sizes_list e,
        sort_sizes_with_quantities sizes_list = Raise e
        <-> e = OverflowError
            /\ exists token, token ∈ size_strings sizes_list
                             /\ parse_size_and_quantity token = Raise OverflowError).
Proof.
  split; [exact parse_raises_iff|].
  intros sizes_list e. unfold sort_sizes_with_quantities. split.
  - destruct (map_result _ _) as [parsed|e'] eqn:Em; cbn; [discriminate|].
    intros E. inversion E; subst.
    destruct (map_result_Raise _ _ _ Em) as (token & Hin & Ht).
    pose proof (proj1 (parse_raises_iff token e) Ht) as (-> & _). eauto.
  - intros (-> & token & Hin & Ht).
    destruct (map_result_raises _ _ _ _ Hin Ht) as [e' Em]. rewrite Em. cbn.
    destruct (map_result_Raise _ _ _ Em) as (token' & _ & Ht').
    now pose proof (proj1 (parse_raises_iff token' e') Ht') as (-> & _).
Qed.

Section QuantityMapFacts.

Lemma quantity_fold_other (l : list (string * Z)) (m : gmap string Z) (z : string) :
  z ∉ List.map fst l ->
  fold_left (fun m p => <[fst p := snd p]> m) l m !! z = m !! z.
Proof.
  revert m. induction l as [|[k v] l IH]; intros m Hz; [reflexivity|].
  simpl in *. rewrite IH.
  - apply lookup_insert_ne. intros ->. apply Hz. now left.
  - intros Hin. apply Hz. now right.
Qed.

Lemma quantity_fold_last (before after : list (string * Z)) (m : gmap string Z)
      (z : string) (q : Z) :
  z ∉ List.map fst after ->
  fold_left (fun m p => <[fst p := snd p]> m) (before ++ (z, q) :: after)%list m !! z = Some q.
Proof.
  intros Hz. rewrite fold_left_app. simpl.
  rewrite quantity_fold_other by exact Hz. apply lookup_insert_eq.
Qed.

Lemma quantity_fold_from (l : list (string * Z)) (m : gmap string Z) (z : string) (q : Z) :
  fold_left (fun m p => <[fst p := snd p]> m) l m !! z = Some q ->
  (z, q) ∈ l \/ m !! z = Some q.
Proof.
  revert m. induction l as [|[k v] l IH]; intros m; [now right|].
  simpl. intros Hl. destruct (IH _ Hl) as [Hin|Hm]; [left; now right|].
  destruct (decide (k = z)) as [->|Hk].
  - rewrite lookup_insert_eq in Hm. injection Hm as ->. left. now left.
  - rewrite lookup_insert_ne in Hm by exact Hk. now right.
Qed.

Lemma quantity_fold_key (l : list (string * Z)) (m : gmap string Z) (z : string) :
  z ∈ List.map fst l -> is_Some (fold_left (fun m p => <[fst p := snd p]> m) l m !! z).
Proof.
  revert m. induction l as [|[k v] l IH]; intros m Hz; [inversion Hz|].
  simpl in *. destruct (decide (z ∈ List.map fst l)) as [Hin|Hout]; [now apply IH|].
  apply elem_of_cons in Hz as [->|Hz]; [|contradiction].
  rewrite quantity_fold_other by exact Hout. rewrite lookup_insert_eq. eauto.
Qed.

End QuantityMapFacts.

(** X3.  The quantity map of [sort_sizes_with_quantities] has exactly the
    returned sizes as its keys; every quantity in it is non-negative and is
    the quantity some token of that size parsed to; and when several tokens
    give the same size, the quantity of the last one is kept. *)
Theorem sort_sizes_quantity_map
        (sizes_list : string) (sorted : list string) (quantities : gmap string Z) :
  sort_sizes_with_quantities sizes_list = Ok (sorted, quantities) ->
  exists parsed,
    map_result parse_size_and_quantity (size_strings sizes_list) = Ok parsed
    /\ (forall z, z ∈ sorted <-> is_Some (quantities !! z))
    /\ (forall z q, quantities !! z = Some q -> 0 <= q /\ (z, q) ∈ parsed)
    /\ (forall before z q after,
          parsed = (before ++ (z, q) :: after)%list -> z ∉ List.map fst after ->
          quantities !! z = Some q).
Proof.
  unfold sort_sizes_with_quantities.
  destruct (map_result _ _) as [parsed|e] eqn:Em; cbn; [|discriminate].
  intros E. injection E as <- <-. exists parsed. split; [reflexivity|].
  unfold quantity_map. split; [|split].
  - intros z. rewrite sorted_sizes_of_elem. split.
    + apply quantity_fold_key.
    + intros [q Hq]. apply quantity_fold_from in Hq as [Hin|Hq].
      * change (List.map fst parsed) with (fst <$> parsed).
        apply list_elem_of_fmap. now exists (z, q).
      * rewrite lookup_empty in Hq. discriminate.
  - intros z q Hq. apply quantity_fold_from in Hq as [Hin|Hq];
      [|rewrite lookup_empty in Hq; discriminate].
    split; [|exact Hin].
    destruct (map_result_elem _ _ _ _ Em Hin) as (token & _ & Ht).
    exact (parse_quantity_nonneg _ _ _ Ht).
  - intros before z q after -> Hz. now apply quantity_fold_last.
Qed.

Lemma sort_sizes_quantity_map_witness :
  exists parsed,
    map_result parse_size_and_quantity (size_strings "M-5, L, M-3") = Ok parsed
    /\ (forall z, z ∈ ["M"; "L"] <-> is_Some (quantity_map [("M", 5); ("L", 0); ("M", 3)] !! z))
    /\ (forall z q, quantity_map [("M", 5); ("L", 0); ("M", 3)] !! z = Some q ->
                    0 <= q /\ (z, q) ∈ parsed)
    /\ (forall before z q after,
          parsed = (before ++ (z, q) :: after)%list -> z ∉ List.map fst after ->
          quantity_map [("M", 5); ("L", 0); ("M", 3)] !! z = Some q).
Proof.
  apply (sort_sizes_quantity_map "M-5, L, M-3"). vm_compute. reflexivity.
Defined.

Section SizeOrderFacts.

Lemma nat_leb_trans (a b c : nat) :
  Nat.leb a b = true -> Nat.leb b c = true -> Nat.leb a c = true.
Proof. rewrite !Nat.leb_le. lia. Qed.

Lemma Z_leb_trans (a b c : Z) :
  Z.leb a b = true -> Z.leb b c = true -> Z.leb a c = true.
Proof. rewrite !Z.leb_le. lia. Qed.

Lemma sorted_standard_class (l : list string) (x : nat * string) :
  x ∈ sort_by fst Nat.leb (standard_part l) -> classify (snd x) = Standard (fst x).
Proof.
  rewrite sort_by_perm. destruct x as [i s]. apply standard_part_class.
Qed.

Lemma sorted_numeric_class (l : list string) (x : Z * string) :
  x ∈ sort_by fst Z.leb (numeric_part l) -> classify (snd x) = Numeric (fst x).
Proof.
  rewrite sort_by_perm. destruct x as [n s]. apply numeric_part_class.
Qed.

Lemma sorted_custom_class (l : list string) (s : string) :
  s ∈ sort_by id String.leb (custom_part l) -> classify s = Custom.
Proof. rewrite sort_by_perm. apply custom_part_class. Qed.

Lemma sorted_sizes_of_order (l : list string) :
  StronglySorted (fun a b => size_leb a b = true) (sorted_sizes_of l).
Proof.
  unfold sorted_sizes_of. rewrite partition_sizes_parts. cbv beta iota zeta.
  set (u := unique_from ∅ l).
  apply StronglySorted_app; [|apply StronglySorted_app|].
  - apply (StronglySorted_map (fun x y => Nat.leb (fst x) (fst y) = true)).
    + intros x y Hx Hy Hxy. unfold size_leb.
      now rewrite (sorted_standard_class u x Hx), (sorted_standard_class u y Hy).
    + apply sort_by_StronglySorted; [apply nat_leb_total | apply nat_leb_trans].
  - apply (StronglySorted_map (fun x y => Z.leb (fst x) (fst y) = true)).
    + intros x y Hx Hy Hxy. unfold size_leb.
      now rewrite (sorted_numeric_class u x Hx), (sorted_numeric_class u y Hy).
    + apply sort_by_StronglySorted; [apply Z_leb_total | apply Z_leb_trans].
  - apply (StronglySorted_weaken (fun x y => String.leb (id x) (id y) = true)).
    + intros x y Hx Hy Hxy. unfold size_leb.
      now rewrite (sorted_custom_class u x Hx), (sorted_custom_class u y Hy).
    + apply sort_by_StronglySorted; [apply String.leb_total | apply string_leb_trans].
  - intros a b Ha Hb.
    change (List.map snd ?l) with (snd <$> l) in Ha.
    apply list_elem_of_fmap in Ha as (x & -> & Hx).
    unfold size_leb. rewrite (sorted_numeric_class u x Hx).
    now rewrite (sorted_custom_class u b Hb).
  - intros a b Ha Hb.
    change (List.map snd ?l) with (snd <$> l) in Ha.
    apply list_elem_of_fmap in Ha as (x & -> & Hx).
    unfold size_leb. rewrite (sorted_standard_class u x Hx).
    apply elem_of_app in Hb as [Hb|Hb].
    + change (List.map snd ?l) with (snd <$> l) in Hb.
      apply list_elem_of_fmap in Hb as (y & -> & Hy).
      now rewrite (sorted_numeric_class u y Hy).
    + now rewrite (sorted_custom_class u b Hb).
Qed.

End SizeOrderFacts.

(** X4.  The order of the sizes [sort_sizes_with_quantities] returns: a size
    earlier in the result is never after a later one in the order "standard
    sizes by their place in the standard list, then numeric sizes by
    number, then the remaining sizes alphabetically". *)
Theorem sort_sizes_order
        (sizes_list : string) (sorted : list string) (quantities : gmap string Z)
        (i j : nat) (a b : string) :
  sort_sizes_with_quantities sizes_list = Ok (sorted, quantities) ->
  (i < j)%nat -> sorted !! i = Some a -> sorted !! j = Some b ->
  size_leb a b = true.
Proof.
  unfold sort_sizes_with_quantities.
  destruct (map_result _ _) as [parsed|e]; cbn; [|discriminate].
  intros E. injection E as <- _.
  apply (StronglySorted_lookup (fun a b => size_leb a b = true)).
  apply sorted_sizes_of_order.
Qed.

Lemma sort_sizes_order_witness :
  size_leb "XS" "36" = true /\ size_leb "36" "Petite" = true /\ size_leb "XS" "Petite" = true.
Proof.
  pose proof (sort_sizes_order "Petite, 36-2, XS-1" ["XS"; "36"; "Petite"]
                (quantity_map [("Petite", 0); ("36", 2); ("XS", 1)])) as H.
  split; [|split].
  - apply (H 0%nat 1%nat); [vm_compute; reflexivity | lia | reflexivity | reflexivity].
  - apply (H 1%nat 2%nat); [vm_compute; reflexivity | lia | reflexivity | reflexivity].
  - apply (H 0%nat 2%nat); [vm_compute; reflexivity | lia | reflexivity | reflexivity].
Defined.

Section BlankInput.

Lemma lstrip_all (sp : ascii -> bool) (s : string) :
  sforall sp s = true -> lstrip_by sp s = "".
Proof.
  induction s as [|c s IH]; [reflexivity|]. simpl.
  intros Hs. apply andb_prop in Hs as [-> Hs]. now apply IH.
Qed.

Lemma strip_all_space (s : string) : sforall is_space s = true -> strip s = "".
Proof. intros Hs. unfold strip. now rewrite lstrip_all. Qed.

Lemma split_pieces_blank (s : string) (p : string) :
  sforall blank_or_comma s = true -> p ∈ split "," s -> sforall is_space p = true.
Proof.
  revert p. induction s as [|c s IH]; intros p Hs Hp; simpl in *.
  - apply list_elem_of_singleton in Hp as ->. reflexivity.
  - apply andb_prop in Hs as [Hc Hs].
    destruct (Ascii.eqb_spec c ",") as [->|Hne].
    + apply elem_of_cons in Hp as [->|Hp]; [reflexivity | now apply IH].
    + assert (Hsp : is_space c = true).
      { unfold blank_or_comma in Hc. apply orb_prop in Hc as [Hc|Hc]; [exact Hc|].
        apply Ascii.eqb_eq in Hc. contradiction. }
      destruct (split "," s) as [|h t] eqn:E.
      * apply list_elem_of_singleton in Hp as ->. simpl. now rewrite Hsp.
      * apply elem_of_cons in Hp as [->|Hp].
        -- simpl. rewrite Hsp. apply IH; [exact Hs | now left].
        -- apply IH; [exact Hs | now right].
Qed.

Lemma size_strings_blank (s : string) :
  sforall blank_or_comma s = true -> size_strings s = [].
Proof.
  intros Hs. unfold size_strings.
  assert (Hall : forall p, p ∈ split "," s -> strip p = "").
  { intros p Hp. apply strip_all_space. now apply split_pieces_blank with s. }
  induction (split "," s) as [|p l IH]; [reflexivity|].
  simpl. rewrite (Hall p) by now left. simpl. apply IH.
  intros q Hq. apply Hall. now right.
Qed.

End BlankInput.

(** X5.  A size list with no token in it (empty, or only whitespace and commas)
    sorts to no sizes and no quantities, without an exception; and whenever
    the result holds no size, the input held no token. *)
Theorem sort_sizes_blank_input (sizes_list : string) :
  (sforall blank_or_comma sizes_list = true ->
   sort_sizes_with_quantities sizes_list = Ok ([], ∅))
  /\ (forall quantities,
        sort_sizes_with_quantities sizes_list = Ok ([], quantities) ->
        size_strings sizes_list = [] /\ quantities = ∅).
Proof.
  split.
  - intros Hs. unfold sort_sizes_with_quantities. now rewrite size_strings_blank.
  - intros quantities Hsort.
    pose proof (sort_sizes_elem _ _ _ Hsort) as Hmem.
    revert Hsort. unfold sort_sizes_with_quantities.
    destruct (size_strings sizes_list) as [|token tokens] eqn:E.
    + cbn. intros E'. now inversion E'.
    + intros Hsort. exfalso.
      destruct (map_result _ _) as [parsed|e] eqn:Em; cbn in Hsort; [|discriminate].
      destruct (map_result_elem_inv _ _ _ token Em) as ([z q] & _ & Hq); [now left|].
      assert (Hz : z ∈ @nil string).
      { apply Hmem. exists token, q. split; [now left | exact Hq]. }
      inversion Hz.
Qed.

(** X6.  [clean_value] in text mode (and [clean_text], its specialisation): it
    never raises; the result is a string without surrounding whitespace; a
    missing value, a blank string and the texts "nan" and "NaN" give the
    empty string; and cleaning a cleaned text again changes it only when it
    is "nan" or "NaN", which become empty. *)
Theorem clean_text_is_trimmed `{Runtime} (v default_numeric : value) :
  clean_value v false default_numeric = Ok (VStr (clean_text v))
  /\ strip (clean_text v) = clean_text v
  /\ (isna v = true -> clean_text v = "")
  /\ (forall s, v = VStr s -> strip s = "" \/ s = "nan" \/ s = "NaN" -> clean_text v = "")
  /\ clean_text (VStr (clean_text v))
     = (if String.eqb (clean_text v) "nan" || String.eqb (clean_text v) "NaN"
        then "" else clean_text v).
Proof.
  assert (Htrim : strip (clean_text v) = clean_text v).
  { unfold clean_text. destruct (_ || _); [reflexivity | apply strip_twice]. }
  split; [|split; [exact Htrim|split; [|split]]].
  - unfold clean_value, clean_text. now destruct (_ || _).
  - intros Hna. unfold clean_text. now rewrite Hna.
  - intros s -> Hs. unfold clean_text. simpl.
    destruct Hs as [Hs|[->| ->]]; [|reflexivity..].
    rewrite Hs. simpl. now rewrite !orb_true_r.
  - set (t := clean_text v) in *. unfold clean_text at 1. simpl. rewrite Htrim.
    destruct (String.eqb_spec t "nan") as [Hn|Hn]; [reflexivity|].
    destruct (String.eqb_spec t "NaN") as [HN|HN]; [reflexivity|].
    simpl. destruct (String.eqb_spec t "") as [->|Ht]; reflexivity.
Qed.

Section NumericCleaning.
Context `{Runtime}.

Lemma float_of_text_raises (v : value) (e : exn) :
  float_of_text v = Raise e -> e = ValueError.
Proof.
  destruct v as [|z|f|s]; simpl.
  - intros E. now inversion E.
  - apply py_float_raises.
  - discriminate.
  - apply py_float_raises.
Qed.

Lemma quot_whole (q : Q) (j : Z) :
  (q == inject_Z j)%Q -> Z.quot (Qnum q) (Z.pos (Qden q)) = j.
Proof.
  destruct q as [n d]. unfold Qeq. simpl. intros E.
  rewrite Z.mul_1_r in E. subst n. apply Z.quot_mul. lia.
Qed.

Lemma not_equal_not_whole (q : Q) :
  float_eqb (Finite q) (Finite (inject_Z (Z.quot (Qnum q) (Z.pos (Qden q))))) = false ->
  ~ whole q.
Proof.
  intros Hne [j Hj]. rewrite (quot_whole q j Hj) in Hne.
  unfold float_eqb, float_leb in Hne.
  assert (H1 : Qle_bool q (inject_Z j) = true) by (apply Qle_bool_iff; rewrite Hj; apply Qle_refl).
  assert (H2 : Qle_bool (inject_Z j) q = true) by (apply Qle_bool_iff; rewrite Hj; apply Qle_refl).
  rewrite H1, H2 in Hne. discriminate.
Qed.
End NumericCleaning.

(** X7.  [clean_value] in numeric mode.  What it returns is the default, an
    integer, or a finite float that is not a whole number (a whole float is
    always turned into an integer); a missing or blank value gives the
    default; and the only exception it lets through is [OverflowError], for a
    value that reads as an infinity. *)
Theorem clean_value_numeric_result `{Runtime} (v default_numeric : value) :
  (forall r, clean_value v true default_numeric = Ok r ->
             r = default_numeric \/ (exists i, r = VInt i)
             \/ (exists q, r = VFloat (Finite q) /\ ~ whole q))
  /\ (forall e, clean_value v true default_numeric = Raise e ->
                e = OverflowError
                /\ (float_of_text v = Ok PosInf \/ float_of_text v = Ok NegInf))
  /\ (isna v = true \/ str_is_blank v = true ->
      clean_value v true default_numeric = Ok default_numeric).
Proof.
  unfold clean_value. split; [|split].
  - intros r. destruct (_ || _); [intros E; inversion E; auto|].
    destruct (float_of_text v) as [f|e] eqn:Ef; cbn.
    + destruct f as [q| | |]; cbn; try discriminate.
      * destruct (float_eqb _ _) eqn:Eq; intros E; inversion E; subst.
        -- right. left. eauto.
        -- right. right. exists q. split; [reflexivity | now apply not_equal_not_whole].
      * intros E. inversion E. auto.
    + rewrite (float_of_text_raises _ _ Ef). cbn. intros E. inversion E. auto.
  - intros e. destruct (_ || _); [discriminate|].
    destruct (float_of_text v) as [f|e'] eqn:Ef; cbn.
    + destruct f as [q| | |]; cbn; try discriminate.
      * destruct (float_eqb _ _); discriminate.
      * intros E. inversion E. auto.
      * intros E. inversion E. auto.
    + rewrite (float_of_text_raises _ _ Ef). cbn. discriminate.
  - intros [Hna|Hb].
    + now rewrite Hna.
    + rewrite Hb. now rewrite !orb_true_r.
Qed.

End SizeListProofs.

(* ===================================================================== *)
(** * Column mapper: the spelling tables, similarity and content detection *)
(* ===================================================================== *)

Module ColumnTableProofs.
Import Py Pandas Utils ColumnMapper UtilsColumns Props.
Import SizeTokenProofs SortSizesProofs VariantProofs ComparePriceProofs MapperLemmas MapperProofs DescriptionProofs SizeListProofs.

Section LoweredColumns.

Lemma actual_columns_lower_from (cols : list string) (m : gmap string string) (k c : string) :
  fold_left (fun m col => <[strip (lower col) := col]> m) cols m !! k = Some c ->
  (c ∈ cols /\ strip (lower c) = k) \/ m !! k = Some c.
Proof.
  revert m. induction cols as [|col cols IH]; intros m; [now right|].
  simpl. intros Hl. destruct (IH _ Hl) as [[Hin Hk]|Hm].
  - left. split; [now right | exact Hk].
  - destruct (decide (strip (lower col) = k)) as [Heq|Hne].
    + rewrite <- Heq, lookup_insert_eq in Hm. injection Hm as ->.
      left. split; [now left | exact Heq].
    + rewrite lookup_insert_ne in Hm by exact Hne. now right.
Qed.

Lemma lowered_key_stays (cols : list string) (m : gmap string string) (k : string) :
  is_Some (m !! k) ->
  is_Some (fold_left (fun m col => <[strip (lower col) := col]> m) cols m !! k).
Proof.
  revert m. induction cols as [|col cols IH]; intros m Hk; [exact Hk|].
  simpl. apply IH. apply lookup_insert_is_Some.
  destruct (decide (strip (lower col) = k)); [now left | now right].
Qed.

Lemma actual_columns_lower_key (cols : list string) (m : gmap string string) (c : string) :
  c ∈ cols ->
  is_Some (fold_left (fun m col => <[strip (lower col) := col]> m) cols m
           !! strip (lower c)).
Proof.
  revert m. induction cols as [|col cols IH]; intros m Hc; [inversion Hc|].
  simpl. apply elem_of_cons in Hc as [->|Hc]; [|now apply IH].
  apply lowered_key_stays. rewrite lookup_insert_eq. eauto.
Qed.

(** The dictionary of the lower-cased, trimmed column names: every entry
    is a column under its normalised name, and every column's normalised
    name has an entry. *)
Lemma actual_columns_lower_sound (cols : list string) (k c : string) :
  actual_columns_lower cols !! k = Some c -> c ∈ cols /\ strip (lower c) = k.
Proof.
  intros Hl. apply actual_columns_lower_from in Hl as [Hl|Hl]; [exact Hl|].
  rewrite lookup_empty in Hl. discriminate.
Qed.

Lemma actual_columns_lower_complete (cols : list string) (c : string) :
  c ∈ cols -> is_Some (actual_columns_lower cols !! strip (lower c)).
Proof. apply actual_columns_lower_key. Qed.

End LoweredColumns.

Section SpellingTable.
Variable lowered : gmap string string.

Let step (mapping : gmap string string) (entry : string * list string) :=
  match first_spelling lowered (snd entry) with
  | Some col => <[fst entry := col]> mapping
  | None => mapping
  end.

Lemma first_spelling_sound (variants : list string) (c : string) :
  first_spelling lowered variants = Some c ->
  exists before variant after,
    variants = (before ++ variant :: after)%list
    /\ (forall u, u ∈ before -> lowered !! lower u = None)
    /\ lowered !! lower variant = Some c.
Proof.
  induction variants as [|v variants IH]; [discriminate|]. simpl.
  destruct (lowered !! lower v) as [col|] eqn:E.
  - intros E'. injection E' as ->. exists [], v, variants.
    split; [reflexivity|]. split; [|exact E]. intros u Hu. inversion Hu.
  - intros Hf. destruct (IH Hf) as (before & variant & after & -> & Hb & Hv).
    exists (v :: before), variant, after. split; [reflexivity|]. split; [|exact Hv].
    intros u Hu. apply elem_of_cons in Hu as [->|Hu]; [exact E | now apply Hb].
Qed.

Lemma first_spelling_complete (variants : list string) (variant : string) :
  variant ∈ variants -> is_Some (lowered !! lower variant) ->
  is_Some (first_spelling lowered variants).
Proof.
  induction variants as [|v variants IH]; intros Hin Hv; [inversion Hin|]. simpl.
  destruct (lowered !! lower v) as [col|] eqn:E; [eauto|].
  apply elem_of_cons in Hin as [->|Hin].
  - rewrite E in Hv. destruct Hv as [? Hv]. discriminate.
  - now apply IH.
Qed.

Lemma spelling_fold_other (table : list (string * list string))
      (m : gmap string string) (f : string) :
  f ∉ List.map fst table -> fold_left step table m !! f = m !! f.
Proof.
  revert m. induction table as [|[k vs] table IH]; intros m Hf; [reflexivity|].
  simpl in *. rewrite IH by (intros Hin; apply Hf; now right).
  unfold step. simpl. destruct (first_spelling lowered vs); [|reflexivity].
  apply lookup_insert_ne. intros ->. apply Hf. now left.
Qed.

Lemma spelling_fold_entry (table : list (string * list string))
      (m : gmap string string) (f : string) (variants : list string) :
  NoDup (List.map fst table) -> (f, variants) ∈ table ->
  fold_left step table m !! f
  = match first_spelling lowered variants with
    | Some c => Some c
    | None => m !! f
    end.
Proof.
  revert m. induction table as [|[k vs] table IH]; intros m Hnd Hin; [inversion Hin|].
  simpl in *. apply NoDup_cons in Hnd as [Hk Hnd].
  apply elem_of_cons in Hin as [Heq|Hin].
  - injection Heq as <- <-. rewrite spelling_fold_other by exact Hk.
    unfold step. simpl. destruct (first_spelling lowered variants); [|reflexivity].
    apply lookup_insert_eq.
  - rewrite (IH _ Hnd Hin). destruct (first_spelling lowered variants); [reflexivity|].
    unfold step. simpl. destruct (first_spelling lowered vs); [|reflexivity].
    apply lookup_insert_ne. intros ->. apply Hk.
    change (List.map fst table) with (fst <$> table).
    apply list_elem_of_fmap. now exists (f, variants).
Qed.

Lemma spelling_fold_lookup (table : list (string * list string)) (f c : string) :
  NoDup (List.map fst table) ->
  fold_left step table ∅ !! f = Some c
  <-> exists variants, (f, variants) ∈ table /\ first_spelling lowered variants = Some c.
Proof.
  intros Hnd. split.
  - intros Hl. destruct (decide (f ∈ List.map fst table)) as [Hin|Hout].
    + change (List.map fst table) with (fst <$> table) in Hin.
      apply list_elem_of_fmap in Hin as ([k vs] & -> & Hin). simpl in *.
      rewrite (spelling_fold_entry _ _ _ _ Hnd Hin) in Hl.
      exists vs. split; [exact Hin|].
      destruct (first_spelling lowered vs); [exact Hl|].
      rewrite lookup_empty in Hl. discriminate.
    + rewrite spelling_fold_other, lookup_empty in Hl by exact Hout. discriminate.
  - intros (variants & Hin & Hf). rewrite (spelling_fold_entry _ _ _ _ Hnd Hin). now rewrite Hf.
Qed.
End SpellingTable.

Section ExactMatching.

(** What the two nested loops over a table of accepted spellings compute,
    for a table without repeated field names. *)
Lemma spelling_table_match (table : list (string * list string)) (cols : list string)
      (f : string) :
  NoDup (List.map fst table) ->
  let mapping : gmap string string :=
    fold_left
      (fun (mapping : gmap string string) entry =>
         match first_spelling (actual_columns_lower cols) (snd entry) with
         | Some col => <[fst entry := col]> mapping
         | None => mapping
         end) table ∅ in
  (forall c, mapping !! f = Some c ->
     c ∈ cols
     /\ exists variants before variant after,
         (f, variants) ∈ table
         /\ variants = (before ++ variant :: after)%list
         /\ strip (lower c) = lower variant
         /\ forall u col, u ∈ before -> col ∈ cols -> strip (lower col) <> lower u)
  /\ (forall variants variant col,
        (f, variants) ∈ table -> variant ∈ variants -> col ∈ cols ->
        strip (lower col) = lower variant -> is_Some (mapping !! f)).
Proof.
  intros Hnd mapping. split.
  - intros c Hc. apply (spelling_fold_lookup _ table f c Hnd) in Hc as (variants & Hin & Hf).
    apply first_spelling_sound in Hf as (before & variant & after & -> & Hb & Hv).
    apply actual_columns_lower_sound in Hv as [Hc Hk].
    split; [exact Hc|]. exists (before ++ variant :: after)%list, before, variant, after.
    repeat split; try assumption.
    intros u col Hu Hcol Heq.
    destruct (actual_columns_lower_complete cols col Hcol) as [c' Hc'].
    rewrite Heq, (Hb u Hu) in Hc'. discriminate.
  - intros variants variant col Hin Hv Hcol Heq.
    assert (Hs : is_Some (first_spelling (actual_columns_lower cols) variants)).
    { apply first_spelling_complete with variant; [exact Hv|].
      rewrite <- Heq. now apply actual_columns_lower_complete. }
    destruct Hs as [c Hc]. exists c.
    apply (spelling_fold_lookup _ table f c Hnd). eauto.
Qed.

Lemma exact_match_table (df : DataFrame) (f : string) :
  (forall c, _exact_match df !! f = Some c ->
     c ∈ columns df
     /\ exists variants before variant after,
         (f, variants) ∈ standard_variants
         /\ variants = (before ++ variant :: after)%list
         /\ strip (lower c) = lower variant
         /\ forall u col, u ∈ before -> col ∈ columns df -> strip (lower col) <> lower u)
  /\ (forall variants variant col,
        (f, variants) ∈ standard_variants -> variant ∈ variants -> col ∈ columns df ->
        strip (lower col) = lower variant -> is_Some (_exact_match df !! f)).
Proof.
  apply (spelling_table_match standard_variants (columns df) f).
  apply (bool_decide_unpack _). vm_compute. reflexivity.
Qed.

End ExactMatching.

(** X8.  The exact pass of the column mapper.  A field it maps is a standard
    field, mapped to a column of the table whose lower-cased, trimmed name
    is one of the field's accepted spellings, and no column matches a
    spelling listed before that one; and a field is mapped as soon as some
    column matches one of its spellings. *)
Theorem exact_match_sound_and_complete (df : DataFrame) (f : string) :
  (forall c, _exact_match df !! f = Some c ->
     f ∈ standard_fields /\ c ∈ columns df
     /\ exists variants before variant after,
         (f, variants) ∈ standard_variants
         /\ variants = (before ++ variant :: after)%list
         /\ strip (lower c) = lower variant
         /\ forall u col, u ∈ before -> col ∈ columns df -> strip (lower col) <> lower u)
  /\ (forall variants variant col,
        (f, variants) ∈ standard_variants -> variant ∈ variants -> col ∈ columns df ->
        strip (lower col) = lower variant -> is_Some (_exact_match df !! f)).
Proof.
  destruct (exact_match_table df f) as [Hsound Hcomplete].
  split; [|exact Hcomplete].
  intros c Hc. split; [exact (exact_match_fields df f c Hc)|]. exact (Hsound c Hc).
Qed.

(** X9.  [normalize_column_names] obeys the same rule over its own table of
    spellings: a standard name is mapped only to a column whose lower-cased,
    trimmed name is one of its spellings, the earliest listed spelling that
    some column matches, and it is mapped as soon as some column matches. *)
Theorem normalize_column_names_sound_and_complete (df : DataFrame) (f : string) :
  (forall c, normalize_column_names df !! f = Some c ->
     c ∈ columns df
     /\ exists variants before variant after,
         (f, variants) ∈ column_variants
         /\ variants = (before ++ variant :: after)%list
         /\ strip (lower c) = lower variant
         /\ forall u col, u ∈ before -> col ∈ columns df -> strip (lower col) <> lower u)
  /\ (forall variants variant col,
        (f, variants) ∈ column_variants -> variant ∈ variants -> col ∈ columns df ->
        strip (lower col) = lower variant -> is_Some (normalize_column_names df !! f)).
Proof.
  apply (spelling_table_match column_variants (columns df) f).
  apply (bool_decide_unpack _). vm_compute. reflexivity.
Qed.

Section MapperAccounts.
Context `{Runtime}.

Lemma exact_match_columns (df : DataFrame) (f c : string) :
  _exact_match df !! f = Some c -> c ∈ columns df.
Proof. intros Hc. exact (proj1 (proj1 (exact_match_table df f) c Hc)). Qed.

Lemma unmapped_after_exact_columns (df : DataFrame) (c : string) :
  c ∈ unmapped_after_exact df -> c ∈ columns df.
Proof. unfold unmapped_after_exact. intros Hc. now apply filter_elem in Hc as [? _]. Qed.

Lemma remaining_unmapped_columns (df : DataFrame) (c : string) :
  c ∈ remaining_unmapped df -> c ∈ columns df.
Proof.
  unfold remaining_unmapped. cbv zeta. intros Hc. apply filter_elem in Hc as [Hc _].
  now apply unmapped_after_exact_columns.
Qed.

Lemma in_values_false (col : string) (d : gmap string string) :
  in_values col d = false <-> forall k, d !! k <> Some col.
Proof.
  rewrite <- not_true_iff_false, in_values_true. split.
  - intros Hn k Hk. apply Hn. eauto.
  - intros Hn [k Hk]. exact (Hn k Hk).
Qed.
End MapperAccounts.

(** X10.  [analyze_columns] accounts for every column.  A column is reported
    unmapped exactly when it is a column of the table that no field is
    mapped to; and every column a field is mapped to is a column of the
    table and has a confidence score, the field being a standard field or
    one of the five names the content pass assigns. *)
Theorem analyze_columns_accounts_for_columns `{Runtime} (df : DataFrame) :
  let r := analyze_columns df in
  (forall c, c ∈ unmapped_columns r
             <-> c ∈ columns df /\ forall f, base_mapping r !! f <> Some c)
  /\ (forall f c, base_mapping r !! f = Some c ->
        c ∈ columns df /\ is_Some (confidence_scores r !! c)
        /\ (f ∈ standard_fields \/ f ∈ content_fields)).
Proof.
  unfold analyze_columns, analysis, update; cbv zeta;
    cbn [base_mapping confidence_scores unmapped_columns exact_mapping fuzzy_mapping
         fuzzy_confidence content_mapping content_confidence final_mapping final_unmapped
         final_confidence].
  pose proof (fuzzy_pass_ok df) as Hfz. pose proof (content_pass_ok df) as Hct.
  pose proof (unmapped_after_exact_ok df) as Hgiven.
  pose proof (remaining_unmapped_ok df) as Hrest.
  split.
  - intros c. rewrite filter_elem, negb_true_iff, in_values_false. reflexivity.
  - intros f c Hfc. apply lookup_union_Some_raw in Hfc as [Hc|[_ Hfc]].
    { destruct (proj1 Hct f c Hc) as ((Hf & _) & Hin & Hs).
      split; [now apply remaining_unmapped_columns|]. split; [|now right].
      destruct Hs as [q Hq]. exists q. now apply lookup_union_Some_l. }
    apply lookup_union_Some_raw in Hfc as [Hc|[_ Hc]].
    + destruct (proj1 Hfz f c Hc) as ((Hf & _) & Hin & Hs).
      split; [now apply unmapped_after_exact_columns|]. split; [|now left].
      destruct (score_fuzzy _ _ _ _ _ Hfz Hct Hrest f c Hc) as (q & Hq & _). eauto.
    + split; [exact (exact_match_columns df f c Hc)|]. split.
      * rewrite (score_exact _ _ _ _ _ Hfz Hct Hgiven Hrest f c Hc). eauto.
      * left. exact (exact_match_fields df f c Hc).
Qed.

Section SimilarityFacts.

Lemma ratio_nonneg (a b : string) : (0 <= Difflib.ratio a b)%Q.
Proof.
  unfold Difflib.ratio.
  destruct (_ =? 0)%nat; [unfold Qle; simpl; lia|].
  rewrite Qred_correct. unfold Qle. simpl. lia.
Qed.

Lemma qmax_ge_r (x y : Q) : (y <= qmax x y)%Q.
Proof.
  unfold qmax. destruct (Qlt_le_dec x y) as [Hlt|Hle]; [apply Qle_refl | exact Hle].
Qed.

Lemma qmax_ge_l (x y : Q) : (x <= qmax x y)%Q.
Proof.
  unfold qmax. destruct (Qlt_le_dec x y) as [Hlt|Hle]; [now apply Qlt_le_weak | apply Qle_refl].
Qed.

Lemma contains_empty (s : string) : contains "" s = true.
Proof. destruct s; reflexivity. Qed.

Lemma similarity_nonneg (str1 str2 : string) : (0 <= _calculate_similarity str1 str2)%Q.
Proof.
  unfold _calculate_similarity.
  pose proof (ratio_nonneg (clean_name str1) (clean_name str2)) as Hr.
  destruct (_ || _); [|exact Hr].
  eapply Qle_trans; [exact Hr | apply qmax_ge_l].
Qed.

Lemma similarity_boost (str1 str2 : string) :
  contains (clean_name str2) (clean_name str1)
  || contains (clean_name str1) (clean_name str2) = true ->
  (0.8 <= _calculate_similarity str1 str2)%Q.
Proof. intros Hc. unfold _calculate_similarity. rewrite Hc. apply qmax_ge_r. Qed.

Lemma similarity_separators (str1 str2 : string) :
  clean_name str1 = "" -> (0.8 <= _calculate_similarity str1 str2)%Q.
Proof.
  intros Hempty. apply similarity_boost. rewrite Hempty, contains_empty. apply orb_true_r.
Qed.

End SimilarityFacts.

(** X11.  The similarity of two names lies between 0 and 1; it is at least 0.8
    as soon as one name, cleaned of underscores, hyphens and whitespace,
    occurs inside the other; and so it is at least 0.8 for a name that
    consists of such separators only, whatever the other name. *)
Theorem similarity_range (str1 str2 : string) :
  (0 <= _calculate_similarity str1 str2)%Q
  /\ (_calculate_similarity str1 str2 <= 1)%Q
  /\ (contains (clean_name str2) (clean_name str1)
      || contains (clean_name str1) (clean_name str2) = true ->
      (0.8 <= _calculate_similarity str1 str2)%Q)
  /\ (clean_name str1 = "" -> (0.8 <= _calculate_similarity str1 str2)%Q).
Proof.
  split; [apply similarity_nonneg|].
  split; [apply similarity_le_1|].
  split; [apply similarity_boost | apply similarity_separators].
Qed.

Section DetectorFacts.

Lemma count_if_le {A} (p : A -> bool) (l : list A) : (count_if p l <= length l)%nat.
Proof. unfold count_if. apply filter_length_le. Qed.

Lemma fraction_range (hits : nat) (values : list string) :
  (hits <= length values)%nat -> (0 <= fraction hits values)%Q /\ (fraction hits values <= 1)%Q.
Proof.
  intros Hle. unfold fraction. destruct values as [|v values]; [split; unfold Qle; simpl; lia|].
  set (n := length (v :: values)) in *.
  assert (Hn : n <> O) by (unfold n; simpl; lia).
  split; unfold Qle; simpl; [lia|].
  rewrite Z.mul_1_r, Z.mul_1_l.
  rewrite <- (positive_nat_Z (Pos.of_nat n)), Nat2Pos.id by exact Hn. lia.
Qed.

Lemma fraction_empty (hits : nat) : fraction hits [] = 0%Q.
Proof. reflexivity. Qed.

End DetectorFacts.

Section BlankSamples.

Lemma filter_all_blank (sample_values : list string) :
  (forall v, v ∈ sample_values -> strip v = "") ->
  List.filter (fun v => negb (String.eqb (strip v) "")) sample_values = [].
Proof.
  induction sample_values as [|v l IH]; intros Hall; [reflexivity|].
  simpl. rewrite (Hall v) by now left. simpl. apply IH.
  intros u Hu. apply Hall. now right.
Qed.

Lemma qmin_le_l (x y : Q) : (qmin x y <= x)%Q.
Proof.
  unfold qmin. destruct (Qlt_le_dec y x) as [Hlt|Hle]; [now apply Qlt_le_weak | apply Qle_refl].
Qed.

Lemma qmin_nonneg (x y : Q) : (0 <= x)%Q -> (0 <= y)%Q -> (0 <= qmin x y)%Q.
Proof. intros Hx Hy. unfold qmin. now destruct (Qlt_le_dec y x). Qed.

End BlankSamples.

(** X12.  Content detection.  The detected type fixes the confidence: the result
    is one of six (type, confidence) pairs or (None, 0).  Samples that are
    all blank are detected as nothing, whatever the column is called.  And
    each of the six detectors returns a share between 0 and 1. *)
Theorem content_detection_table (sample_values : list string) (column_name : string) :
  _detect_column_type sample_values column_name
  ∈ [ (Some "variant price", 0.8%Q); (Some "published", 0.7%Q); (Some "size", 0.7%Q);
      (Some "colour", 0.7%Q); (Some "product category", 0.6%Q);
      (Some "product code", 0.8%Q); (None, 0%Q) ]
  /\ ((forall v, v ∈ sample_values -> strip v = "") ->
      _detect_column_type sample_values column_name = (None, 0%Q))
  /\ (forall score,
        score ∈ [ _is_price_column sample_values; _is_status_column sample_values;
                  _is_size_column sample_values; _is_color_column sample_values;
                  _is_category_column sample_values;
                  _is_code_column sample_values column_name ] ->
        (0 <= score)%Q /\ (score <= 1)%Q).
Proof.
  split; [apply detect_column_type_cases|split].
  - intros Hall. unfold _detect_column_type. rewrite filter_all_blank by exact Hall.
    cbn [List.map]. unfold _is_code_column.
    destruct (existsb _ name_hints); reflexivity.
  - intros score Hs.
    repeat (apply elem_of_cons in Hs as [->|Hs]);
      try (apply fraction_range, count_if_le).
    + unfold _is_code_column.
      set (bonus := if existsb _ name_hints then 0.3%Q else 0%Q).
      set (base := fraction _ sample_values).
      assert (Hbase : (0 <= base)%Q) by (apply fraction_range, count_if_le).
      assert (Hbonus : (0 <= bonus)%Q)
        by (unfold bonus; destruct (existsb _ name_hints); unfold Qle; simpl; lia).
      split; [|eapply Qle_trans; [apply qmin_le_l | unfold Qle; simpl; lia]].
      apply qmin_nonneg; [unfold Qle; simpl; lia|].
      rewrite <- (Qplus_0_r 0). now apply Qplus_le_compat.
    + inversion Hs.
Qed.

End ColumnTableProofs.

(* ===================================================================== *)
(** * Column mapper: when the fuzzy pass must match *)
(* ===================================================================== *)

Module FuzzyMatchProofs.
Import Py Pandas Utils ColumnMapper Props.
Import SizeTokenProofs SortSizesProofs VariantProofs ComparePriceProofs MapperLemmas MapperProofs DescriptionProofs SizeListProofs ColumnTableProofs.

Section SelfMatch.
Import Difflib.

Lemma dp_row_lookup (ai : ascii) (b : list ascii) (diag : nat) (row : list nat)
      (t : nat) (bt : ascii) :
  length row = length b -> b !! t = Some bt ->
  dp_row ai b diag row !! t
  = Some (if Ascii.eqb ai bt
          then S (match t with O => diag | S t' => default O (row !! t') end)
          else O).
Proof.
  revert diag row t. induction b as [|b0 b IH]; intros diag row t Hlen Ht.
  - rewrite lookup_nil in Ht. discriminate.
  - destruct row as [|old row]; [discriminate|]. simpl in Hlen.
    destruct t as [|t]; simpl in *.
    + injection Ht as ->. reflexivity.
    + rewrite (IH old row t) by (lia || assumption).
      destruct t; reflexivity.
Qed.

Lemma scan_row_app (i j : nat) (l1 l2 : list nat) (best : nat * nat * nat) :
  scan_row i j (l1 ++ l2) best = scan_row i (j + length l1) l2 (scan_row i j l1 best).
Proof.
  revert j best. induction l1 as [|k l1 IH]; intros j best; simpl.
  - now rewrite Nat.add_0_r.
  - destruct best as [[bi bj] bs]. rewrite IH. f_equal. lia.
Qed.

Lemma scan_row_keeps (i j : nat) (row : list nat) (bi bj bs : nat) :
  (forall k, k ∈ row -> (k <= bs)%nat) -> scan_row i j row (bi, bj, bs) = (bi, bj, bs).
Proof.
  revert j. induction row as [|k row IH]; intros j Hall; [reflexivity|].
  simpl. assert (Hk : (k <= bs)%nat) by (apply Hall; now left).
  apply Nat.ltb_ge in Hk. rewrite Hk. apply IH. intros k' Hk'. apply Hall. now right.
Qed.

Lemma diag_row_start (a : list ascii) : diag_row a O (repeat O (length a)).
Proof.
  split; [apply repeat_length|split].
  - intros t k Hk. apply list_elem_of_lookup_2, list_elem_of_In, repeat_spec in Hk. lia.
  - discriminate.
Qed.

Lemma diag_row_step (a : list ascii) (i : nat) (ai : ascii) (row : list nat) :
  a !! i = Some ai -> diag_row a i row -> diag_row a (S i) (dp_row ai a O row).
Proof.
  intros Hai (Hlen & Hbound & Hdiag).
  split; [now apply dp_row_length|split].
  - intros t k Hk.
    destruct (a !! t) as [bt|] eqn:Ebt.
    + rewrite (dp_row_lookup ai a O row t bt Hlen Ebt) in Hk. injection Hk as <-.
      destruct (Ascii.eqb ai bt); [|lia].
      destruct t as [|t']; [lia|].
      destruct (row !! t') as [k'|] eqn:Ek'; simpl; [|lia].
      destruct (Hbound t' k' Ek'). lia.
    + apply lookup_lt_Some in Hk. rewrite dp_row_length in Hk by exact Hlen.
      apply lookup_ge_None in Ebt. lia.
  - intros i' Hi'. injection Hi' as <-.
    rewrite (dp_row_lookup ai a O row i ai Hlen Hai), Ascii.eqb_refl.
    destruct i as [|i']; [reflexivity|].
    now rewrite (Hdiag i' eq_refl).
Qed.

Lemma scan_diag_row (a : list ascii) (i : nat) (row : list nat) :
  diag_row a (S i) row -> scan_row i O row (O, O, i) = (O, O, S i).
Proof.
  intros (Hlen & Hbound & Hdiag). specialize (Hdiag i eq_refl).
  rewrite <- (take_drop i row).
  assert (Hlt : (i < length row)%nat) by (eapply lookup_lt_Some; exact Hdiag).
  rewrite (drop_S row (S i) i Hdiag).
  rewrite scan_row_app, scan_row_keeps.
  - rewrite length_take, Nat.min_l by lia. simpl.
    assert (E : (i <? S i)%nat = true) by (apply Nat.ltb_lt; lia). rewrite E.
    replace (i + 1 - S i)%nat with O by lia.
    apply scan_row_keeps. intros k Hk.
    apply list_elem_of_lookup in Hk as [t Ht]. rewrite lookup_drop in Ht.
    destruct (Hbound _ _ Ht). lia.
  - intros k Hk. apply list_elem_of_lookup in Hk as [t Ht].
    assert (t < i)%nat.
    { apply lookup_lt_Some in Ht. rewrite length_take in Ht. lia. }
    rewrite lookup_take_lt in Ht by lia. destruct (Hbound _ _ Ht). lia.
Qed.

Lemma longest_loop_self (a suffix : list ascii) (i : nat) (row : list nat) :
  drop i a = suffix -> (i <= length a)%nat -> diag_row a i row ->
  longest_loop suffix i a row (O, O, i) = (O, O, length a).
Proof.
  revert i row. induction suffix as [|ai suffix IH]; intros i row Hdrop Hi Hrow.
  - simpl. assert (length (drop i a) = O) by now rewrite Hdrop.
    rewrite length_drop in *. repeat f_equal. lia.
  - simpl.
    assert (Hai : a !! i = Some ai).
    { rewrite <- (Nat.add_0_r i), <- lookup_drop, Hdrop. reflexivity. }
    pose proof (diag_row_step a i ai row Hai Hrow) as Hnext.
    rewrite (scan_diag_row a i _ Hnext).
    apply IH; [|apply lookup_lt_Some in Hai; lia|exact Hnext].
    rewrite (drop_S a ai i Hai) in Hdrop. now injection Hdrop.
Qed.

Lemma find_longest_match_self (a : list ascii) :
  find_longest_match a a = (O, O, length a).
Proof.
  unfold find_longest_match.
  apply (longest_loop_self a a O); [reflexivity | lia | apply diag_row_start].
Qed.

Lemma matches_self (a : list ascii) : matches a a = length a.
Proof.
  unfold matches. destruct a as [|c a]; [reflexivity|].
  cbn [matches_fuel length]. rewrite find_longest_match_self.
  cbn [length Nat.eqb].
  replace (0 + S (length a) <? S (length a))%nat with false
    by (symmetry; apply Nat.ltb_ge; lia).
  cbn [Nat.ltb Nat.leb andb]. lia.
Qed.

Lemma ratio_self (s : string) : ratio s s = 1%Q.
Proof.
  unfold ratio. rewrite matches_self.
  set (n := length (list_ascii_of_string s)).
  destruct (Nat.eqb_spec (n + n) 0) as [E|E]; [reflexivity|].
  change 1%Q with (Qred 1). apply Qred_complete.
  unfold Qeq. simpl. rewrite Z.mul_1_r, Z.mul_1_l.
  rewrite <- (positive_nat_Z (Pos.of_nat _)), Nat2Pos.id by exact E. lia.
Qed.

End SelfMatch.

Section Eventually.
Context {A B : Type} (G T : A -> Prop) (f : A -> B -> A).

(** A loop that keeps [G], keeps [T] once it holds, and establishes [T]
    at one of its elements, ends with [T]. *)
Lemma fold_left_eventually (l : list B) (a : A) (x0 : B) :
  x0 ∈ l -> G a ->
  (forall b x, x ∈ l -> G b -> G (f b x)) ->
  (forall b x, x ∈ l -> G b -> T b -> T (f b x)) ->
  (forall b, G b -> T (f b x0)) ->
  T (fold_left f l a).
Proof.
  intros Hin Ha HG HT Hx0.
  assert (Hgen : forall l' a', (forall x, x ∈ l' -> x ∈ l) -> G a' ->
                               T a' \/ x0 ∈ l' -> T (fold_left f l' a')).
  { induction l' as [|x l' IH]; intros a' Hsub Ha' Hor.
    - destruct Hor as [Ht|Hx]; [exact Ht | inversion Hx].
    - simpl. apply IH.
      + intros y Hy. apply Hsub. now right.
      + apply HG; [apply Hsub; now left | exact Ha'].
      + destruct Hor as [Ht|Hx].
        * left. apply HT; [apply Hsub; now left | exact Ha' | exact Ht].
        * apply elem_of_cons in Hx as [->|Hx]; [left; now apply Hx0 | now right]. }
  apply Hgen; auto.
Qed.
End Eventually.

Section BestMatch.
Variables (column : string) (existing : gmap string string).

Let sim (variant : string) : Q := _calculate_similarity (lower column) (lower variant).

Let inner (name : string) (best : option string * Q) (variant : string) :=
  if qgtb (sim variant) (snd best) && qgtb (sim variant) 0.7
  then (Some name, sim variant) else best.

Let outer (best : option string * Q) (entry : string * list string) :=
  if in_keys (fst entry) existing then best
  else best_over_variants column (fst entry) (snd entry) best.

Lemma qgtb_false (x y : Q) : qgtb x y = false -> (x <= y)%Q.
Proof. unfold qgtb. destruct (Qlt_le_dec y x); [discriminate | auto]. Qed.

Lemma qgtb_lt (x y : Q) : (y < x)%Q -> qgtb x y = true.
Proof.
  intros Hlt. unfold qgtb. destruct (Qlt_le_dec y x) as [_|Hle]; [reflexivity|].
  destruct (Qlt_not_le _ _ Hlt Hle).
Qed.

Lemma inner_shape (lo : Q) (name variant : string) (best : option string * Q) :
  (lo <= sim variant)%Q -> best_shape lo best -> best_shape lo (inner name best variant).
Proof.
  intros Hlo Hb. unfold inner. destruct (_ && _); [|exact Hb].
  split; [exact Hlo | apply similarity_le_1].
Qed.

(** Once the score is 1 nothing replaces it. *)
Lemma inner_keeps_one (name variant : string) (best : option string * Q) :
  is_Some (fst best) /\ (snd best == 1)%Q ->
  is_Some (fst (inner name best variant)) /\ (snd (inner name best variant) == 1)%Q.
Proof.
  intros [Hs H1]. unfold inner.
  destruct (qgtb (sim variant) (snd best)) eqn:E; [|now split].
  apply qgtb_true in E. rewrite H1 in E.
  destruct (Qlt_not_le _ _ E (similarity_le_1 _ _)).
Qed.

Lemma inner_reaches_one (lo : Q) (name variant : string) (best : option string * Q) :
  (lo <= 1)%Q -> (sim variant == 1)%Q -> best_shape lo best ->
  is_Some (fst (inner name best variant)) /\ (snd (inner name best variant) == 1)%Q.
Proof.
  intros Hlo H1 [Hshape Hle]. unfold inner.
  assert (H07 : qgtb (sim variant) 0.7 = true).
  { apply qgtb_lt. rewrite H1. reflexivity. }
  rewrite H07, andb_true_r.
  destruct (qgtb (sim variant) (snd best)) eqn:E; [simpl; eauto|].
  apply qgtb_false in E. rewrite H1 in E.
  assert (Hone : (snd best == 1)%Q) by (apply Qle_antisym; assumption).
  split; [|exact Hone].
  destruct (fst best); [eauto|]. rewrite Hshape in Hone. discriminate.
Qed.

Lemma inner_takes_first (lo : Q) (name variant : string) (best : option string * Q) :
  (0.8 <= sim variant)%Q -> best_shape lo best ->
  is_Some (fst (inner name best variant)).
Proof.
  intros H08 [Hshape _]. unfold inner.
  destruct (fst best) as [f|] eqn:Ef.
  - destruct (_ && _); [simpl; eauto | rewrite Ef; eauto].
  - assert (E1 : qgtb (sim variant) (snd best) = true).
    { apply qgtb_lt. rewrite Hshape. eapply Qlt_le_trans; [|exact H08]. reflexivity. }
    assert (E2 : qgtb (sim variant) 0.7 = true).
    { apply qgtb_lt. eapply Qlt_le_trans; [|exact H08]. reflexivity. }
    rewrite E1, E2. simpl. eauto.
Qed.

Lemma inner_keeps_some (name variant : string) (best : option string * Q) :
  is_Some (fst best) -> is_Some (fst (inner name best variant)).
Proof. intros Hs. unfold inner. destruct (_ && _); [simpl; eauto | exact Hs]. Qed.

Lemma best_over_variants_fold (name : string) (variants : list string)
      (best : option string * Q) :
  best_over_variants column name variants best = fold_left (inner name) variants best.
Proof. reflexivity. Qed.

Lemma find_best_fold :
  _find_best_fuzzy_match column existing
  = match fst (fold_left outer standard_variants (None, 0%Q)) with
    | Some best_standard =>
        Some (best_standard, snd (fold_left outer standard_variants (None, 0%Q)))
    | None => None
    end.
Proof. reflexivity. Qed.

Lemma best_shape_start (lo : Q) : best_shape lo (None, 0%Q).
Proof. split; [reflexivity | unfold Qle; simpl; lia]. Qed.

Lemma outer_shape (lo : Q) (entry : string * list string) (best : option string * Q) :
  (forall v, v ∈ snd entry -> (lo <= sim v)%Q) ->
  best_shape lo best -> best_shape lo (outer best entry).
Proof.
  intros Hlo Hb. unfold outer. destruct (in_keys _ _); [exact Hb|].
  rewrite best_over_variants_fold.
  apply (fold_left_invariant (best_shape lo)); [exact Hb|].
  intros b v Hv Hbb. apply inner_shape; [now apply Hlo | exact Hbb].
Qed.

Lemma starts_with_refl (s : string) : starts_with s s = true.
Proof. induction s as [|c s IH]; [reflexivity|]. simpl. now rewrite Ascii.eqb_refl. Qed.

Lemma contains_refl (s : string) : contains s s = true.
Proof. destruct s; simpl; [reflexivity|]. now rewrite Ascii.eqb_refl, starts_with_refl. Qed.

Lemma similarity_same_clean (str1 str2 : string) :
  clean_name str1 = clean_name str2 -> _calculate_similarity str1 str2 = 1%Q.
Proof.
  intros E. unfold _calculate_similarity. rewrite E, contains_refl, ratio_self. reflexivity.
Qed.

Lemma outer_keeps_one (entry : string * list string) (best : option string * Q) :
  is_Some (fst best) /\ (snd best == 1)%Q ->
  is_Some (fst (outer best entry)) /\ (snd (outer best entry) == 1)%Q.
Proof.
  intros Hb. unfold outer. destruct (in_keys _ _); [exact Hb|].
  rewrite best_over_variants_fold.
  apply (fold_left_invariant (fun b => is_Some (fst b) /\ (snd b == 1)%Q)); [exact Hb|].
  intros b v _ Hbb. now apply inner_keeps_one.
Qed.

Lemma outer_keeps_some (entry : string * list string) (best : option string * Q) :
  is_Some (fst best) -> is_Some (fst (outer best entry)).
Proof.
  intros Hb. unfold outer. destruct (in_keys _ _); [exact Hb|].
  rewrite best_over_variants_fold.
  apply (fold_left_invariant (fun b => is_Some (fst b))); [exact Hb|].
  intros b v _ Hbb. now apply inner_keeps_some.
Qed.

(** X13.  A column whose name equals an accepted spelling of a still unmapped
  field once both are lower-cased and cleaned of underscores, hyphens and
  whitespace is always fuzzy-matched, to a still unmapped standard field,
  with confidence exactly 1. *)
Theorem fuzzy_match_of_respelled_name (f variant : string) (variants : list string) :
  (f, variants) ∈ standard_variants -> variant ∈ variants -> existing !! f = None ->
  clean_name (lower column) = clean_name (lower variant) ->
  exists f' q,
    _find_best_fuzzy_match column existing = Some (f', q)
    /\ (q == 1)%Q /\ f' ∈ standard_fields /\ existing !! f' = None.
Proof.
  intros Hentry Hvariant Hfree Hclean.
  assert (Hfinal : is_Some (fst (fold_left outer standard_variants (None, 0%Q)))
                   /\ (snd (fold_left outer standard_variants (None, 0%Q)) == 1)%Q).
  { apply (fold_left_eventually (best_shape 0) (fun b : option string * Q => is_Some (fst b) /\ (snd b == 1)%Q) outer standard_variants _ (f, variants)).
    - exact Hentry.
    - apply best_shape_start.
    - intros b entry _ Hb. apply outer_shape; [|exact Hb].
      intros v _. apply similarity_nonneg.
    - intros b entry _ _ Hb. now apply outer_keeps_one.
    - intros b Hb. unfold outer. cbn [fst snd].
      rewrite (proj2 (in_keys_false f existing) Hfree), best_over_variants_fold.
      apply (fold_left_eventually (best_shape 0) (fun b : option string * Q => is_Some (fst b) /\ (snd b == 1)%Q) (inner f) variants _ variant).
      + exact Hvariant.
      + exact Hb.
      + intros b' v _ Hb'. apply inner_shape; [apply similarity_nonneg | exact Hb'].
      + intros b' v _ _ Hb'. now apply inner_keeps_one.
      + intros b' Hb'. apply (inner_reaches_one 0); [unfold Qle; simpl; lia | | exact Hb'].
        unfold sim. now rewrite (similarity_same_clean _ _ Hclean). }
  destruct Hfinal as [[f' Hf'] Hone].
  assert (Hfind : _find_best_fuzzy_match column existing
                  = Some (f', snd (fold_left outer standard_variants (None, 0%Q)))).
  { rewrite find_best_fold, Hf'. reflexivity. }
  exists f', (snd (fold_left outer standard_variants (None, 0%Q))).
  destruct (find_best_fuzzy_match_ok _ _ _ _ Hfind) as (Hstd & Hnone & _).
  auto.
Qed.

(** X14.  A column whose name consists only of underscores, hyphens and
    whitespace is fuzzy-matched as long as one standard field is still
    unmapped: its cleaned name is empty, the empty text occurs inside every
    spelling, and the containment boost lifts every similarity to at least
    0.8. *)
Theorem fuzzy_match_of_separator_name (f : string) :
  clean_name (lower column) = "" -> f ∈ standard_fields -> existing !! f = None ->
  exists f' q,
    _find_best_fuzzy_match column existing = Some (f', q)
    /\ (0.8 <= q)%Q /\ f' ∈ standard_fields /\ existing !! f' = None.
Proof.
  intros Hclean Hf Hfree.
  assert (Hsim : forall v, (0.8 <= sim v)%Q).
  { intros v. unfold sim. now apply similarity_separators. }
  assert (Hentry : exists variant variants,
             (f, variants) ∈ standard_variants /\ variant ∈ variants).
  { unfold standard_fields in Hf. change (List.map fst ?l) with (fst <$> l) in Hf.
    apply list_elem_of_fmap in Hf as ([k vs] & -> & Hin). simpl.
    assert (Hall : Forall (fun e : string * list string => snd e <> []) standard_variants)
      by (apply (bool_decide_unpack _); vm_compute; reflexivity).
    rewrite Forall_forall in Hall. specialize (Hall _ Hin). simpl in Hall.
    destruct vs as [|v vs]; [contradiction|].
    exists v, (v :: vs). split; [exact Hin | now left]. }
  destruct Hentry as (variant & variants & Hentry & Hvariant).
  assert (Hshape : best_shape 0.8 (fold_left outer standard_variants (None, 0%Q))).
  { apply (fold_left_invariant (best_shape 0.8)); [apply best_shape_start|].
    intros b entry _ Hb. apply outer_shape; [|exact Hb]. intros v _. apply Hsim. }
  assert (Hfinal : is_Some (fst (fold_left outer standard_variants (None, 0%Q)))).
  { apply (fold_left_eventually (best_shape 0.8) (fun b : option string * Q => is_Some (fst b)) outer standard_variants _ (f, variants)).
    - exact Hentry.
    - apply best_shape_start.
    - intros b entry _ Hb. apply outer_shape; [|exact Hb]. intros v _. apply Hsim.
    - intros b entry _ _ Hb. now apply outer_keeps_some.
    - intros b Hb. unfold outer. cbn [fst snd].
      rewrite (proj2 (in_keys_false f existing) Hfree), best_over_variants_fold.
      apply (fold_left_eventually (best_shape 0.8) (fun b : option string * Q => is_Some (fst b)) (inner f) variants _ variant).
      + exact Hvariant.
      + exact Hb.
      + intros b' v _ Hb'. apply inner_shape; [apply Hsim | exact Hb'].
      + intros b' v _ _ Hb'. now apply inner_keeps_some.
      + intros b' Hb'. apply (inner_takes_first 0.8); [apply Hsim | exact Hb']. }
  destruct Hfinal as [f' Hf'].
  assert (Hfind : _find_best_fuzzy_match column existing
                  = Some (f', snd (fold_left outer standard_variants (None, 0%Q)))).
  { rewrite find_best_fold, Hf'. reflexivity. }
  exists f', (snd (fold_left outer standard_variants (None, 0%Q))).
  destruct (find_best_fuzzy_match_ok _ _ _ _ Hfind) as (Hstd & Hnone & _).
  destruct Hshape as [Hshape _]. rewrite Hf' in Hshape. auto.
Qed.

End BestMatch.

Lemma fuzzy_match_of_respelled_name_witness :
  exists f' q,
    _find_best_fuzzy_match "Product-Title" ∅ = Some (f', q)
    /\ (q == 1)%Q /\ f' ∈ standard_fields /\ (∅ : gmap string string) !! f' = None.
Proof.
  eapply (fuzzy_match_of_respelled_name "Product-Title" ∅ "Title" "product_title").
  - eapply (list_elem_of_lookup_2 _ 1%nat). reflexivity.
  - set_solver.
  - reflexivity.
  - reflexivity.
Defined.

Lemma fuzzy_match_of_separator_name_witness :
  exists f' q,
    _find_best_fuzzy_match " - " ∅ = Some (f', q)
    /\ (0.8 <= q)%Q /\ f' ∈ standard_fields /\ (∅ : gmap string string) !! f' = None.
Proof.
  apply (fuzzy_match_of_separator_name " - " ∅ "Handle").
  - reflexivity.
  - eapply (list_elem_of_lookup_2 _ 0%nat). reflexivity.
  - reflexivity.
Defined.

End FuzzyMatchProofs.

(* ===================================================================== *)
(** * Handles and the variant grid *)
(* ===================================================================== *)

Module HandleProofs.
Import Py Pandas Utils DataProcessor Props.
Import SizeTokenProofs SortSizesProofs VariantProofs ComparePriceProofs MapperLemmas MapperProofs DescriptionProofs SizeListProofs ColumnTableProofs FuzzyMatchProofs.

Ltac all_chars c := destruct c as [[] [] [] [] [] [] [] []]; try reflexivity; try discriminate.

Section HandleChars.





Lemma hyphen_handle_char : handle_char "-" = true.
Proof. reflexivity. Qed.

Lemma to_lower_hyphen_eq (c : ascii) : to_lower c = "-"%char -> c = "-"%char.
Proof. all_chars c. Qed.

End HandleChars.

Section SlugFacts.

Let keep (c : ascii) : bool := is_word c || is_space c || Ascii.eqb c "-".
























End SlugFacts.


Section ExplodedRows.
Context `{Runtime}.



Lemma bind_pairs {A} (f : string -> string -> A) (g : A -> string * string)
      (sizes colors : list string) :
  (forall s c, g (f s c) = (s, c)) ->
  List.map g (size ← sizes; color ← colors; [f size color]) = list_prod sizes colors.
Proof.
  intros Hg. induction sizes as [|s sizes IH]; [reflexivity|].
  cbn [mbind list_bind list_prod]. change (list_bind ?k ?l) with (l ≫= k).
  rewrite map_app, IH. f_equal.
  clear IH. induction colors as [|c colors IH]; [reflexivity|].
  cbn. change (list_bind ?k ?l) with (l ≫= k). now rewrite Hg, IH.
Qed.

Lemma variant_of_exploded (row : Series) (size color : string)
      (quantities : gmap string Z) (price : value) (config : Config) :
  variant_of (exploded_row row size color quantities price config) = (size, color).
Proof.
  destruct (exploded_row_fields row size color quantities price config)
    as (Hs & _ & Hc & _).
  unfold variant_of, text_at. now rewrite Hs, Hc.
Qed.

(** The loop body of [_process_variants], with its defaults spelled out. *)
Lemma explode_unfold (row : Series) (column_mapping : gmap string string) (config : Config) :
  explode row column_mapping config
  = match sort_sizes_with_quantities (clean_text (sizes_value_of row column_mapping)) with
    | Ok (sorted, quantities) =>
        Ok (size ← or_blank sorted;
            color ← or_blank (split_colors (clean_text (colours_value_of row column_mapping)));
            [exploded_row row size color
               (match sorted with [] => {[ "" := 0 ]} | _ => quantities end)
               (_extract_compare_price row column_mapping config) config])
    | Raise e => Raise e
    end.
Proof.
  unfold explode.
  destruct (sort_sizes_with_quantities _) as [[sorted quantities]|err]; [|reflexivity].
  unfold mbind at 1, result_bind, Py.bind.
  destruct sorted; reflexivity.
Qed.

End ExplodedRows.

(** X16.  The variant grid.  [_process_variants] turns one source row into one
    row per pair of a size and a colour, the sizes in sorted order and,
    within a size, the colours in the order they were written; a row
    without sizes, or without colours, gets the empty size, or colour, so a
    source row is never lost.  It fails exactly when sorting the sizes
    fails. *)
Theorem explode_is_the_variant_grid `{Runtime}
        (row : Series) (column_mapping : gmap string string) (config : Config) :
  let sizes_text := clean_text (sizes_value_of row column_mapping) in
  let colors := split_colors (clean_text (colours_value_of row column_mapping)) in
  (forall rows, explode row column_mapping config = Ok rows ->
     exists sorted quantities,
       sort_sizes_with_quantities sizes_text = Ok (sorted, quantities)
       /\ List.map variant_of rows = list_prod (or_blank sorted) (or_blank colors)
       /\ rows <> [])
  /\ (forall e, explode row column_mapping config = Raise e
                <-> sort_sizes_with_quantities sizes_text = Raise e).
Proof.
  cbv zeta. rewrite explode_unfold.
  destruct (sort_sizes_with_quantities _) as [[sorted quantities]|err] eqn:Es.
  - split; [|intros e; split; intros E; discriminate E].
    intros rows E. injection E as <-. exists sorted, quantities. split; [reflexivity|].
    set (colors := split_colors _).
    set (quantities' := match sorted with [] => _ | _ => quantities end).
    assert (Hgrid : List.map variant_of
                      (size ← or_blank sorted; color ← or_blank colors;
                       [exploded_row row size color quantities'
                          (_extract_compare_price row column_mapping config) config])
                    = list_prod (or_blank sorted) (or_blank colors)).
    { apply (bind_pairs (fun size color => exploded_row row size color quantities'
                           (_extract_compare_price row column_mapping config) config)).
      intros s c. apply variant_of_exploded. }
    split; [exact Hgrid|].
    intros Hnil. rewrite Hnil in Hgrid.
    destruct sorted as [|s sorted]; destruct colors as [|c cs]; discriminate Hgrid.
  - split; [discriminate|]. intros e. split; intros E; injection E as <-; reflexivity.
Qed.



End HandleProofs.

(* ===================================================================== *)
(** * Quantities, prices and the order of the catalog *)
(* ===================================================================== *)

Module CatalogProofs.
Import Py Pandas Utils DataProcessor Props.
Import SizeTokenProofs SortSizesProofs VariantProofs ComparePriceProofs MapperLemmas MapperProofs DescriptionProofs SizeListProofs ColumnTableProofs FuzzyMatchProofs HandleProofs.

(** X18.  The display size never contains a hyphen: it is the size itself when
    the size has none, and otherwise the trimmed text before the first
    one.  Taking the display size of a display size changes nothing. *)
Theorem display_size_has_no_hyphen (size : string) :
  count "-" (display_size_of size) = O
  /\ (count "-" size = O -> display_size_of size = size)
  /\ (count "-" size <> O -> display_size_of size = strip (nth 0 (split "-" size) ""))
  /\ display_size_of (display_size_of size) = display_size_of size.
Proof.
  assert (Hnone : count "-" (display_size_of size) = O).
  { destruct (Nat.eq_dec (count "-" size) O) as [E|E].
    - now rewrite display_size_of_plain.
    - rewrite display_size_of_hyphenated by exact E.
      rewrite count_strip by reflexivity.
      destruct (split_head "-"%char size) as (h & rest & -> & Hh & _). exact Hh. }
  split; [exact Hnone|]. split; [apply display_size_of_plain|].
  split; [apply display_size_of_hyphenated|].
  now apply display_size_of_plain.
Qed.

Section ExtractionFacts.
Context `{Runtime}.

Lemma float_leb_nonneg (f : pyfloat) : float_leb (Finite 0) f = true -> nonneg_float f.
Proof.
  destruct f as [q| | |]; simpl; try discriminate.
  - intros Hq. right. exists q. split; [reflexivity|]. now apply Qle_bool_iff.
  - intros _. now left.
Qed.
End ExtractionFacts.

(** X19.  The compare price extracted from a row.  In bulk mode it is the bulk
    price of the configuration; with extraction from the column on, it is
    either absent or a float that is not negative and not NaN, so a negative
    or unreadable cell is dropped, never passed on and never an error; with
    both off it is the default price of the configuration. *)
Theorem extract_compare_price_range `{Runtime}
        (row : Series) (column_mapping : gmap string string) (config : Config) :
  let price := _extract_compare_price row column_mapping config in
  (default false (bulk_compare_price_mode config) = true ->
   price = VFloat (default (Finite 0) (bulk_compare_price config)))
  /\ (default false (bulk_compare_price_mode config) = false ->
      default true (use_expected_compare_price config) = true ->
      price = VNone \/ exists f, price = VFloat f /\ nonneg_float f)
  /\ (default false (bulk_compare_price_mode config) = false ->
      default true (use_expected_compare_price config) = false ->
      price = VFloat (default (Finite 0) (default_compare_price config))).
Proof.
  cbv zeta. unfold _extract_compare_price. repeat split.
  - now intros ->.
  - intros -> ->. destruct (_ && _); [|now left].
    destruct (float_of_text _) as [f|e]; [|now left].
    destruct (float_leb (Finite 0) f) eqn:E; [|now left].
    right. exists f. split; [reflexivity | now apply float_leb_nonneg].
  - now intros -> ->.
Qed.

(** X20.  The quantity extracted for a variant is positive whenever the
    quantities of the configuration are: a size without a positive quantity
    of its own falls back to a configured one, never to zero.  With bulk
    mode off and extraction on, a size with a positive quantity in the map
    keeps it. *)
Theorem extract_quantity_positive
        (size : string) (size_quantity_map : gmap string Z) (config : Config) :
  (forall q, q ∈ configured_quantities config -> 0 < q) ->
  0 < _extract_quantity size size_quantity_map config
  /\ (forall q, default false (bulk_qty_mode config) = false ->
                default true (use_expected_qty config) = true ->
                size_quantity_map !! size = Some q -> 0 < q ->
                _extract_quantity size size_quantity_map config = q).
Proof.
  intros Hconf. unfold configured_quantities in Hconf.
  assert (H1 := Hconf _ ltac:(left)).
  assert (H2 := Hconf _ ltac:(right; left)).
  assert (H3 := Hconf _ ltac:(right; right; left)).
  unfold _extract_quantity. split.
  - destruct (default false _); [exact H1|].
    destruct (default true _); [|exact H2].
    destruct (0 <? _) eqn:E; [now apply Z.ltb_lt in E | exact H3].
  - intros q -> -> -> Hq. simpl. apply Z.ltb_lt in Hq. now rewrite Hq.
Qed.

Lemma extract_quantity_positive_witness :
  0 < _extract_quantity "M" {[ "M" := 5 ]} no_config
  /\ (forall q, default false (bulk_qty_mode no_config) = false ->
                default true (use_expected_qty no_config) = true ->
                ({[ "M" := 5 ]} : gmap string Z) !! "M" = Some q -> 0 < q ->
                _extract_quantity "M" {[ "M" := 5 ]} no_config = q).
Proof.
  apply (extract_quantity_positive "M" {[ "M" := 5 ]} no_config).
  intros q Hq. repeat (apply elem_of_cons in Hq as [->|Hq]); try (vm_compute; reflexivity).
  inversion Hq.
Defined.

Section KeyOrder.

Lemma key_leb_total (a b : Z * string) : key_leb a b = true \/ key_leb b a = true.
Proof.
  unfold key_leb. destruct (Z.lt_trichotomy (fst a) (fst b)) as [Hlt|[Heq|Hgt]].
  - left. apply Z.ltb_lt in Hlt. now rewrite Hlt.
  - rewrite Heq, Z.ltb_irrefl, Z.eqb_refl. simpl. apply String.leb_total.
  - right. apply Z.ltb_lt in Hgt. now rewrite Hgt.
Qed.

Lemma key_leb_trans (a b c : Z * string) :
  key_leb a b = true -> key_leb b c = true -> key_leb a c = true.
Proof.
  unfold key_leb. intros Hab Hbc.
  apply orb_prop in Hab as [Hab|Hab]; apply orb_prop in Hbc as [Hbc|Hbc].
  - apply Z.ltb_lt in Hab, Hbc. apply orb_true_intro. left. apply Z.ltb_lt. lia.
  - apply andb_prop in Hbc as [Hbc _]. apply Z.eqb_eq in Hbc. rewrite <- Hbc, Hab. reflexivity.
  - apply andb_prop in Hab as [Hab _]. apply Z.eqb_eq in Hab. rewrite Hab, Hbc. reflexivity.
  - apply andb_prop in Hab as [Hab Hs1]. apply andb_prop in Hbc as [Hbc Hs2].
    apply Z.eqb_eq in Hab, Hbc. rewrite Hab, Hbc, Z.eqb_refl.
    rewrite (string_leb_trans _ _ _ Hs1 Hs2). apply orb_true_r.
Qed.

End KeyOrder.

(** X21.  Sorting the variants of a product drops and repeats no row, and leaves
    the rows in ascending order of the pair (place of the size in the sorted
    sizes of the group, colour); it fails only when sorting the sizes of the
    group fails. *)
Theorem sort_variants_in_group_sorts `{Runtime} (group : list Series) :
  (forall sorted, _sort_variants_in_group group = Ok sorted ->
     Permutation sorted group
     /\ exists order,
         (sizes_in group = [] /\ order = []
          \/ exists quantities,
              sort_sizes_with_quantities (join "," (sizes_in group)) = Ok (order, quantities))
         /\ StronglySorted (fun r1 r2 => key_leb (sort_key order r1) (sort_key order r2) = true)
                           sorted)
  /\ (forall e, _sort_variants_in_group group = Raise e ->
                sort_sizes_with_quantities (join "," (sizes_in group)) = Raise e).
Proof.
  unfold _sort_variants_in_group. cbv zeta.
  assert (Hsorted : forall order,
             Permutation (sort_by (sort_key order) key_leb group) group
             /\ StronglySorted (fun r1 r2 => key_leb (sort_key order r1) (sort_key order r2) = true)
                               (sort_by (sort_key order) key_leb group)).
  { intros order. split; [apply sort_by_perm|].
    apply sort_by_StronglySorted; [apply key_leb_total | apply key_leb_trans]. }
  destruct (sizes_in group) as [|s sizes] eqn:Es.
  - cbn. split; [|discriminate].
    intros sorted E. injection E as <-.
    split; [apply (Hsorted [])|]. exists []. split; [now left | apply (Hsorted [])].
  - destruct (sort_sizes_with_quantities _) as [[order quantities]|err]; cbn.
    + split; [|discriminate]. intros sorted E. injection E as <-.
      split; [apply (Hsorted order)|]. exists order. split; [right; eauto | apply (Hsorted order)].
    + split; [discriminate|]. intros e E. injection E as <-. reflexivity.
Qed.

Section GroupFacts.
Context `{Runtime}.

Let key (row : Series) : string := text_at row "Handle".

Let groups_of (keys : list string) (df : list Series) : list (list Series) :=
  List.map (fun handle => List.filter (fun row => String.eqb (key row) handle) df) keys.

Lemma groups_cons_out (keys : list string) (x : Series) (df : list Series) :
  key x ∉ keys -> groups_of keys (x :: df) = groups_of keys df.
Proof.
  induction keys as [|k keys IH]; intros Hx; [reflexivity|].
  unfold groups_of in *. cbn [List.map List.filter].
  destruct (String.eqb_spec (key x) k) as [E|E]; [exfalso; apply Hx; rewrite E; now left|].
  f_equal. apply IH. intros Hin. apply Hx. now right.
Qed.

Lemma groups_cons_in (keys : list string) (x : Series) (df : list Series) :
  NoDup keys -> key x ∈ keys ->
  Permutation (concat (groups_of keys (x :: df))) (x :: concat (groups_of keys df)).
Proof.
  induction keys as [|k keys IH]; intros Hnd Hx; [inversion Hx|].
  apply NoDup_cons in Hnd as [Hk Hnd].
  change (groups_of (k :: keys) ?l)
    with (List.filter (fun row => String.eqb (key row) k) l :: groups_of keys l).
  cbn [concat List.filter].
  destruct (String.eqb_spec (key x) k) as [E|E].
  - rewrite groups_cons_out by (rewrite E; exact Hk). reflexivity.
  - apply elem_of_cons in Hx as [Hx|Hx]; [contradiction|].
    rewrite (IH Hnd Hx). symmetry. apply Permutation_middle.
Qed.

Lemma groups_partition (keys : list string) (df : list Series) :
  NoDup keys -> (forall row, row ∈ df -> key row ∈ keys) ->
  Permutation (concat (groups_of keys df)) df.
Proof.
  intros Hnd. induction df as [|x df IH]; intros Hcover.
  - clear Hnd Hcover. unfold groups_of.
    induction keys as [|k keys IHk]; [reflexivity | exact IHk].
  - rewrite groups_cons_in by (auto; apply Hcover; now left).
    constructor. apply IH. intros row Hrow. apply Hcover. now right.
Qed.

Lemma group_keys_NoDup (df : list Series) :
  NoDup (sort_by id String.leb (unique_from ∅ (List.map key df))).
Proof. rewrite sort_by_perm. apply unique_from_NoDup. Qed.

Lemma group_keys_cover (df : list Series) (row : Series) :
  row ∈ df -> key row ∈ sort_by id String.leb (unique_from ∅ (List.map key df)).
Proof.
  intros Hrow. rewrite sort_by_perm, unique_from_elem. split; [|set_solver].
  change (List.map key df) with (key <$> df). apply list_elem_of_fmap. eauto.
Qed.

Lemma groupby_handle_groups (df : list Series) :
  List.map snd (groupby_handle df)
  = groups_of (sort_by id String.leb (unique_from ∅ (List.map key df))) df.
Proof. unfold groupby_handle, groups_of. cbv zeta. now rewrite map_map. Qed.

Lemma groupby_handle_partition (df : list Series) :
  Permutation (concat (List.map snd (groupby_handle df))) df.
Proof.
  rewrite groupby_handle_groups.
  apply groups_partition; [apply group_keys_NoDup | apply group_keys_cover].
Qed.

Lemma groupby_handle_key (df : list Series) (g : string * list Series) (row : Series) :
  g ∈ groupby_handle df -> row ∈ snd g -> text_at row "Handle" = fst g /\ row ∈ df.
Proof.
  unfold groupby_handle. cbv zeta. intros Hg Hrow.
  change (List.map ?f ?l) with (f <$> l) in Hg.
  apply list_elem_of_fmap in Hg as (handle & -> & _). simpl in *.
  apply list_elem_of_In, filter_In in Hrow as [Hin Heq].
  apply String.eqb_eq in Heq. split; [exact Heq | now apply list_elem_of_In].
Qed.

Lemma imap_rows (h : string) (l : list Series) :
  List.map (fun e : Series * string * bool => e.1.1)
           (imap (fun idx row => (row, h, bool_decide (idx = O))) l) = l.
Proof.
  change (List.map ?f ?l) with (f <$> l).
  rewrite fmap_imap. unfold compose. simpl.
  induction l as [|x l IH]; [reflexivity|].
  simpl. f_equal. rewrite <- IH at 2. apply imap_ext. reflexivity.
Qed.

End GroupFacts.

Section EmissionFacts.
Context `{Runtime}.

Let rows_of (entries : list (Series * string * bool)) : list Series :=
  List.map (fun e : Series * string * bool => e.1.1) entries.

Let emit (g : string * list Series) : result (list (Series * string * bool)) :=
  sorted_group ← _sort_variants_in_group (snd g);
  Ok (imap (fun idx row => (row, fst g, bool_decide (idx = O))) sorted_group).

Lemma emit_Ok (g : string * list Series) (ys : list (Series * string * bool)) :
  emit g = Ok ys ->
  exists sorted_group,
    _sort_variants_in_group (snd g) = Ok sorted_group
    /\ Permutation sorted_group (snd g)
    /\ ys = imap (fun idx row => (row, fst g, bool_decide (idx = O))) sorted_group.
Proof.
  unfold emit. destruct (_sort_variants_in_group (snd g)) as [sorted_group|e] eqn:E;
    cbn; [|discriminate].
  intros E'. injection E' as <-. exists sorted_group. split; [reflexivity|].
  split; [|reflexivity].
  revert E. unfold _sort_variants_in_group. cbv zeta.
  destruct (match sizes_in (snd g) with [] => _ | _ => _ end) as [sorted|e]; cbn;
    [|discriminate].
  intros E. injection E as <-. apply sort_by_perm.
Qed.

Lemma emitted_rows (gs : list (string * list Series))
      (groups : list (list (Series * string * bool))) :
  Forall2 (fun g ys => emit g = Ok ys) gs groups ->
  Permutation (rows_of (concat groups)) (concat (List.map snd gs)).
Proof.
  induction 1 as [|g ys gs groups Hg _ IH]; [reflexivity|].
  destruct (emit_Ok g ys Hg) as (sorted_group & _ & Hperm & ->).
  unfold rows_of in *. cbn [concat List.map]. rewrite map_app, imap_rows.
  now apply Permutation_app.
Qed.

Lemma emission_order_unfold (df : list Series) :
  emission_order df = (groups ← map_result emit (groupby_handle df); Ok (concat groups)).
Proof. reflexivity. Qed.

Lemma emission_order_perm (df : list Series) (order : list (Series * string * bool)) :
  emission_order df = Ok order -> Permutation (rows_of order) df.
Proof.
  rewrite emission_order_unfold.
  destruct (map_result _ (groupby_handle df)) as [groups|e] eqn:Em; cbn; [|discriminate].
  intros E. injection E as <-. apply map_result_Ok in Em.
  rewrite (emitted_rows _ _ Em). apply groupby_handle_partition.
Qed.

Lemma emission_order_length (df : list Series) (order : list (Series * string * bool)) :
  emission_order df = Ok order -> length order = length df.
Proof.
  intros E. rewrite <- (length_map (fun e : Series * string * bool => e.1.1)).
  apply Permutation_length. now apply emission_order_perm.
Qed.

(** Main rows: the entries of one group flagged as first, for the handle
    [h]. *)
Let main_rows (h : string) (entries : list (Series * string * bool)) :=
  List.filter (fun e : Series * string * bool => String.eqb e.1.2 h && e.2) entries.

Lemma main_rows_rest (h k : string) (f : nat -> nat) (l : list Series) :
  main_rows h (imap (fun idx row => (row, k, bool_decide (S (f idx) = O))) l) = [].
Proof.
  revert f. induction l as [|x l IH]; intros f; [reflexivity|].
  cbn [imap]. unfold main_rows in *. cbn [List.filter fst snd].
  rewrite bool_decide_eq_false_2 by discriminate. rewrite andb_false_r.
  apply (IH (fun idx => f (S idx))).
Qed.

Lemma main_rows_group (h k : string) (l : list Series) :
  length (main_rows h (imap (fun idx row => (row, k, bool_decide (idx = O))) l))
  = if String.eqb k h then (match l with [] => O | _ => 1%nat end) else O.
Proof.
  destruct l as [|x l]; [now destruct (String.eqb k h)|].
  cbn [imap]. unfold main_rows. cbn [List.filter fst snd].
  pose proof (main_rows_rest h k (fun idx => idx) l) as Hrest. unfold main_rows in Hrest.
  unfold compose. rewrite Hrest.
  destruct (String.eqb k h); reflexivity.
Qed.

Lemma main_rows_concat (h : string) (groups : list (list (Series * string * bool))) :
  length (main_rows h (concat groups))
  = list_sum (List.map (fun ys => length (main_rows h ys)) groups).
Proof.
  induction groups as [|ys groups IH]; [reflexivity|].
  unfold main_rows in *. cbn [concat List.map list_sum].
  now rewrite List.filter_app, length_app, IH.
Qed.

Lemma main_rows_count (h : string) (gs : list (string * list Series))
      (groups : list (list (Series * string * bool))) :
  Forall2 (fun g ys => emit g = Ok ys) gs groups ->
  NoDup (List.map fst gs) -> (forall g, g ∈ gs -> snd g <> []) ->
  list_sum (List.map (fun ys => length (main_rows h ys)) groups)
  = if bool_decide (h ∈ List.map fst gs) then 1%nat else O.
Proof.
  induction 1 as [|g ys gs groups Hg _ IH]; intros Hnd Hne; [reflexivity|].
  change (list_sum (List.map ?f (ys :: groups)))
    with (f ys + list_sum (List.map f groups))%nat.
  change (List.map fst (g :: gs)) with (fst g :: List.map fst gs) in *.
  apply NoDup_cons in Hnd as [Hfresh Hnd].
  rewrite IH by (auto; intros g' Hg'; apply Hne; now right).
  destruct (emit_Ok g ys Hg) as (sorted_group & _ & Hperm & ->).
  rewrite main_rows_group.
  assert (Hsorted : sorted_group <> []).
  { intros ->. apply Permutation_nil in Hperm. apply (Hne g); [now left | exact Hperm]. }
  destruct (String.eqb_spec (fst g) h) as [Heq|Hneq].
  - subst h. rewrite (bool_decide_eq_false_2 _ Hfresh).
    rewrite bool_decide_eq_true_2 by now left.
    destruct sorted_group; [contradiction | reflexivity].
  - assert (Hiff : h ∈ fst g :: List.map fst gs <-> h ∈ List.map fst gs).
    { rewrite elem_of_cons. split; [|auto].
      intros [Heq|Hin]; [now destruct Hneq | exact Hin]. }
    rewrite (bool_decide_ext _ _ Hiff). reflexivity.
Qed.

Lemma groupby_handle_keys (df : list Series) :
  List.map fst (groupby_handle df)
  = sort_by id String.leb (unique_from ∅ (List.map (fun row => text_at row "Handle") df)).
Proof. unfold groupby_handle. cbv zeta. rewrite map_map. simpl. apply map_id. Qed.

Lemma groupby_handle_nonempty (df : list Series) (g : string * list Series) :
  g ∈ groupby_handle df -> snd g <> [].
Proof.
  intros Hg.
  assert (Hkey : fst g ∈ List.map fst (groupby_handle df)).
  { change (List.map fst ?l) with (fst <$> l). apply list_elem_of_fmap. eauto. }
  rewrite groupby_handle_keys, sort_by_perm, unique_from_elem in Hkey. destruct Hkey as [Hkey _].
  revert Hg. unfold groupby_handle. cbv zeta. intros Hg.
  change (List.map ?f ?l) with (f <$> l) in Hg.
  apply list_elem_of_fmap in Hg as (handle & -> & _). simpl in *.
  change (List.map ?f ?l) with (f <$> l) in Hkey.
  apply list_elem_of_fmap in Hkey as (row & Hrow & Hin).
  intros Hnil.
  assert (Hmem : row ∈ List.filter (fun row => String.eqb (text_at row "Handle") handle) df).
  { apply list_elem_of_In, filter_In. split; [now apply list_elem_of_In|].
    apply String.eqb_eq. now symmetry. }
  rewrite Hnil in Hmem. inversion Hmem.
Qed.

(** X23.  Every product gets exactly one main row: among the rows visited, the
  ones flagged as the first of their group number exactly one for each
  handle that occurs in the table, and none for any other handle. *)
Theorem one_main_row_per_product
        (df : list Series) (order : list (Series * string * bool)) (handle : string) :
  emission_order df = Ok order ->
  length (List.filter (fun e : Series * string * bool => String.eqb e.1.2 handle && e.2) order)
  = if bool_decide (handle ∈ List.map (fun row => text_at row "Handle") df)
    then 1%nat else O.
Proof.
  rewrite emission_order_unfold.
  destruct (map_result _ (groupby_handle df)) as [groups|e] eqn:Em; cbn; [|discriminate].
  intros E. injection E as <-. apply map_result_Ok in Em.
  fold (main_rows handle (concat groups)).
  rewrite main_rows_concat.
  rewrite (main_rows_count handle _ _ Em).
  - apply (f_equal (fun b : bool => if b then 1%nat else O)).
    apply bool_decide_ext.
    rewrite groupby_handle_keys, sort_by_perm, unique_from_elem. set_solver.
  - rewrite groupby_handle_keys. apply group_keys_NoDup.
  - apply groupby_handle_nonempty.
Qed.

End EmissionFacts.

Lemma one_main_row_per_product_witness :
  length (List.filter
            (fun e : Series * string * bool => String.eqb e.1.2 "cool-shirt-ab-12" && e.2)
            [(with_handle sample_mapping (sample_exploded (VStr "") VNone),
              "cool-shirt-ab-12", true)])
  = if bool_decide ("cool-shirt-ab-12"
                      ∈ List.map (fun row => text_at row "Handle")
                          [with_handle sample_mapping (sample_exploded (VStr "") VNone)])
    then 1%nat else O.
Proof.
  apply (one_main_row_per_product
           [with_handle sample_mapping (sample_exploded (VStr "") VNone)]).
  vm_compute. reflexivity.
Defined.

(** X22.  The catalog is written product by product.  The rows
    [generate_shopify_csv] visits are the rows of its table, each exactly
    once, and each is visited under the handle it carries. *)
Theorem emission_order_keeps_rows `{Runtime}
        (df : list Series) (order : list (Series * string * bool)) :
  emission_order df = Ok order ->
  Permutation (List.map (fun e : Series * string * bool => e.1.1) order) df
  /\ length order = length df
  /\ (forall row handle is_first,
        (row, handle, is_first) ∈ order -> row ∈ df /\ text_at row "Handle" = handle).
Proof.
  intros Horder.
  split; [exact (emission_order_perm df order Horder)|].
  split; [exact (emission_order_length df order Horder)|].
  revert Horder. rewrite emission_order_unfold.
  destruct (map_result _ (groupby_handle df)) as [groups|e] eqn:Em; cbn; [|discriminate].
  intros E. injection E as <-.
  apply map_result_Ok in Em.
  intros row handle is_first Hin.
  { apply list_elem_of_In, in_concat in Hin as (ys & Hys & Hin).
    apply list_elem_of_In in Hys, Hin.
    apply list_elem_of_lookup in Hys as [i Hi].
    destruct (Forall2_lookup_r _ _ _ _ _ Em Hi) as (g & Hg & Hemit).
    destruct (emit_Ok g ys Hemit) as (sorted_group & _ & Hsorted & ->).
    apply list_elem_of_lookup in Hin as [j Hj].
    apply list_lookup_imap_Some in Hj as (r & Hr & Heq). injection Heq as -> -> _.
    assert (Hrow : r ∈ snd g).
    { rewrite <- Hsorted. eapply list_elem_of_lookup_2. exact Hr. }
    destruct (groupby_handle_key df g r) as [Hkey Hdf];
      [eapply list_elem_of_lookup_2; exact Hg | exact Hrow |].
    auto. }
Qed.

Lemma emission_order_keeps_rows_witness :
  Permutation
    (List.map (fun e : Series * string * bool => e.1.1)
              [(with_handle sample_mapping (sample_exploded (VStr "") VNone),
                "cool-shirt-ab-12", true)])
    [with_handle sample_mapping (sample_exploded (VStr "") VNone)]
  /\ length [(with_handle sample_mapping (sample_exploded (VStr "") VNone),
              "cool-shirt-ab-12", true)]
     = length [with_handle sample_mapping (sample_exploded (VStr "") VNone)]
  /\ (forall row handle is_first,
        (row, handle, is_first)
          ∈ [(with_handle sample_mapping (sample_exploded (VStr "") VNone),
              "cool-shirt-ab-12", true)] ->
        row ∈ [with_handle sample_mapping (sample_exploded (VStr "") VNone)]
        /\ text_at row "Handle" = handle).
Proof.
  apply (emission_order_keeps_rows
           [with_handle sample_mapping (sample_exploded (VStr "") VNone)]).
  vm_compute. reflexivity.
Defined.

Section RowCount.
Context `{Runtime}.

Lemma map_result_length {A B} (f : A -> result B) (l : list A) (ys : list B) :
  map_result f l = Ok ys -> length ys = length l.
Proof. intros E. apply map_result_Ok in E. symmetry. exact (Forall2_length _ _ _ E). Qed.

Lemma clean_compare_column_length (cells : list value) :
  length (clean_compare_column cells) = length cells.
Proof.
  unfold clean_compare_column.
  destruct (existsb is_text cells); [now rewrite length_map|].
  rewrite length_map. destruct (existsb is_float cells); [now rewrite length_map | reflexivity].
Qed.
End RowCount.

(** X24.  The catalog has one row for each row of the table it is generated
    from: generation neither drops nor adds a variant. *)
Theorem generate_shopify_csv_row_count `{Runtime}
        (session : Session) (df : list Series) (column_mapping : gmap string string)
        (config : Config) (out : list Series) :
  generate_shopify_csv session df column_mapping config = Ok out ->
  length out = length df.
Proof.
  intros Hgen.
  destruct (generate_rows _ _ _ _ _ Hgen) as (mapped & order & shaped & Hm & Ho & Hs & ->).
  rewrite length_zip_with, clean_compare_column_length.
  unfold compare_cells. rewrite length_map, Nat.min_id.
  rewrite (map_result_length _ _ _ Hs), (emission_order_length _ _ Ho).
  exact (map_result_length _ _ _ Hm).
Qed.

Lemma generate_shopify_csv_row_count_witness :
  length [sample_output (VStr "")]
  = length [with_handle sample_mapping (sample_exploded (VStr "") VNone)].
Proof.
  apply (generate_shopify_csv_row_count fresh_session _ sample_mapping no_config).
  vm_compute. reflexivity.
Defined.

End CatalogProofs.

(* ===================================================================== *)
(** * Descriptions: cleaning, ordering and the two renderers *)
(* ===================================================================== *)

Module DescriptionListProofs.
Import Py Pandas Description Props.
Import SizeTokenProofs SortSizesProofs VariantProofs ComparePriceProofs MapperLemmas MapperProofs DescriptionProofs SizeListProofs ColumnTableProofs FuzzyMatchProofs HandleProofs CatalogProofs.

Section CleanedCells.
Context `{Runtime}.

Lemma blank_not_number (v : value) :
  str_is_blank v = true -> float_of_text v = Raise ValueError.
Proof.
  destruct v as [| |f|s]; try discriminate. cbn.
  intros Hb. apply String.eqb_eq in Hb. rewrite Hb. reflexivity.
Qed.

Lemma clean_value_no_decimals_unfold (v : value) (column_name : string) :
  isna v || str_is_blank v = false ->
  _clean_value_no_decimals v column_name
  = match float_of_text v with
    | Ok num_value =>
        match py_int num_value with
        | Ok i =>
            if existsb (fun field => contains field (lower column_name)) integer_fields
               || float_eqb num_value (Finite (inject_Z i))
            then Ok (int_repr i) else Ok (strip (py_str v))
        | Raise e => if is_ValueError_or_TypeError e then Ok (strip (py_str v)) else Raise e
        end
    | Raise e => if is_ValueError_or_TypeError e then Ok (strip (py_str v)) else Raise e
    end.
Proof.
  intros Hb. unfold _clean_value_no_decimals. rewrite Hb. cbv zeta.
  set (b := existsb (fun field => contains field (lower column_name)) integer_fields).
  clearbody b.
  destruct (float_of_text v) as [[q| | |]|e]; [| | | |reflexivity];
    destruct b; cbn; try reflexivity.
  destruct (float_eqb _ _); reflexivity.
Qed.

Lemma clean_value_plain_text (v : value) (column_name : string) :
  isna v || str_is_blank v = true \/ float_of_text v = Raise ValueError ->
  _clean_value_no_decimals v column_name = Ok (_clean_value v).
Proof.
  intros Hv. destruct (isna v || str_is_blank v) eqn:Hb.
  - unfold _clean_value_no_decimals, _clean_value. rewrite Hb. reflexivity.
  - destruct Hv as [Hv|Hv]; [discriminate|].
    rewrite clean_value_no_decimals_unfold by exact Hb. rewrite Hv. cbn.
    unfold _clean_value. rewrite Hb. reflexivity.
Qed.

Lemma clean_value_infinity (v : value) (column_name : string) :
  float_of_text v = Ok PosInf \/ float_of_text v = Ok NegInf ->
  _clean_value_no_decimals v column_name = Raise OverflowError.
Proof.
  intros Hv.
  assert (Hb : isna v || str_is_blank v = false).
  { destruct (isna v) eqn:Hn.
    - destruct v as [| |[]|]; try discriminate; cbn in Hv; destruct Hv; discriminate.
    - destruct (str_is_blank v) eqn:Hs; [|reflexivity].
      apply blank_not_number in Hs. destruct Hv as [Hv|Hv]; congruence. }
  rewrite clean_value_no_decimals_unfold by exact Hb.
  destruct Hv as [-> | ->]; reflexivity.
Qed.
End CleanedCells.

Section Fragments.
Lemma fragments_off_paragraph (label html_tag value : string) :
  html_tag <> "p" -> html_fragment label html_tag value = dynamic_fragment label html_tag value.
Proof.
  intros Hp. apply String.eqb_neq in Hp.
  unfold html_fragment, dynamic_fragment. rewrite Hp. reflexivity.
Qed.
End Fragments.

Section ElementOrder.
Let has_column (elem : Element) : bool :=
  negb (String.eqb (default "" (column elem)) "").

Lemma sorted_elements_perm (l : list Element) :
  Permutation (sorted_elements l) (List.filter has_column l).
Proof. apply sort_by_perm. Qed.

Lemma sorted_elements_elem (l : list Element) (elem : Element) :
  elem ∈ sorted_elements l <-> elem ∈ l /\ has_column elem = true.
Proof.
  rewrite (sorted_elements_perm l), !list_elem_of_In, filter_In. reflexivity.
Qed.

Lemma filter_all {A} (p : A -> bool) (l : list A) :
  (forall x, x ∈ l -> p x = true) -> List.filter p l = l.
Proof.
  induction l as [|x l IH]; intros Hall; [reflexivity|]. simpl.
  rewrite (Hall x) by left. f_equal. apply IH. intros y Hy. apply Hall. now right.
Qed.

Lemma sorted_elements_twice (l : list Element) :
  sorted_elements (sorted_elements l) = sorted_elements l.
Proof.
  assert (Hf : List.filter has_column (sorted_elements l) = sorted_elements l).
  { apply filter_all. intros x Hx. apply sorted_elements_elem in Hx. apply Hx. }
  change (sorted_elements (sorted_elements l))
    with (sort_by (fun x => default 0 (order x)) Z.leb
                  (List.filter has_column (sorted_elements l))).
  rewrite Hf. apply sort_by_twice. apply Z_leb_total.
Qed.
End ElementOrder.

Section Renderers.
Context `{Runtime}.
Variable row : Series.

Let html_part (element : Element) : option string :=
  let column := default "" (column element) in
  let label := default "" (label element) in
  let html_tag := default "p" (html_tag element) in
  if negb (String.eqb column "") then
    match row !! column with
    | Some cell =>
        let value := _clean_value cell in
        if negb (String.eqb value "")
        then Some (html_fragment label html_tag value)
        else None
    | None => None
    end
  else None.

Lemma dynamic_part_plain (element : Element) :
  default "p" (html_tag element) <> "p" ->
  (forall c cell, column element = Some c -> row !! c = Some cell ->
                  isna cell || str_is_blank cell = true
                  \/ float_of_text cell = Raise ValueError) ->
  dynamic_part row element = Ok (option_list (html_part element)).
Proof.
  intros Htag Hcell. unfold dynamic_part, html_part. cbv zeta.
  destruct (column element) as [c|] eqn:Ec; [|reflexivity].
  change (default "" (Some c)) with c.
  destruct (negb (c =? "")%string); [|reflexivity].
  destruct (row !! c) as [cell|] eqn:Er; [|reflexivity].
  rewrite (clean_value_plain_text cell c (Hcell c cell eq_refl Er)). cbn.
  destruct (negb (_clean_value cell =? "")%string); [|reflexivity].
  cbn. now rewrite fragments_off_paragraph.
Qed.

Lemma dynamic_parts_plain (elements : list Element) :
  (forall element, element ∈ elements -> default "p" (html_tag element) <> "p") ->
  (forall element c cell, element ∈ elements -> column element = Some c ->
                          row !! c = Some cell ->
                          isna cell || str_is_blank cell = true
                          \/ float_of_text cell = Raise ValueError) ->
  dynamic_parts elements row = Ok (omap html_part elements).
Proof.
  unfold dynamic_parts.
  induction elements as [|x l IH]; intros Htag Hcell; [reflexivity|].
  simpl map_result.
  rewrite (dynamic_part_plain x); [|apply Htag; left|intros c cell; apply Hcell; left].
  cbn.
  assert (IH' := IH (fun e He => Htag e (list_elem_of_further _ _ _ He))
                    (fun e c cell He => Hcell e c cell (list_elem_of_further _ _ _ He))).
  destruct (map_result (dynamic_part row) l) as [parts|e]; cbn in IH' |- *; [|discriminate].
  injection IH' as IH'. rewrite IH'.
  destruct (html_part x); reflexivity.
Qed.

Lemma dynamic_part_infinity (element : Element) (c : string) (cell : value) :
  column element = Some c -> c <> "" -> row !! c = Some cell ->
  float_of_text cell = Ok PosInf \/ float_of_text cell = Ok NegInf ->
  dynamic_part row element = Raise OverflowError.
Proof.
  intros Ec Hc Er Hinf. unfold dynamic_part. rewrite Ec. cbv zeta.
  change (default "" (Some c)) with c.
  apply String.eqb_neq in Hc. rewrite Hc. cbn [negb]. rewrite Er.
  rewrite (clean_value_infinity cell c Hinf). reflexivity.
Qed.

(** X28.  The two renderers of the description agree on plain text: for a list
    of elements that is already in the order of its [order] keys, with a
    tag other than "p" on every element, and a row whose listed cells are
    blank or do not read as numbers,
    [DescriptionGenerator._generate_dynamic_description] and
    [WorkflowManager._generate_description_html] give the same text. *)
Theorem renderers_agree_on_plain_text (elements : list Element) :
  sorted_elements elements = elements ->
  (forall element, element ∈ elements -> default "p" (html_tag element) <> "p") ->
  (forall element c cell, element ∈ elements -> column element = Some c ->
                          row !! c = Some cell ->
                          isna cell || str_is_blank cell = true
                          \/ float_of_text cell = Raise ValueError) ->
  _generate_dynamic_description elements row = _generate_description_html elements row.
Proof.
  intros Hs Htag Hcell. unfold _generate_dynamic_description. rewrite Hs.
  rewrite (dynamic_parts_plain elements Htag Hcell). reflexivity.
Qed.

(** X26.  A cell that reads as an infinity empties the whole description: the
    integer conversion raises [OverflowError], which the cleaning step
    does not catch, and [_generate_dynamic_description] answers every
    exception with the empty text, whatever the other elements hold. *)
Theorem dynamic_description_swallows_infinity
        (elements : list Element) (element : Element) (c : string) (cell : value) :
  element ∈ elements -> column element = Some c -> c <> "" -> row !! c = Some cell ->
  float_of_text cell = Ok PosInf \/ float_of_text cell = Ok NegInf ->
  _generate_dynamic_description elements row = "".
Proof.
  intros Hin Ec Hc Er Hinf.
  assert (Hs : element ∈ sorted_elements elements).
  { apply sorted_elements_elem. split; [exact Hin|].
    rewrite Ec. cbn. apply String.eqb_neq in Hc. now rewrite Hc. }
  destruct (map_result_raises (dynamic_part row) _ _ _ Hs
              (dynamic_part_infinity element c cell Ec Hc Er Hinf)) as [e He].
  unfold _generate_dynamic_description, dynamic_parts. rewrite He. reflexivity.
Qed.
End Renderers.

Lemma renderers_agree_on_plain_text_witness :
  _generate_dynamic_description [fabric_element "h3"] fabric_row
  = _generate_description_html [fabric_element "h3"] fabric_row.
Proof.
  apply (renderers_agree_on_plain_text fabric_row [fabric_element "h3"]).
  - vm_compute. reflexivity.
  - intros element Hel. apply list_elem_of_singleton in Hel as ->. discriminate.
  - intros element c cell Hel. apply list_elem_of_singleton in Hel as ->.
    intros Ec. injection Ec as <-. intros Er. vm_compute in Er. injection Er as <-.
    right. vm_compute. reflexivity.
Defined.

Lemma dynamic_description_swallows_infinity_witness :
  _generate_dynamic_description
    [fabric_element "h3"; {| column := Some "weight"; label := None;
                             html_tag := Some "li"; order := Some 2 |}]
    {[ "fabric" := VStr "Cotton"; "weight" := VStr "inf" ]} = "".
Proof.
  apply (dynamic_description_swallows_infinity _ _
           {| column := Some "weight"; label := None; html_tag := Some "li"; order := Some 2 |}
           "weight" (VStr "inf")).
  - apply list_elem_of_further, list_elem_of_here.
  - reflexivity.
  - discriminate.
  - vm_compute. reflexivity.
  - left. vm_compute. reflexivity.
Defined.

(** X27.  The elements [_generate_dynamic_description] renders are the given
    elements that name a column, each once, in ascending order of their
    [order] key (0 when absent); sorting is idempotent, so a list already
    prepared this way renders to the same description. *)
Theorem sorted_elements_order `{Runtime} (description_elements : list Element) :
  Permutation (sorted_elements description_elements)
              (List.filter (fun elem => negb (String.eqb (default "" (column elem)) ""))
                           description_elements)
  /\ StronglySorted (fun x y => (default 0 (order x) <=? default 0 (order y)) = true)
                    (sorted_elements description_elements)
  /\ sorted_elements (sorted_elements description_elements)
     = sorted_elements description_elements
  /\ forall row,
       _generate_dynamic_description (sorted_elements description_elements) row
       = _generate_dynamic_description description_elements row.
Proof.
  split; [apply sorted_elements_perm|]. split.
  { apply (sort_by_StronglySorted (fun x : Element => default 0 (order x)) Z.leb);
      [apply Z_leb_total | apply Z_leb_trans]. }
  split; [apply sorted_elements_twice|].
  intros row. unfold _generate_dynamic_description. now rewrite sorted_elements_twice.
Qed.

(** X25.  [_clean_value_no_decimals], case by case.  A missing or blank value
    gives the empty text.  The only exception that escapes is
    [OverflowError], exactly for a value that reads as an infinity.  A
    finite number is printed as its integer part when it is whole or when
    the column name contains one of the integer field names, and is left as
    written otherwise.  Text that is no number, or reads as NaN, is
    returned trimmed. *)
Theorem clean_value_no_decimals_cases `{Runtime} (v : value) (column_name : string) :
  let should_be_integer :=
    existsb (fun field => contains field (lower column_name)) integer_fields in
  (isna v || str_is_blank v = true -> _clean_value_no_decimals v column_name = Ok "")
  /\ (forall e, _clean_value_no_decimals v column_name = Raise e
                <-> e = OverflowError
                    /\ (float_of_text v = Ok PosInf \/ float_of_text v = Ok NegInf))
  /\ (forall q, float_of_text v = Ok (Finite q) ->
        (should_be_integer = true \/ whole q ->
         _clean_value_no_decimals v column_name
         = Ok (int_repr (Z.quot (Qnum q) (Z.pos (Qden q)))))
        /\ (should_be_integer = false -> ~ whole q ->
            _clean_value_no_decimals v column_name = Ok (strip (py_str v))))
  /\ (isna v || str_is_blank v = false ->
      float_of_text v = Raise ValueError \/ float_of_text v = Ok NaN ->
      _clean_value_no_decimals v column_name = Ok (strip (py_str v))).
Proof.
  intros should_be_integer.
  split; [|split; [|split]].
  - intros Hb. unfold _clean_value_no_decimals. now rewrite Hb.
  - intros e. split.
    + destruct (isna v || str_is_blank v) eqn:Hb.
      { unfold _clean_value_no_decimals. rewrite Hb. discriminate. }
      rewrite clean_value_no_decimals_unfold by exact Hb.
      destruct (float_of_text v) as [[q| | |]|e'] eqn:Ef;
        cbn [py_int is_ValueError_or_TypeError].
      * destruct (existsb _ _ || float_eqb _ _); discriminate.
      * intros E. inversion E. auto.
      * intros E. inversion E. auto.
      * discriminate.
      * rewrite (float_of_text_raises v e' Ef). discriminate.
    + intros [-> Hinf]. now apply clean_value_infinity.
  - intros q Ef.
    assert (Hb : isna v || str_is_blank v = false).
    { destruct (isna v) eqn:Hn.
      - destruct v as [| |[]|]; try discriminate; cbn in Ef; discriminate.
      - destruct (str_is_blank v) eqn:Hs; [|reflexivity].
        apply blank_not_number in Hs. congruence. }
    rewrite clean_value_no_decimals_unfold by exact Hb. rewrite Ef. cbn [py_int].
    fold should_be_integer.
    split.
    + intros [-> | Hw]; [reflexivity|].
      destruct (float_eqb _ _) eqn:Heq; [now rewrite orb_true_r|].
      apply not_equal_not_whole in Heq. contradiction.
    + intros -> Hnw. cbn [orb].
      destruct (float_eqb _ _) eqn:Heq; [|reflexivity].
      exfalso. apply Hnw. exists (Z.quot (Qnum q) (Z.pos (Qden q))).
      unfold float_eqb, float_leb in Heq. apply andb_prop in Heq as [H1 H2].
      apply Qle_bool_iff in H1, H2. now apply Qle_antisym.
  - intros Hb Hf. rewrite clean_value_no_decimals_unfold by exact Hb.
    destruct Hf as [-> | ->]; reflexivity.
Qed.

End DescriptionListProofs.
